(** * Resilient harvesting engine: a shallow embedding

    The Python sources embedded here are
    - [scraping_utilities.py] (class [ScrapingUtilities]): proxy rotation,
      CAPTCHA detection, block detection and the retry wrapper;
    - [bestbuy_review_scraper.py] (class [BestBuyReviewScraper]): the
      "show more" loop, the selector fallback and the per-fragment record
      builder.

    The first part of the file holds the definitions, the second part the
    lemmas and theorems about them. *)

From Stdlib Require Import ZArith QArith String Ascii List Lia Bool DecimalString.
From stdpp Require Import base list strings gmap.
Import ListNotations.

Set Warnings "-register-all".

Open Scope string_scope.
Open Scope Z_scope.

(* ===================================================================== *)
(** * Part I: definitions                                                 *)
(* ===================================================================== *)

(** ** Python exceptions and results *)

(** The exceptions that the modelled code can see.  [OpFailure cls] is an
    exception of class [cls] raised by the browser driver or by the wrapped
    operation; the other constructors are raised by the interpreter or by the
    modelled code itself. *)
Inductive exn : Type :=
| OpFailure (cls : string)
| ValueError
| OverflowError
| TypeError
| IndexError
| RetriesExhausted (max_retries : Z).

(** A computation either returns a value or raises. *)
Inductive Exc (A : Type) : Type :=
| Ok (a : A)
| Raise (e : exn).
Arguments Ok {A} a.
Arguments Raise {A} e.

(* ===================================================================== *)
(** ** [ScrapingUtilities.implement_retry_mechanism]                      *)
(* ===================================================================== *)

(** What the wrapper does to the outside world, in program order. *)
Inductive event : Type :=
| EvCall (raised : option exn)   (* one invocation of the wrapped function *)
| EvCaptcha (handled : bool)     (* one call of [self.handle_captcha] *)
| EvSleep (seconds : Z).         (* one completed [time.sleep] *)

(** The value returned by the wrapped function.  [res_page_source] is
    [Some src] when [hasattr(result, 'page_source')] holds, for instance when
    the function returns the driver. *)
Record result : Type := mkResult {
  res_value : string;
  res_page_source : option string
}.

(** The local variables of [wrapper], the outside world and the event log. *)
Record rstate (W : Type) : Type := mkRState {
  retries : Z;
  wait_time : Z;
  world : W;
  log : list event
}.
Arguments mkRState {W}.
Arguments retries {W}.
Arguments wait_time {W}.
Arguments world {W}.
Arguments log {W}.

(** A state and exception monad: assignments made before a [raise] are kept,
    as in Python. *)
Definition M (S A : Type) : Type := S -> Exc A * S.

Definition ret {S A} (a : A) : M S A := fun s => (Ok a, s).

Definition bind {S A B} (m : M S A) (k : A -> M S B) : M S B :=
  fun s => match m s with
           | (Ok a, s') => k a s'
           | (Raise e, s') => (Raise e, s')
           end.

Definition throw {S A} (e : exn) : M S A := fun s => (Raise e, s).

(** [try: m except: h]. *)
Definition catch {S A} (m : M S A) (h : exn -> M S A) : M S A :=
  fun s => match m s with
           | (Raise e, s') => h e s'
           | ok => ok
           end.

Notation "x <- m ;; k" := (bind m (fun x => k))
  (at level 100, m at next level, right associativity).
Notation "m ;;; k" := (bind m (fun _ => k))
  (at level 100, right associativity).

(** ASCII lower-casing, as [str.lower] on ASCII text. *)
Definition lower_ascii (c : ascii) : ascii :=
  let n := nat_of_ascii c in
  if ((65 <=? n)%nat && (n <=? 90)%nat)%bool then ascii_of_nat (n + 32) else c.

Fixpoint lower (s : string) : string :=
  match s with
  | EmptyString => EmptyString
  | String c s' => String (lower_ascii c) (lower s')
  end.

(** [sub in s] on strings. *)
Fixpoint contains (sub s : string) : bool :=
  if String.prefix sub s then true
  else match s with
       | EmptyString => false
       | String _ s' => contains sub s'
       end.

(** What one pass through the [try] block asks of the [while] loop. *)
Inductive ctl (A : Type) : Type :=
| Return (a : A)
| Continue.
Arguments Return {A} a.
Arguments Continue {A}.

Definition emit {W} (ev : event) : M (rstate W) unit :=
  fun s => (Ok tt, mkRState (retries s) (wait_time s) (world s) (log s ++ [ev])).

(** [time.sleep] turns the length into a count of nanoseconds held in a
    signed 64-bit integer: [max_sleep] is the greatest whole number of
    seconds that fits. *)
Definition max_sleep : Z := 9223372036.

(** [time.sleep(seconds)], for a length given as an [int].  The interpreter
    raises [OverflowError] when the length, on either side of zero, does not
    fit the count of nanoseconds, and [ValueError] for another negative
    length.  The sleep itself is then left to the operating system, which is
    taken to complete it; a system may refuse a length close to [max_sleep]
    (Linux does when the deadline passes the range of its clock), and the
    statements below keep to the lengths of [sleepable]. *)
Definition sleep {W} (seconds : Z) : M (rstate W) unit :=
  if ((seconds <? - max_sleep) || (max_sleep <? seconds))%bool then throw OverflowError
  else if seconds <? 0 then throw ValueError
  else emit (EvSleep seconds).

Definition get_retries {W} : M (rstate W) Z := fun s => (Ok (retries s), s).
Definition get_wait_time {W} : M (rstate W) Z := fun s => (Ok (wait_time s), s).

Definition set_retries {W} (r : Z) : M (rstate W) unit :=
  fun s => (Ok tt, mkRState r (wait_time s) (world s) (log s)).
Definition set_wait_time {W} (w : Z) : M (rstate W) unit :=
  fun s => (Ok tt, mkRState (retries s) w (world s) (log s)).

Section Retry.

Context {W : Type}.

(** The wrapped function and [self.handle_captcha], acting on the world. *)
Variable function : W -> Exc result * W.
Variable handle_captcha : result -> W -> bool * W.

Variable max_retries : Z.
Variable backoff_factor : Z.
Variable initial_wait : Z.
(** [isinstance(e, error_types)]. *)
Variable error_types : exn -> bool.
Variable retry_on_captcha : bool.

Definition call_function : M (rstate W) result :=
  fun s =>
    let (r, w') := function (world s) in
    let raised := match r with Ok _ => None | Raise e => Some e end in
    (r, mkRState (retries s) (wait_time s) w' (log s ++ [EvCall raised])).

Definition call_handle_captcha (r : result) : M (rstate W) bool :=
  fun s =>
    let (b, w') := handle_captcha r (world s) in
    (Ok b, mkRState (retries s) (wait_time s) w' (log s ++ [EvCaptcha b])).

Definition captcha_indicators : list string := ["recaptcha"; "hcaptcha"; "captcha"].

(** [any(indicator in result.page_source.lower() for indicator in captcha_indicators)] *)
Definition looks_like_captcha (src : string) : bool :=
  existsb (fun indicator => contains indicator (lower src)) captcha_indicators.

(** The body of the [try] statement of [wrapper]. *)
Definition try_body : M (rstate W) (ctl result) :=
  r <- call_function ;;
  match res_page_source r with
  | Some src =>
      if (retry_on_captcha && looks_like_captcha src)%bool then
        handled <- call_handle_captcha r ;;
        if handled then
          r' <- call_function ;;
          ret (Return r')
        else
          n <- get_retries ;;
          set_retries (n + 1) ;;;
          w <- get_wait_time ;;
          set_wait_time (w * backoff_factor) ;;;
          w' <- get_wait_time ;;
          sleep w' ;;;
          ret Continue
      else ret (Return r)
  | None => ret (Return r)
  end.

(** The [except error_types as e] clause. *)
Definition handler (e : exn) : M (rstate W) (ctl result) :=
  n <- get_retries ;;
  set_retries (n + 1) ;;;
  n' <- get_retries ;;
  if max_retries <? n' then throw e
  else
    w <- get_wait_time ;;
    sleep w ;;;
    set_wait_time (w * backoff_factor) ;;;
    ret Continue.

(** One iteration of the [while] loop: the [try] statement. *)
Definition iteration : M (rstate W) (ctl result) :=
  catch try_body (fun e => if error_types e then handler e else throw e).

(** [while retries <= max_retries: ...] followed by the final [raise].
    [None] means that the fuel ran out before the loop was left. *)
Fixpoint while_loop (fuel : nat) (s : rstate W) : option (Exc result * rstate W) :=
  match fuel with
  | O => None
  | S fuel' =>
      if retries s <=? max_retries then
        match iteration s with
        | (Ok (Return r), s') => Some (Ok r, s')
        | (Ok Continue, s') => while_loop fuel' s'
        | (Raise e, s') => Some (Raise e, s')
        end
      else Some (Raise (RetriesExhausted max_retries), s)
  end.

(** The wrapped function returned by [implement_retry_mechanism], run in the
    world [w] with [fuel] turns of the loop at most. *)
Definition wrapper (fuel : nat) (w : W) : option (Exc result * rstate W) :=
  while_loop fuel (mkRState 0 initial_wait w []).

End Retry.

(** How many times the wrapped function was invoked, and the delays slept. *)
Fixpoint calls (l : list event) : nat :=
  match l with
  | [] => O
  | EvCall _ :: l' => S (calls l')
  | _ :: l' => calls l'
  end.

Fixpoint delays (l : list event) : list Z :=
  match l with
  | [] => []
  | EvSleep d :: l' => d :: delays l'
  | _ :: l' => delays l'
  end.

(** The outcome of the last invocation in the log, if there is one. *)
Fixpoint last_call (l : list event) : option (option exn) :=
  match l with
  | [] => None
  | ev :: l' =>
      match last_call l' with
      | Some r => Some r
      | None => match ev with EvCall r => Some r | _ => None end
      end
  end.


(* ===================================================================== *)
(** ** [ScrapingUtilities]: the proxy pool                                *)
(* ===================================================================== *)

(** The two attributes that [__init__] sets up: [self.proxies] and
    [self.current_proxy_index].  The class keeps no other data about a
    proxy. *)
Record pool : Type := mkPool {
  proxies : list string;
  current_proxy_index : nat
}.

(** [ScrapingUtilities.__init__]. *)
Definition init_pool : pool := mkPool [] 0.

(** [get_next_proxy].  Indexing a list out of range raises [IndexError]. *)
Definition get_next_proxy : M pool (option string) :=
  fun st =>
    match proxies st with
    | [] => (Ok None, st)
    | _ :: _ =>
        match proxies st !! current_proxy_index st with
        | Some proxy =>
            (Ok (Some proxy),
             mkPool (proxies st)
                    ((current_proxy_index st + 1) mod length (proxies st))%nat)
        | None => (Raise IndexError, st)
        end
    end.

(** [k] successive calls of [get_next_proxy]; the answers are collected in
    order and the first exception ends the run. *)
Fixpoint rotation (k : nat) : M pool (list (option string)) :=
  match k with
  | O => ret []
  | S k' =>
      p <- get_next_proxy ;;
      ps <- rotation k' ;;
      ret (p :: ps)
  end.

(** [test_proxies]: [probe proxy] is the status code of the test request
    through [proxy], or [None] when the request raises (bare [except]). *)
Definition test_proxies (probe : string -> option Z) (proxy_list : list string)
    (max_test : nat) : list string :=
  let candidates := take (Nat.min (length proxy_list) max_test) proxy_list in
  List.filter (fun proxy => match probe proxy with
                            | Some code => code =? 200
                            | None => false
                            end) candidates.

(** The assignment [self.proxies = working_proxies] of [get_proxy_list]; the
    cursor is left as it is. *)
Definition load_proxies (working_proxies : list string) (st : pool) : pool :=
  mkPool working_proxies (current_proxy_index st).

(* ===================================================================== *)
(** ** [ScrapingUtilities]: CAPTCHA and block detection                   *)
(* ===================================================================== *)

(** What the two detectors ask of the browser driver. *)
Record driver : Type := mkDriver {
  (** [driver.page_source] *)
  page_source : string;
  (** [driver.find_elements(By.XPATH, xpath)]: the elements found, by name *)
  find_elements_xpath : string -> Exc (list string);
  (** [window.performance.getEntries()[0].responseStatus], when it is a number *)
  response_status : Exc (option Z)
}.

(** The list [captcha_indicators] of [handle_captcha], with the optional
    custom selector appended. *)
Definition captcha_xpaths (captcha_iframe_selector : option string) : list string :=
  ([ "//iframe[contains(@src, 'recaptcha')]";
     "//iframe[contains(@src, 'hcaptcha')]";
     "//div[contains(@class, 'g-recaptcha')]";
     "//div[contains(@class, 'h-captcha')]";
     "//input[@id='captcha']" ]
   ++ match captcha_iframe_selector with
      | Some sel => if String.eqb sel "" then [] else [String.append "//" sel]
      | None => []
      end)%list.

(** The detection loop of [handle_captcha]: an indicator counts when
    [find_elements] returns a non-empty list; an exception skips it. *)
Definition captcha_detected (d : driver) (captcha_iframe_selector : option string) : bool :=
  existsb (fun indicator =>
             match find_elements_xpath d indicator with
             | Ok (_ :: _) => true
             | _ => false
             end)
          (captcha_xpaths captcha_iframe_selector).

(** [handle_captcha].  [polls] are the driver snapshots seen by the waiting
    loop, one per round, until [timeout] seconds have passed. *)
Definition handle_captcha (d : driver) (captcha_iframe_selector : option string)
    (manual_intervention : bool) (polls : list driver) : bool :=
  if negb (captcha_detected d captcha_iframe_selector) then true
  else if manual_intervention then
    existsb (fun d' => negb (captcha_detected d' captcha_iframe_selector)) polls
  else false.

Definition default_indicators : list string :=
  [ "captcha"; "security check"; "access denied"; "blocked"; "rate limit";
    "too many requests"; "unusual activity"; "suspicious activity";
    "detected unusual traffic" ].

(** [is_blocked]. *)
Definition is_blocked (d : driver) (block_indicators : option (list string)) : bool :=
  let indicators :=
    (default_indicators ++ match block_indicators with
                           | Some custom => custom
                           | None => []
                           end)%list in
  let src := lower (page_source d) in
  if existsb (fun indicator => contains indicator src) indicators then true
  else match response_status d with
       | Ok (Some response_code) =>
           ((response_code =? 403) || (response_code =? 429))%bool
       | _ => false
       end.

(* ===================================================================== *)
(** ** Strings, as the record builder uses them                           *)
(* ===================================================================== *)

(** Whitespace, as [str.strip] and the regular expression class [\s] see it
    on ASCII text. *)
Definition is_space (c : ascii) : bool :=
  let n := nat_of_ascii c in
  (((9 <=? n)%nat && (n <=? 13)%nat) || ((28 <=? n)%nat && (n <=? 32)%nat))%bool.

Definition is_digit (c : ascii) : bool :=
  let n := nat_of_ascii c in ((48 <=? n)%nat && (n <=? 57)%nat)%bool.

Definition digit_value (c : ascii) : nat := (nat_of_ascii c - 48)%nat.

Fixpoint lstrip (s : string) : string :=
  match s with
  | EmptyString => EmptyString
  | String c s' => if is_space c then lstrip s' else s
  end.

Fixpoint rstrip (s : string) : string :=
  match s with
  | EmptyString => EmptyString
  | String c s' =>
      match rstrip s' with
      | EmptyString => if is_space c then EmptyString else String c EmptyString
      | r => String c r
      end
  end.

(** [s.strip()] *)
Definition strip (s : string) : string := rstrip (lstrip s).

(** [s[n:]] *)
Fixpoint drop_string (n : nat) (s : string) : string :=
  match n, s with
  | O, _ => s
  | S n', String _ s' => drop_string n' s'
  | S _, EmptyString => EmptyString
  end.

(** [sep.join(parts)] *)
Fixpoint join (sep : string) (parts : list string) : string :=
  match parts with
  | [] => ""
  | [p] => p
  | p :: rest => p ++ sep ++ join sep rest
  end.

(** [s.replace(old, "", 1)]: the first occurrence of [old] is removed. *)
Fixpoint remove_first (old s : string) : string :=
  if String.prefix old s then drop_string (String.length old) s
  else match s with
       | EmptyString => EmptyString
       | String c s' => String c (remove_first old s')
       end.

(** The longest run of digits at the head of a string, and what follows. *)
Fixpoint span_digits (s : string) : string * string :=
  match s with
  | EmptyString => (EmptyString, EmptyString)
  | String c s' =>
      if is_digit c then let (ds, rest) := span_digits s' in (String c ds, rest)
      else (EmptyString, s)
  end.

(** [re.findall(r'\d+\.\d+|\d+', s)[0]], or [None] when the list is empty. *)
Fixpoint first_number (s : string) : option string :=
  match s with
  | EmptyString => None
  | String c s' =>
      if is_digit c then
        let (ds, rest) := span_digits s' in
        let whole := String c ds in
        match rest with
        | String "."%char rest' =>
            match span_digits rest' with
            | (EmptyString, _) => Some whole
            | (fs, _) => Some (whole ++ "." ++ fs)
            end
        | _ => Some whole
        end
      else first_number s'
  end.

(** The value of a run of decimal digits. *)
Fixpoint digits_value (acc : Z) (s : string) : Z :=
  match s with
  | EmptyString => acc
  | String c s' => digits_value (10 * acc + Z.of_nat (digit_value c)) s'
  end.

(** A Python number: an [int], or a [float] given by the decimal numeral it
    was read from ([PyFloat q] stands for the float nearest to [q]). *)
Inductive pynum : Type :=
| PyInt (n : Z)
| PyFloat (q : Q).

(** [float(s)] for [s] a match of [\d+\.\d+|\d+]. *)
Definition float_of_numeral (s : string) : pynum :=
  let (ds, rest) := span_digits s in
  match rest with
  | String "."%char fs =>
      PyFloat (Qred (Qmake (digits_value (digits_value 0 ds) fs)
                           (Pos.pow 10 (Pos.of_nat (String.length fs)))))
  | _ => PyFloat (Qmake (digits_value 0 ds) 1)
  end.

(** The decimal writing of a number, as [str(n)]. *)
Definition decimal (n : nat) : string := NilEmpty.string_of_uint (Nat.to_uint n).

(** Decimal digits of a number, zero-padded to [width] characters. *)
Definition digit_char (n : nat) : ascii := ascii_of_nat (48 + n mod 10).

Fixpoint zero_padded (width : nat) (n : nat) : string :=
  match width with
  | O => EmptyString
  | S w => zero_padded w (n / 10) ++ String (digit_char n) EmptyString
  end.

(** ** [datetime.strptime(s, "%B %d, %Y")] and [strftime("%Y-%m-%d")] *)

Record date_obj : Type := mkDate { year : nat; month : nat; day : nat }.

Definition month_names : list string :=
  [ "january"; "february"; "march"; "april"; "may"; "june"; "july";
    "august"; "september"; "october"; "november"; "december" ].

(** [%B]: a full month name, whatever the case of its letters. *)
Fixpoint match_month (names : list string) (number : nat) (s : string)
    : option (nat * string) :=
  match names with
  | [] => None
  | name :: rest =>
      if String.prefix name (lower s)
      then Some (number, drop_string (String.length name) s)
      else match_month rest (S number) s
  end.

(** White space in the format: one or more white-space characters. *)
Definition match_spaces (s : string) : option string :=
  match s with
  | String c s' => if is_space c then Some (lstrip s') else None
  | EmptyString => None
  end.

(** The comma of the format. *)
Definition match_comma (s : string) : option string :=
  match s with
  | String ","%char rest => Some rest
  | _ => None
  end.

(** [%d] followed by the comma of the format: the alternatives
    [3[0-1]|[1-2]\d|0[1-9]] take two digits, the alternative [[1-9]] one.
    The last alternative of the pattern, a space and a digit, matches
    nothing that [[1-9]] does not match after the white space before it. *)
Definition match_day_comma (s : string) : option (nat * string) :=
  match s with
  | String a s1 =>
      let two_digits :=
        match s1 with
        | String b rest =>
            let d := (10 * digit_value a + digit_value b)%nat in
            if (is_digit a && is_digit b && (1 <=? d)%nat && (d <=? 31)%nat)%bool
            then match match_comma rest with
                 | Some rest' => Some (d, rest')
                 | None => None
                 end
            else None
        | EmptyString => None
        end in
      match two_digits with
      | Some found => Some found
      | None =>
          if (is_digit a && (1 <=? digit_value a)%nat)%bool
          then match match_comma s1 with
               | Some rest' => Some (digit_value a, rest')
               | None => None
               end
          else None
      end
  | EmptyString => None
  end.

(** [%Y] at the end of the text: exactly four digits and nothing after. *)
Definition match_year_end (s : string) : option nat :=
  match s with
  | String a (String b (String c (String d EmptyString))) =>
      if (is_digit a && is_digit b && is_digit c && is_digit d)%bool
      then Some (1000 * digit_value a + 100 * digit_value b
                 + 10 * digit_value c + digit_value d)%nat
      else None
  | _ => None
  end.

Definition is_leap (y : nat) : bool :=
  (((y mod 4 =? 0)%nat && negb (y mod 100 =? 0)%nat) || (y mod 400 =? 0)%nat)%bool.

Definition days_in_month (y m : nat) : nat :=
  match m with
  | 2 => if is_leap y then 29 else 28
  | 4 | 6 | 9 | 11 => 30
  | _ => 31
  end%nat.

(** [datetime.strptime(s, "%B %d, %Y")]; every failure is a [ValueError]. *)
Definition strptime_BdY (s : string) : Exc date_obj :=
  match match_month month_names 1 s with
  | None => Raise ValueError
  | Some (m, s1) =>
      match match_spaces s1 with
      | None => Raise ValueError
      | Some s2 =>
          match match_day_comma s2 with
          | None => Raise ValueError
          | Some (d, s3) =>
              match match_spaces s3 with
              | None => Raise ValueError
              | Some s4 =>
                  match match_year_end s4 with
                  | None => Raise ValueError
                  | Some y =>
                      if ((1 <=? y)%nat && (d <=? days_in_month y m)%nat)%bool
                      then Ok (mkDate y m d)
                      else Raise ValueError
                  end
              end
          end
      end
  end.

(** [d.strftime("%Y-%m-%d")].  The C library writes the year; glibc puts no
    zero before a year below 1000, and from the year 1000 on the year has its
    four digits. *)
Definition strftime_Ymd (d : date_obj) : string :=
  decimal (year d) ++ "-" ++ zero_padded 2 (month d) ++ "-" ++ zero_padded 2 (day d).

(* ===================================================================== *)
(** ** The parsed document (BeautifulSoup)                                *)
(* ===================================================================== *)

(** A node of the parsed page: a string, or a tag with the value of its
    [class] attribute ([None] when the tag has none; BeautifulSoup keeps the
    value as the list of its white-space separated tokens) and its children. *)
Inductive node : Type :=
| Text (s : string)
| Elem (tag : string) (cls : option (list string)) (children : list node).

(** [n.descendants]: every node below [n], in document order. *)
Fixpoint descendants (n : node) : list node :=
  match n with
  | Text _ => []
  | Elem _ _ children => flat_map (fun c => c :: descendants c) children
  end.

(** [n.get_text(strip=True)]: the stripped, non-empty strings below [n],
    joined without a separator. *)
Definition get_text (n : node) : string :=
  fold_right (fun d acc =>
                match d with
                | Text s => match strip s with
                            | EmptyString => acc
                            | t => t ++ acc
                            end
                | Elem _ _ _ => acc
                end)
             "" (descendants n).

(** How BeautifulSoup applies a function given as [class_]: to each token of
    the attribute, then to the whole value; to [None] when the tag has no
    [class] attribute. *)
Definition class_matches (f : option string -> bool) (cls : option (list string)) : bool :=
  match cls with
  | None => f None
  | Some tokens =>
      (existsb (fun t => f (Some t)) tokens || f (Some (join " " tokens)))%bool
  end.

(** [lambda c: c and any(x in c for x in keywords)], also used for [text=]. *)
Definition any_keyword (keywords : list string) (c : option string) : bool :=
  match c with
  | None => false
  | Some EmptyString => false
  | Some c => existsb (fun x => contains x c) keywords
  end.

(** [n.find_all(names, class_=f)]; [class_f = None] when no [class_] is given. *)
Definition find_all (names : list string) (class_f : option (option string -> bool))
    (n : node) : list node :=
  List.filter (fun d =>
                 match d with
                 | Elem tag cls _ =>
                     (existsb (String.eqb tag) names
                      && match class_f with
                         | Some f => class_matches f cls
                         | None => true
                         end)%bool
                 | Text _ => false
                 end)
              (descendants n).

(** [n.find_all(text=f)]: the strings below [n] that [f] accepts. *)
Definition find_all_text (f : option string -> bool) (n : node) : list string :=
  flat_map (fun d => match d with
                     | Text s => if f (Some s) then [s] else []
                     | Elem _ _ _ => []
                     end)
           (descendants n).

(** The CSS selectors that [parse_reviews] uses: [tag.cls],
    [tag[class*='sub']] and a bare [tag], alone or under an ancestor
    ([outer target], the descendant combinator). *)
Inductive simple_selector : Type :=
| TagClass (tag cls : string)
| TagClassContains (tag sub : string)
| TagOnly (tag : string).

Record selector : Type := mkSelector {
  sel_text : string;
  sel_outer : list simple_selector;
  sel_target : simple_selector
}.

Definition matches_simple (s : simple_selector) (n : node) : bool :=
  match n with
  | Text _ => false
  | Elem tag cls _ =>
      match s with
      | TagClass t c =>
          (String.eqb tag t
           && match cls with
              | Some tokens => existsb (String.eqb c) tokens
              | None => false
              end)%bool
      | TagClassContains t sub =>
          (String.eqb tag t
           && match cls with
              | Some tokens => contains sub (join " " tokens)
              | None => false
              end)%bool
      | TagOnly t => String.eqb tag t
      end
  end.

(** The matches of [outer target] at [n] and below, in document order;
    [outer] lists the ancestors that are still to be met. *)
Fixpoint select_node (outer : list simple_selector) (target : simple_selector)
    (n : node) : list node :=
  match n with
  | Text _ => []
  | Elem _ _ children =>
      let here :=
        match outer with
        | [] => if matches_simple target n then [n] else []
        | _ :: _ => []
        end in
      let outer' :=
        match outer with
        | o :: rest => if matches_simple o n then rest else outer
        | [] => []
        end in
      (here ++ flat_map (select_node outer' target) children)%list
  end.

(** [soup.select(sel)]: the document object itself is never a match. *)
Definition select (soup : node) (sel : selector) : list node :=
  match soup with
  | Text _ => []
  | Elem _ _ children => flat_map (select_node (sel_outer sel) (sel_target sel)) children
  end.

(* ===================================================================== *)
(** ** [BestBuyReviewScraper.parse_reviews]: locating the fragments       *)
(* ===================================================================== *)

(** The loop [for selector in ...: found = query(selector); if found: ...;
    break] of [parse_reviews] and of [load_all_reviews]: the strategies that
    were queried, in order, and the matches and the strategy kept. *)
Fixpoint resolve {S F : Type} (query : S -> list F) (strategies : list S)
    : list S * option (S * list F) :=
  match strategies with
  | [] => ([], None)
  | strategy :: rest =>
      match query strategy with
      | [] => let (consulted, found) := resolve query rest in
              (strategy :: consulted, found)
      | matches => ([strategy], Some (strategy, matches))
      end
  end.

Definition review_selectors : list selector :=
  [ mkSelector "div.review-item" [] (TagClass "div" "review-item");
    mkSelector "div.review-list-item" [] (TagClass "div" "review-list-item");
    mkSelector "div[class*='review']" [] (TagClassContains "div" "review");
    mkSelector "div.customer-review" [] (TagClass "div" "customer-review");
    mkSelector "article.review" [] (TagClass "article" "review");
    mkSelector "div.ratings-reviews div"
               [TagClass "div" "ratings-reviews"] (TagOnly "div") ].

(** The class-based search that [parse_reviews] falls back to. *)
Definition potential_reviews (soup : node) : list node :=
  find_all ["div"; "article"; "section"]
           (Some (any_keyword ["review"; "rating"; "comment"])) soup.

(** The list [all_reviews] of [parse_reviews]. *)
Definition locate_reviews (soup : node) : list node :=
  let all_reviews :=
    match snd (resolve (select soup) review_selectors) with
    | Some (_, reviews) => reviews
    | None => []
    end in
  match all_reviews with
  | [] => potential_reviews soup
  | _ :: _ => all_reviews
  end.

(** The fallback chain of [parse_reviews] read as one priority list. *)
Inductive strategy : Type :=
| Css (sel : selector)
| ClassSearch.

Definition review_strategies : list strategy :=
  (map Css review_selectors ++ [ClassSearch])%list.

Definition run_strategy (soup : node) (s : strategy) : list node :=
  match s with
  | Css sel => select soup sel
  | ClassSearch => potential_reviews soup
  end.

(* ===================================================================== *)
(** ** [BestBuyReviewScraper.parse_reviews]: one fragment                 *)
(* ===================================================================== *)

(** The dictionary appended to [self.reviews]. *)
Record review_record : Type := mkReview {
  review_id : string;
  title : string;
  review_text : string;
  date : string;
  rating : pynum;
  source : string;
  reviewer_name : string
}.

Definition no_title : string := "No Title".

(** [title_elem]: the first tag of the priority list that occurs in the
    fragment gives its first occurrence. *)
Definition title_elem (review : node) : option node :=
  match snd (resolve (fun tag => find_all [tag] None review)
                     ["h3"; "h4"; "h5"; "strong"; "span"; "div"]) with
  | Some (_, title_candidates) => head title_candidates
  | None => None
  end.

Definition extract_title (review : node) : string :=
  match title_elem review with
  | Some elem => get_text elem
  | None => no_title
  end.

(** [elem.name == "p" or "content" in (elem.get("class", []) or [])] *)
Definition is_text_candidate (elem : node) : bool :=
  match elem with
  | Elem tag cls _ =>
      (String.eqb tag "p"
       || match cls with
          | Some tokens => existsb (String.eqb "content") tokens
          | None => false
          end)%bool
  | Text _ => false
  end.

(** [review_text], given the title already extracted. *)
Definition extract_text (review : node) (title : string) : string :=
  let text_candidates := find_all ["p"; "div"; "span"] None review in
  let review_text :=
    fold_left (fun review_text elem =>
                 if is_text_candidate elem then
                   let text := get_text elem in
                   if (String.length review_text <? String.length text)%nat
                   then text else review_text
                 else review_text)
              text_candidates "" in
  match review_text with
  | EmptyString =>
      let review_text := get_text review in
      if contains title review_text
      then strip (remove_first title review_text)
      else review_text
  | _ => review_text
  end.

(** [date_str]: the text of the first date-like element, or the empty
    string. *)
Definition extract_date_str (review : node) : string :=
  match find_all ["time"; "span"; "div"]
                 (Some (any_keyword ["date"; "time"; "when"])) review with
  | date_elem :: _ => get_text date_elem
  | [] => ""
  end.

(** The [try] block that turns [date_str] into [date]. *)
Definition convert_date (date_str : string) : Exc string :=
  if contains "," date_str then
    match strptime_BdY date_str with
    | Ok date_obj => Ok (strftime_Ymd date_obj)
    | Raise e => Raise e
    end
  else if contains "-" date_str then Ok date_str
  else Ok date_str.

(** [date], from [date_str]. *)
Definition normalize_date (date_str : string) : string :=
  match date_str with
  | EmptyString => "Unknown"
  | _ => match convert_date date_str with
         | Ok date => date
         | Raise _ => date_str
         end
  end.

(** The elements counted as stars. *)
Definition star_elements (review : node) : list node :=
  find_all ["span"; "i"; "div"]
           (Some (any_keyword ["star"; "rating"; "filled"])) review.

(** The strings looked at when no star was counted. *)
Definition rating_text_elements (review : node) : list string :=
  find_all_text (any_keyword ["/5"; "out of 5"; "stars"]) review.

(** The loop over [rating_text_elements]: the first string with a number in
    it decides. *)
Fixpoint numeric_rating (texts : list string) : option pynum :=
  match texts with
  | [] => None
  | elem :: rest =>
      match first_number elem with
      | Some number => Some (float_of_numeral number)
      | None => numeric_rating rest
      end
  end.

(** [rating]. *)
Definition extract_rating (review : node) : pynum :=
  let rating :=
    match star_elements review with
    | [] => PyInt 0
    | stars => PyInt (Z.of_nat (length stars))
    end in
  match rating with
  | PyInt 0 =>
      match numeric_rating (rating_text_elements review) with
      | Some r => r
      | None => rating
      end
  | _ => rating
  end.

Definition extract_reviewer_name (review : node) : string :=
  match find_all ["span"; "div"; "a"]
                 (Some (any_keyword ["author"; "reviewer"; "name"; "user"])) review with
  | name_elem :: _ => get_text name_elem
  | [] => "Anonymous"
  end.

(** The body of the [try] in the loop of [parse_reviews], for one fragment:
    the record that is appended, or [None] when nothing is appended. *)
Definition build_record (fresh_id : string) (review : node) : option review_record :=
  let title := extract_title review in
  let review_text := extract_text review title in
  let date := normalize_date (extract_date_str review) in
  let rating := extract_rating review in
  let reviewer_name := extract_reviewer_name review in
  if (negb (String.eqb review_text "") || negb (String.eqb title no_title))%bool
  then Some (mkReview fresh_id title review_text date rating
                      "BestBuy Canada" reviewer_name)
  else None.

(* ===================================================================== *)
(** ** [BestBuyReviewScraper]: the browser                                *)
(* ===================================================================== *)

(** The calls that the scraper makes on the Selenium driver and on the
    file system, over a driver state [D] and page elements [E]. *)
Record browser (D E : Type) : Type := mkBrowser {
  (** [driver.save_screenshot(name)] *)
  save_screenshot : string -> M D unit;
  (** [driver.find_elements(By.CSS_SELECTOR, selector)] *)
  find_elements : string -> M D (list E);
  (** [element.is_displayed()], [element.is_enabled()], [element.click()] *)
  is_displayed : E -> M D bool;
  is_enabled : E -> M D bool;
  click : E -> M D unit;
  (** [driver.execute_script("arguments[0].scrollIntoView(true);", element)] *)
  scroll_into_view : E -> M D unit;
  (** [BeautifulSoup(driver.page_source, 'html.parser')] *)
  read_soup : M D node;
  (** [navigate_to_product] and [select_filter], taken as a whole; the second
      catches every exception itself *)
  navigate_to_product : string -> M D bool;
  select_filter : string -> D -> bool * D;
  (** [pd.DataFrame(reviews).to_csv(filename, index=False)] *)
  to_csv : list review_record -> string -> M D unit
}.
Arguments save_screenshot {D E}.
Arguments find_elements {D E}.
Arguments is_displayed {D E}.
Arguments is_enabled {D E}.
Arguments click {D E}.
Arguments scroll_into_view {D E}.
Arguments read_soup {D E}.
Arguments navigate_to_product {D E}.
Arguments select_filter {D E}.
Arguments to_csv {D E}.

(** [BestBuyReviewScraper.random_sleep] is declared as [random_sleep(self)]:
    a call that passes further arguments raises [TypeError]. *)
Definition random_sleep {S} (extra_args : list Z) : M S unit :=
  match extra_args with
  | [] => ret tt
  | _ :: _ => throw TypeError
  end.

(** The three [break] statements in the [try] block of [load_all_reviews]. *)
Inductive break_reason : Type :=
| ReachedMax        (* [current_reviews >= max_reviews] *)
| NoButton          (* no "show more" button was clicked *)
| NoNewReviews.     (* the click did not add reviews *)

(** Why the loop of [load_all_reviews] was left. *)
Inductive stop_reason : Type :=
| Break (r : break_reason)
| Errored (e : exn) (* the [except Exception] branch *)
| AttemptsUsed      (* [attempts < max_attempts] became false *)
| OutOfFuel.        (* the model, not the program, stopped *)

Record load_report : Type := mkReport {
  attempts_made : nat;
  stopped_by : stop_reason
}.

Section LoadAllReviews.

Context {D E : Type}.
Variable b : browser D E.

Definition load_selectors : list string :=
  [ ".review-item"; ".review-list-item"; "[class*='review']";
    ".customer-review"; ".ratings-reviews" ].

Definition show_more_selectors : list string :=
  [ "button.show-more-button"; "button[class*='more']"; "button[class*='load']";
    "a[class*='more']"; "span[class*='more']"; ".pagination button";
    "button.pagination"; "a.pagination"; "button[class*='next']";
    "a[class*='next']" ].

Definition max_attempts : nat := 5.

(** The loop that looks for [working_selector]. *)
Fixpoint find_working_selector (selectors : list string) : M D (option string) :=
  match selectors with
  | [] => ret None
  | selector :: rest =>
      elements <- find_elements b selector ;;
      match elements with
      | [] => find_working_selector rest
      | _ :: _ => ret (Some selector)
      end
  end.

(** [for element in elements: ...]: the value of [clicked] afterwards. *)
Fixpoint click_first (elements : list E) : M D bool :=
  match elements with
  | [] => ret false
  | element :: rest =>
      displayed <- is_displayed b element ;;
      usable <- (if displayed then is_enabled b element else ret false) ;;
      if usable then
        scroll_into_view b element ;;;
        random_sleep [1; 2] ;;;
        click b element ;;;
        random_sleep [2; 4] ;;;
        ret true
      else click_first rest
  end.

(** [for selector in show_more_selectors: try: ... except: continue]: the
    value of [clicked] afterwards. *)
Fixpoint try_show_more (selectors : list string) : M D bool :=
  match selectors with
  | [] => ret false
  | selector :: rest =>
      clicked <- catch (elements <- find_elements b selector ;;
                        click_first elements)
                       (fun _ => ret false) ;;
      if clicked then ret true else try_show_more rest
  end.

Definition count_reviews (working_selector : option string) : M D nat :=
  match working_selector with
  | Some selector => elements <- find_elements b selector ;; ret (length elements)
  | None => ret O
  end.

(** [max_reviews and current_reviews >= max_reviews] *)
Definition reached_max (max_reviews : option Z) (current_reviews : nat) : bool :=
  match max_reviews with
  | Some 0 => false
  | Some m => m <=? Z.of_nat current_reviews
  | None => false
  end.

(** What follows the search for a button in the [try] block, given
    [clicked] and the count taken before. *)
Definition after_click (working_selector : option string) (current_reviews : nat)
    (clicked : bool) : M D (ctl break_reason) :=
  if negb clicked then ret (Return NoButton)
  else match working_selector with
       | Some selector =>
           elements <- find_elements b selector ;;
           if (length elements <=? current_reviews)%nat
           then ret (Return NoNewReviews)
           else ret Continue
       | None => ret Continue
       end.

(** The [try] block of the loop; [Return r] stands for [break]. *)
Definition attempt (working_selector : option string) (max_reviews : option Z)
    (attempts : nat) : M D (ctl break_reason) :=
  current_reviews <- count_reviews working_selector ;;
  save_screenshot b ("reviews_attempt_" ++ decimal attempts ++ ".png") ;;;
  if reached_max max_reviews current_reviews then ret (Return ReachedMax)
  else
    clicked <- try_show_more show_more_selectors ;;
    after_click working_selector current_reviews clicked.

(** [while attempts < max_attempts: attempts += 1; try: body except
    Exception: break], for the [try] block [body]. *)
Fixpoint attempts_loop (body : nat -> M D (ctl break_reason)) (fuel : nat)
    (attempts : nat) : M D load_report :=
  match fuel with
  | O => ret (mkReport attempts OutOfFuel)
  | S fuel' =>
      if (attempts <? max_attempts)%nat then
        let attempts := (attempts + 1)%nat in
        c <- catch (c <- body attempts ;;
                    match c with
                    | Return reason => ret (Return (Break reason))
                    | Continue => ret Continue
                    end)
                   (fun e => ret (Return (Errored e))) ;;
        match c with
        | Return reason => ret (mkReport attempts reason)
        | Continue => attempts_loop body fuel' attempts
        end
      else ret (mkReport attempts AttemptsUsed)
  end.

Definition show_more_loop (fuel : nat) (working_selector : option string)
    (max_reviews : option Z) (attempts : nat) : M D load_report :=
  attempts_loop (attempt working_selector max_reviews) fuel attempts.

(** [load_all_reviews(max_reviews)], with [fuel] turns of the loop at most. *)
Definition load_all_reviews (fuel : nat) (max_reviews : option Z) : M D load_report :=
  save_screenshot b "before_loading_reviews.png" ;;;
  working_selector <- find_working_selector load_selectors ;;
  report <- show_more_loop fuel working_selector max_reviews 0 ;;
  save_screenshot b "after_loading_reviews.png" ;;;
  ret report.

End LoadAllReviews.

(* ===================================================================== *)
(** ** [BestBuyReviewScraper]: [parse_reviews] and [scrape_product_reviews] *)
(* ===================================================================== *)

(** The scraper object: its driver, [self.reviews], and how many identifiers
    [uuid.uuid4()] has handed out so far. *)
Record scraper (D : Type) : Type := mkScraper {
  the_driver : D;
  reviews : list review_record;
  uuids_drawn : nat
}.
Arguments mkScraper {D}.
Arguments the_driver {D}.
Arguments reviews {D}.
Arguments uuids_drawn {D}.

(** A call on the driver, made by the scraper. *)
Definition on_driver {D A} (m : M D A) : M (scraper D) A :=
  fun s => let (r, d') := m (the_driver s) in
           (r, mkScraper d' (reviews s) (uuids_drawn s)).

(** [self.reviews.append(r)] *)
Definition append_review {D} (r : review_record) : M (scraper D) unit :=
  fun s => (Ok tt, mkScraper (the_driver s) (reviews s ++ [r])%list (uuids_drawn s)).

Definition get_reviews {D} : M (scraper D) (list review_record) :=
  fun s => (Ok (reviews s), s).

Section ParseReviews.

Context {D E : Type}.
Variable b : browser D E.
(** The identifiers that [uuid.uuid4()] returns, in the order of the calls. *)
Variable uuid4 : nat -> string.
(** An exception raised while a fragment is examined, if there is one. *)
Variable glitch : node -> option exn.

(** [str(uuid.uuid4())] *)
Definition draw_uuid : M (scraper D) string :=
  fun s => (Ok (uuid4 (uuids_drawn s)),
            mkScraper (the_driver s) (reviews s) (S (uuids_drawn s))).

(** The [try] block of the loop over [all_reviews]: the append is its last
    statement. *)
Definition parse_one (review : node) : M (scraper D) unit :=
  fresh_id <- draw_uuid ;;
  match glitch review with
  | Some e => throw e
  | None =>
      match build_record fresh_id review with
      | Some r => append_review r
      | None => ret tt
      end
  end.

(** [for review in all_reviews: try: ... except Exception: continue] *)
Fixpoint parse_loop (all_reviews : list node) : M (scraper D) unit :=
  match all_reviews with
  | [] => ret tt
  | review :: rest =>
      catch (parse_one review) (fun _ => ret tt) ;;;
      parse_loop rest
  end.

(** [parse_reviews] *)
Definition parse_reviews : M (scraper D) unit :=
  on_driver (save_screenshot b "before_parsing.png") ;;;
  soup <- on_driver (read_soup b) ;;
  parse_loop (locate_reviews soup).

(** [save_to_csv]: the data frame is the list of the records. *)
Definition save_to_csv (filename : string) : M (scraper D) (option (list review_record)) :=
  rs <- get_reviews ;;
  match rs with
  | [] => ret None
  | _ :: _ =>
      on_driver (to_csv b rs filename) ;;;
      ret (Some rs)
  end.

(** The [try] block of [scrape_product_reviews]. *)
Definition scrape_body (fuel : nat) (product_url filter_option : string)
    (max_reviews : option Z) : M (scraper D) (option (list review_record)) :=
  arrived <- on_driver (navigate_to_product b product_url) ;;
  if negb arrived then ret None
  else
    on_driver (fun d => let (r, d') := select_filter b filter_option d in (Ok r, d')) ;;;
    on_driver (load_all_reviews b fuel max_reviews) ;;;
    parse_reviews ;;;
    save_to_csv "bestbuy_reviews.csv".

(** [scrape_product_reviews]: [try: ... except Exception: return None]. *)
Definition scrape_product_reviews (fuel : nat) (product_url filter_option : string)
    (max_reviews : option Z) : M (scraper D) (option (list review_record)) :=
  catch (scrape_body fuel product_url filter_option max_reviews)
        (fun _ => ret None).

End ParseReviews.

(* ===================================================================== *)
(** ** Statements about the retry wrapper, and sample runs                *)
(* ===================================================================== *)

(** The operation raises a retryable error whenever it is invoked. *)
Definition always_raises {W} (function : W -> Exc result * W)
    (error_types : exn -> bool) : Prop :=
  forall w, exists e w', function w = (Raise e, w') /\ error_types e = true.

(** The delays [w * factor^0, ..., w * factor^(n-1)]. *)
Definition geometric (w factor : Z) (n : nat) : list Z :=
  map (fun i => w * factor ^ Z.of_nat i) (seq 0 n).

(** [error_types=(Exception,)], the default: every exception of [exn]. *)
Definition any_exception (e : exn) : bool := true.

(** The lengths that [time.sleep] sleeps on every platform: from zero to
    [longest_sleep] seconds.  On Windows, before Python 3.11, the length in
    milliseconds is held in 32 bits, which allows [longest_sleep] seconds; the
    other platforms allow more, up to [max_sleep] for the interpreter
    itself. *)
Definition longest_sleep : Z := 4294967.

Definition sleepable (seconds : Z) : Prop := 0 <= seconds <= longest_sleep.

(** An operation that times out on every invocation; the world counts the
    invocations. *)
Definition always_timeout (w : nat) : Exc result * nat :=
  (Raise (OpFailure "TimeoutException"), S w).


(* ===================================================================== *)
(** ** Statements about the proxy pool and the detectors, and samples     *)
(* ===================================================================== *)

(** The cursor points into the pool, or the pool is empty. *)
Definition cursor_in_range (st : pool) : Prop :=
  proxies st = [] \/ (current_proxy_index st < length (proxies st))%nat.

(** An endpoint is healthy when [test_proxies] would keep it. *)
Definition healthy (probe : string -> option Z) (proxy : string) : bool :=
  match test_proxies probe [proxy] 1 with
  | [] => false
  | _ :: _ => true
  end.

Definition candidate_proxies : list string := ["10.0.0.1:8080"; "10.0.0.2:8080"].

(** Every test request succeeds. *)
Definition probe_at_load (proxy : string) : option Z := Some 200.

(** Later the first endpoint refuses connections. *)
Definition probe_later (proxy : string) : option Z :=
  if String.eqb proxy "10.0.0.1:8080" then None else Some 200.

(** The pool after [get_proxy_list] has loaded the candidates. *)
Definition loaded_pool : pool :=
  load_proxies (test_proxies probe_at_load candidate_proxies 20) init_pool.

(** The three page states of the specification. *)
Inductive page_state : Type :=
| Clean
| Blocked
| CaptchaChallenged.

(** The classification of the specification, in its words: "Returns
    CaptchaChallenged if a CAPTCHA marker is present, Blocked if a block
    phrase is present and no CAPTCHA marker, else Clean".  The code has no
    such function; this definition is what C3 compares the detectors with. *)
Definition classify_spec (captcha_marker block_phrase : bool) : page_state :=
  if captcha_marker then CaptchaChallenged
  else if block_phrase then Blocked
  else Clean.

(** A block phrase of [is_blocked] other than "captcha" occurs in the page. *)
Definition has_block_phrase (d : driver) : bool :=
  existsb (fun phrase => contains phrase (lower (page_source d)))
          (tail default_indicators).

(** An "access denied" page that also shows a reCAPTCHA widget. *)
Definition challenge_page : driver :=
  mkDriver
    "<html><body><h1>Access Denied</h1><div class='g-recaptcha'></div></body></html>"
    (fun xpath =>
       if String.eqb xpath "//div[contains(@class, 'g-recaptcha')]"
       then Ok ["div.g-recaptcha"] else Ok [])
    (Ok (Some 403)).

(** A page that holds no block phrase and shows a challenge of another
    kind, which the custom selector [iframe[@id='verify']] finds. *)
Definition custom_challenge_page : driver :=
  mkDriver
    "<html><body><iframe id='verify'></iframe></body></html>"
    (fun xpath =>
       if String.eqb xpath "//iframe[@id='verify']"
       then Ok ["iframe#verify"] else Ok [])
    (Ok (Some 200)).

(** A page without any challenge and without any block phrase. *)
Definition welcome_page : driver :=
  mkDriver "<html><body><h1>Welcome</h1></body></html>" (fun _ => Ok [])
           (Ok (Some 200)).

(** An operation that returns the driver, on that page. *)
Definition captcha_page (w : nat) : Exc result * nat :=
  (Ok (mkResult "driver" (Some (page_source challenge_page))), S w).

(** [self.handle_captcha(result)] when nobody solves the challenge: the
    widget is still there at each of the thirty rounds of the waiting loop. *)
Definition never_solved (r : result) (w : nat) : bool * nat :=
  (handle_captcha challenge_page None true (repeat challenge_page 30), w).

(* ===================================================================== *)
(** ** Statements about the parser, and sample pages                      *)
(* ===================================================================== *)

(** The matches kept by [resolve], the empty list when nothing matched. *)
Definition matches_of {S F : Type} (r : list S * option (S * list F)) : list F :=
  match snd r with
  | Some (_, matches) => matches
  | None => []
  end.

(** A page on which [div.review-item] and [div.review-list-item] match
    nothing, [div[class*='review']] matches three elements and
    [article.review] would match five. *)
Definition user_review (n : string) : node :=
  Elem "div" (Some ["user-review"]) [Elem "p" None [Text ("Review " ++ n)]].

Definition press_review (n : string) : node :=
  Elem "article" (Some ["review"]) [Elem "p" None [Text ("Article " ++ n)]].

Definition scenario_soup : node :=
  Elem "[document]" None
    [Elem "html" None
       [Elem "body" None
          [user_review "1"; user_review "2"; user_review "3";
           press_review "1"; press_review "2"; press_review "3";
           press_review "4"; press_review "5"]]].

(** The rating rule in the words of C6, where only the strings with "/5"
    or "out of 5" are read; to be compared with [extract_rating]. *)
Definition extract_rating_claimed (review : node) : pynum :=
  match star_elements review with
  | [] =>
      match numeric_rating (find_all_text (any_keyword ["/5"; "out of 5"]) review) with
      | Some r => r
      | None => PyInt 0
      end
  | stars => PyInt (Z.of_nat (length stars))
  end.

(** Sample fragments. *)
Definition out_of_five_fragment : node :=
  Elem "div" (Some ["review"]) [Elem "p" None [Text "4.2 out of 5"]].

Definition stars_text_fragment : node :=
  Elem "div" (Some ["review"]) [Elem "p" None [Text "5 stars"]].

Definition four_star_fragment : node :=
  Elem "div" (Some ["review"])
    [Elem "i" (Some ["star"; "filled"]) []; Elem "i" (Some ["star"; "filled"]) [];
     Elem "i" (Some ["star"; "filled"]) []; Elem "i" (Some ["star"; "filled"]) [];
     Elem "p" None [Text "4.2 out of 5"]].

Definition plain_fragment : node :=
  Elem "div" (Some ["review"]) [Elem "p" None [Text "Great picture"]].

(** A fragment without any tag inside, whose only text is the sentinel. *)
Definition noise_fragment : node :=
  Elem "div" (Some ["review"]) [Text " No Title "].


(** [s'] holds the records of [s], unchanged and in the same order, and
    possibly more after them. *)
Definition extends {D} (s s' : scraper D) : Prop :=
  exists added, reviews s' = (reviews s ++ added)%list.

(** The records that the loop of [parse_reviews] appends for [fragments],
    when [drawn] identifiers have been handed out before. *)
Fixpoint built_records (uuid4 : nat -> string) (glitch : node -> option exn)
    (drawn : nat) (fragments : list node) : list review_record :=
  match fragments with
  | [] => []
  | review :: rest =>
      (match glitch review with
       | Some _ => []
       | None => match build_record (uuid4 drawn) review with
                 | Some r => [r]
                 | None => []
                 end
       end ++ built_records uuid4 glitch (S drawn) rest)%list
  end.

(** A browser that shows [scenario_soup], finds no button, and cannot
    write the CSV file. *)
Definition read_only_browser : browser unit string :=
  mkBrowser unit string
    (fun _ => ret tt)
    (fun _ => ret [])
    (fun _ => ret true)
    (fun _ => ret true)
    (fun _ => ret tt)
    (fun _ => ret tt)
    (ret scenario_soup)
    (fun _ => ret true)
    (fun _ d => (false, d))
    (fun _ _ => throw (OpFailure "PermissionError")).

(** A browser with one visible, enabled "show more" button under every
    selector. *)
Definition button_browser : browser unit string :=
  mkBrowser unit string
    (fun _ => ret tt)
    (fun _ => ret ["button"])
    (fun _ => ret true)
    (fun _ => ret true)
    (fun _ => ret tt)
    (fun _ => ret tt)
    (ret scenario_soup)
    (fun _ => ret true)
    (fun _ d => (false, d))
    (fun _ _ => ret tt).

Definition numbered (n : nat) : string := "uuid-" ++ decimal n.

(** The second user review of [scenario_soup] cannot be examined. *)
Definition second_fails (review : node) : option exn :=
  match review with
  | Elem _ _ [Elem _ _ [Text "Review 2"]] => Some (OpFailure "AttributeError")
  | _ => None
  end.

(** Long-form dates, as [strftime("%B %d, %Y")] would print them, and the
    ISO form of the same day. *)
Definition month_titles : list string :=
  [ "January"; "February"; "March"; "April"; "May"; "June"; "July";
    "August"; "September"; "October"; "November"; "December" ].

Definition long_form (y m d : nat) : string :=
  nth (m - 1) month_titles "" ++ " " ++ decimal d ++ ", " ++ zero_padded 4 y.

Definition iso_form (y m d : nat) : string :=
  zero_padded 4 y ++ "-" ++ zero_padded 2 m ++ "-" ++ zero_padded 2 d.

(** Every day number from 1 to 31 of every month of the year [y] is
    normalised as it should: to the ISO form when the day exists, and left
    as it is otherwise. *)
Definition year_normalises (y : nat) : bool :=
  forallb (fun m =>
             forallb (fun d =>
                        String.eqb (normalize_date (long_form y m d))
                                   (if (d <=? days_in_month y m)%nat
                                    then iso_form y m d
                                    else long_form y m d))
                     (seq 1 31))
          (seq 1 12).

(** A pool of three endpoints, read twice, and then replaced by a pool of
    one endpoint. *)
Definition shrunk_pool : pool :=
  load_proxies ["10.0.0.9:3128"]
    (snd (rotation 2 (load_proxies ["10.0.0.1:8080"; "10.0.0.2:8080"; "10.0.0.3:8080"]
                                   init_pool))).

(* ===================================================================== *)
(** ** Further statements about the retry wrapper                         *)
(* ===================================================================== *)

(** How many times [self.handle_captcha] was called. *)
Fixpoint captcha_calls (l : list event) : nat :=
  match l with
  | [] => O
  | EvCaptcha _ :: l' => S (captcha_calls l')
  | _ :: l' => captcha_calls l'
  end.

(** An operation that raises [e] on its first [k] invocations and returns
    [r] from then on; the world counts the invocations. *)
Definition flaky (k : nat) (e : exn) (r : result) (w : nat) : Exc result * nat :=
  (if (w <? k)%nat then Raise e else Ok r, S w).

(** The operation always returns a page that looks like a CAPTCHA page. *)
Definition always_challenged {W} (function : W -> Exc result * W) : Prop :=
  forall w, exists r src w',
    function w = (Ok r, w') /\ res_page_source r = Some src
    /\ looks_like_captcha src = true.

(** [self.handle_captcha] never gets the CAPTCHA solved. *)
Definition never_handles {W} (handler : result -> W -> bool * W) : Prop :=
  forall r w, exists w', handler r w = (false, w').

(** [error_types=(TimeoutException,)] *)
Definition only_timeouts (e : exn) : bool :=
  match e with
  | OpFailure cls => String.eqb cls "TimeoutException"
  | _ => false
  end.

(** A result without [page_source], such as [True] or a list. *)
Definition plain_result : result := mkResult "True" None.

(* ===================================================================== *)
(** ** [ScrapingUtilities]: loading and handing out proxies               *)
(* ===================================================================== *)

(** [add_proxy_to_driver]: [chrome_options] is the list of the arguments
    added so far; an empty address counts as no proxy. *)
Definition add_proxy_to_driver (chrome_options : list string) (proxy : option string)
    : M pool (list string) :=
  proxy <- match proxy with
           | None => get_next_proxy
           | Some _ => ret proxy
           end ;;
  match proxy with
  | Some (String _ _ as address) =>
      ret (chrome_options ++ [String.append "--proxy-server=" address])%list
  | _ => ret chrome_options
  end.

(** What [get_proxy_list] and [test_proxies] get from the network. *)
Record proxy_sources : Type := mkSources {
  (** the answer of the paid service to an API key: the status code and the
      [ip] and [port] of the entries of [data.get('proxies', [])], when the
      body can be decoded *)
  paid_service : string -> Exc (Z * Exc (list (string * string)));
  (** the rows of [table#proxylisttable], each with the text of its cells *)
  free_listing : Exc (list (list string));
  (** the test request through a proxy, as in [test_proxies] *)
  probe : string -> option Z
}.

(** [f"{ip}:{port}"] *)
Definition endpoint (ip port : string) : string := ip ++ ":" ++ port.

(** The rows with more than one cell give [proxy_list]. *)
Definition listed_proxies (rows : list (list string)) : list string :=
  flat_map (fun cells => match cells with
                         | ip :: port :: _ => [endpoint ip port]
                         | _ => []
                         end) rows.

(** The first [try] block of [get_proxy_list]: the list that is stored and
    returned, if there is one. *)
Definition paid_proxies (src : proxy_sources) (api_key : option string)
    : option (list string) :=
  match api_key with
  | Some (String _ _ as key) =>
      match paid_service src key with
      | Ok (status_code, body) =>
          if status_code =? 200 then
            match body with
            | Ok entries => Some (map (fun p => endpoint (fst p) (snd p)) entries)
            | Raise _ => None
            end
          else None
      | Raise _ => None
      end
  | _ => None
  end.

(** [get_proxy_list(api_key, free_proxies)]: the list returned and the new
    state of the object. *)
Definition get_proxy_list (src : proxy_sources) (api_key : option string)
    (free_proxies : bool) (st : pool) : list string * pool :=
  match paid_proxies src api_key with
  | Some listed => (listed, load_proxies listed st)
  | None =>
      if free_proxies then
        match free_listing src with
        | Ok rows =>
            let working_proxies := test_proxies (probe src) (listed_proxies rows) 20 in
            (working_proxies, load_proxies working_proxies st)
        | Raise _ => ([], st)
        end
      else ([], st)
  end.

(** A capital ASCII letter occurs in the text. *)
Definition is_upper (c : ascii) : bool :=
  let n := nat_of_ascii c in ((65 <=? n)%nat && (n <=? 90)%nat)%bool.

Fixpoint has_upper (s : string) : bool :=
  match s with
  | EmptyString => false
  | String c s' => (is_upper c || has_upper s')%bool
  end.

(** [self.handle_captcha(result)] as the wrapper calls it, with the default
    arguments, on the driver that [driver_of] reads off the result; [polls]
    are the snapshots that the waiting loop would see. *)
Definition default_handler {W} (driver_of : result -> driver) (polls : list driver)
    (r : result) (w : W) : bool * W :=
  (handle_captcha (driver_of r) None true polls, w).

(** A driver on a page that mentions CAPTCHAs in its text and has no CAPTCHA
    element; every other lookup fails. *)
Definition article_page : driver :=
  mkDriver "<p>How to solve a CAPTCHA</p>"
           (fun xpath => if String.eqb xpath "//input[@id='captcha']"
                         then Ok [] else Raise (OpFailure "WebDriverException"))
           (Ok (Some 200)).

Definition sample_sources : proxy_sources :=
  mkSources (fun _ => Raise (OpFailure "ConnectionError"))
            (Ok [["10.0.0.1"; "8080"; "US"]; ["header"]; ["10.0.0.2"; "3128"]])
            probe_later.

(* ===================================================================== *)
(** ** [BestBuyReviewScraper]: [navigate_to_product] and [select_filter]  *)
(* ===================================================================== *)

(** The calls that the two methods make on the Selenium driver. *)
Record pilot (D E : Type) : Type := mkPilot {
  (** [driver.get(url)] *)
  driver_get : string -> M D unit;
  (** [WebDriverWait(driver, timeout).until(
      EC.presence_of_element_located((by, value)))] *)
  wait_for : string -> string -> M D E;
  (** [driver.execute_script(script)] and [driver.execute_script(script, element)] *)
  execute_script : string -> option E -> M D unit;
  (** [driver.save_screenshot(name)] *)
  take_screenshot : string -> M D unit;
  (** [driver.find_elements(By.XPATH, xpath)] *)
  find_by_xpath : string -> M D (list E);
  (** [element.click()] and [element.text] *)
  click_element : E -> M D unit;
  element_text : E -> M D string
}.
Arguments driver_get {D E}.
Arguments wait_for {D E}.
Arguments execute_script {D E}.
Arguments take_screenshot {D E}.
Arguments find_by_xpath {D E}.
Arguments click_element {D E}.
Arguments element_text {D E}.

(** [isinstance(e, (TimeoutException, NoSuchElementException))] *)
Definition is_wait_failure (e : exn) : bool :=
  match e with
  | OpFailure cls =>
      (String.eqb cls "TimeoutException" || String.eqb cls "NoSuchElementException")%bool
  | _ => false
  end.

(** [try: m except caught: h]: the other exceptions go on. *)
Definition catch_only {S A} (caught : exn -> bool) (m : M S A) (h : exn -> M S A)
    : M S A :=
  catch m (fun e => if caught e then h e else throw e).

(** The dictionary [filter_mapping] of [select_filter]. *)
Definition filter_mapping : gmap string string :=
  list_to_map [ ("most-helpful", "Most Helpful"); ("newest", "Newest");
                ("highest-rating", "Highest Rating");
                ("lowest-rating", "Lowest Rating");
                ("most-relevant", "Most Relevant") ].

(** [filter_mapping.get(filter_option, "Most Relevant")] *)
Definition filter_text (filter_option : string) : string :=
  default "Most Relevant" (filter_mapping !! filter_option).

Definition filter_selectors : list string :=
  [ "//button[contains(@class, 'dropdown') or contains(@class, 'filter')]";
    "//div[contains(@class, 'dropdown') or contains(@class, 'filter')]";
    "//button[contains(text(), 'Sort')]";
    "//div[contains(text(), 'Sort')]";
    "//select[contains(@class, 'sort') or contains(@class, 'filter')]" ].

Definition filter_option_selectors (filter_text : string) : list string :=
  [ "//div[contains(text(), '" ++ filter_text ++ "')]";
    "//span[contains(text(), '" ++ filter_text ++ "')]";
    "//option[contains(text(), '" ++ filter_text ++ "')]";
    "//li[contains(text(), '" ++ filter_text ++ "')]" ].

Module BestBuyReviewScraper.

Section Methods.

Context {D E : Type}.
Variable p : pilot D E.

(** [navigate_to_product(product_url)] *)
Definition navigate_to_product (product_url : string) : M D bool :=
  driver_get p product_url ;;;
  random_sleep [] ;;;
  loaded <- catch_only is_wait_failure
              (wait_for p "tag name" "body" ;;; ret true)
              (fun _ => ret false) ;;
  if negb loaded then ret false
  else
    execute_script p "window.scrollBy(0, 700);" None ;;;
    random_sleep [] ;;;
    catch_only is_wait_failure
      (reviews_section <-
         wait_for p "xpath"
           "//div[contains(@class, 'customer-reviews') or contains(text(), 'Customer Reviews')]" ;;
       execute_script p "arguments[0].scrollIntoView(true);" (Some reviews_section) ;;;
       random_sleep [] ;;;
       take_screenshot p "reviews_section.png" ;;;
       ret true)
      (fun _ =>
         catch_only is_wait_failure
           (ratings_element <-
              wait_for p "xpath"
                "//section[contains(@class, 'rating') or contains(@class, 'review') or contains(@id, 'review')]" ;;
            execute_script p "arguments[0].scrollIntoView(true);" (Some ratings_element) ;;;
            take_screenshot p "reviews_section_alt.png" ;;;
            random_sleep [] ;;;
            ret true)
           (fun _ =>
              execute_script p "window.scrollTo(0, document.body.scrollHeight * 0.7);"
                             None ;;;
              random_sleep [] ;;;
              take_screenshot p "page_scroll.png" ;;;
              ret true)).

(** The message logged after a click on a filter element reads
    [element.text], once more when it is not empty. *)
Definition read_text (element : E) : M D unit :=
  text <- element_text p element ;;
  match text with
  | EmptyString => ret tt
  | _ => element_text p element ;;; ret tt
  end.

(** [for element in elements: try: element.click(); ...; found = True;
    break except: continue]: whether a click went through. *)
Fixpoint click_any (logs_text : bool) (elements : list E) : M D bool :=
  match elements with
  | [] => ret false
  | element :: rest =>
      clicked <- catch (click_element p element ;;;
                        (if logs_text then read_text element else ret tt) ;;;
                        random_sleep [] ;;;
                        ret true)
                       (fun _ => ret false) ;;
      if clicked then ret true else click_any logs_text rest
  end.

(** [for selector in selectors: try: ... except: continue] *)
Fixpoint click_under (logs_text : bool) (selectors : list string) : M D bool :=
  match selectors with
  | [] => ret false
  | selector :: rest =>
      found <- catch (elements <- find_by_xpath p selector ;;
                      click_any logs_text elements)
                     (fun _ => ret false) ;;
      if found then ret true else click_under logs_text rest
  end.

(** [select_filter(filter_option)] *)
Definition select_filter (filter_option : string) : M D bool :=
  catch
    (found_filter <- click_under true filter_selectors ;;
     if negb found_filter then ret false
     else click_under false (filter_option_selectors (filter_text filter_option)))
    (fun _ => ret false).

End Methods.

End BestBuyReviewScraper.

(* ===================================================================== *)
(** ** [main]: what is worked out from the answers of the user            *)
(* ===================================================================== *)

(** The dictionary [filters] of [main]. *)
Definition filters : gmap string string :=
  list_to_map [ ("1", "most-helpful"); ("2", "newest"); ("3", "highest-rating");
                ("4", "lowest-rating"); ("5", "most-relevant") ].

(** [filters.get(filter_choice, "most-helpful")] *)
Definition filter_option_of (filter_choice : string) : string :=
  default "most-helpful" (filters !! filter_choice).

(** [s.split(sep)] for a separator of one character. *)
Fixpoint split_on (sep : ascii) (s : string) : list string :=
  match s with
  | EmptyString => [EmptyString]
  | String c s' =>
      if Ascii.eqb c sep then EmptyString :: split_on sep s'
      else match split_on sep s' with
           | piece :: rest => String c piece :: rest
           | [] => [String c EmptyString]
           end
  end.

(** [product_url.split('/')[-1]] *)
Definition product_id (product_url : string) : string :=
  List.last (split_on "/"%char product_url) EmptyString.

(** [os.path.join(output_dir, name)] for a relative [name], with the
    separator of POSIX systems. *)
Definition path_join (output_dir name : string) : string :=
  output_dir ++ "/" ++ name.

(** [raw_csv_path] *)
Definition raw_csv_path (product_url : string) : string :=
  path_join "bestbuy_results" ("bestbuy_" ++ product_id product_url ++ "_reviews_raw.csv").

(** The character [c] occurs in [s]. *)
Fixpoint occurs (c : ascii) (s : string) : bool :=
  match s with
  | EmptyString => false
  | String c' s' => (Ascii.eqb c' c || occurs c s')%bool
  end.

(** A driver on which no click goes through: elements are found, and every
    click is intercepted. *)
Definition frozen_page : pilot unit string :=
  mkPilot unit string
    (fun _ => ret tt)
    (fun _ _ => ret "element")
    (fun _ _ => ret tt)
    (fun _ => ret tt)
    (fun _ => ret ["control"])
    (fun _ => throw (OpFailure "ElementClickInterceptedException"))
    (fun _ => ret "Sort").

(** A driver on a page without any review section: the body is there, the
    two waits for a section time out. *)
Definition bare_page : pilot unit string :=
  mkPilot unit string
    (fun _ => ret tt)
    (fun by_ value => if String.eqb value "body" then ret "body"
                      else throw (OpFailure "TimeoutException"))
    (fun _ _ => ret tt)
    (fun _ => ret tt)
    (fun _ => ret [])
    (fun _ => ret tt)
    (fun _ => ret "").

(** A driver on a page that never shows its body. *)
Definition blank_page : pilot unit string :=
  mkPilot unit string
    (fun _ => ret tt)
    (fun _ _ => throw (OpFailure "TimeoutException"))
    (fun _ _ => ret tt)
    (fun _ => ret tt)
    (fun _ => ret [])
    (fun _ => ret tt)
    (fun _ => ret "").


(** No click counts for the first loop of [select_filter]: [element.click()]
    raises, or it goes through and the read of [element.text] for the log
    message raises. *)
Definition click_never_counts {D E} (p : pilot D E) : Prop :=
  forall (element : E) (d : D),
    match click_element p element d with
    | (Ok _, d1) => exists e d2, element_text p element d1 = (Raise e, d2)
    | (Raise _, _) => True
    end.

(** The browser [b] with another [element.click()]. *)
Definition with_click {D E} (b : browser D E) (click' : E -> M D unit) : browser D E :=
  mkBrowser D E (save_screenshot b) (find_elements b) (is_displayed b) (is_enabled b)
            click' (scroll_into_view b) (read_soup b) (navigate_to_product b)
            (select_filter b) (to_csv b).

(** The text candidates of a fragment: the [p], [div] and [span] elements
    that [extract_text] reads. *)
Definition text_candidates (review : node) : list node :=
  List.filter is_text_candidate (find_all ["p"; "div"; "span"] None review).

(** A number that is not negative. *)
Definition not_negative (n : pynum) : Prop :=
  match n with
  | PyInt z => 0 <= z
  | PyFloat q => (0 <= q)%Q
  end.

(** What holds of every record that [parse_reviews] appends. *)
Definition well_formed (r : review_record) : Prop :=
  source r = "BestBuy Canada"
  /\ date r <> ""
  /\ (review_text r <> "" \/ title r <> no_title)
  /\ not_negative (rating r).

(** A fragment with two paragraphs and a [content] block. *)
Definition long_fragment : node :=
  Elem "div" (Some ["review"])
    [Elem "h3" None [Text "Solid"];
     Elem "p" None [Text "Short"];
     Elem "div" (Some ["content"]) [Text "A much longer account"];
     Elem "p" None [Text "Another account, as long"]].


(** A fragment whose heading comes after a [span]. *)
Definition late_heading_fragment : node :=
  Elem "div" (Some ["review"])
    [Elem "span" (Some ["badge"]) [Text "Verified purchase"];
     Elem "h3" None [Text "Solid"];
     Elem "p" None [Text "Works as described"]].

(* ===================================================================== *)
(** * Part II: lemmas and theorems                                        *)
(* ===================================================================== *)

(** ** The retry wrapper *)

Lemma calls_app (l l' : list event) : calls (l ++ l') = (calls l + calls l')%nat.
Proof.
  induction l as [|ev l IH]; simpl; [reflexivity|].
  destruct ev; simpl; rewrite IH; reflexivity.
Qed.

Lemma delays_app (l l' : list event) : delays (l ++ l') = (delays l ++ delays l')%list.
Proof.
  induction l as [|ev l IH]; simpl; [reflexivity|].
  destruct ev; simpl; rewrite IH; reflexivity.
Qed.

Lemma last_call_snoc_call (l : list event) (r : option exn) :
  last_call (l ++ [EvCall r]) = Some r.
Proof.
  induction l as [|ev l IH]; simpl; [reflexivity|].
  rewrite IH. reflexivity.
Qed.

Lemma geometric_succ (w factor : Z) (n : nat) :
  geometric w factor (S n) = w :: geometric (w * factor) factor n.
Proof.
  unfold geometric. simpl seq. rewrite map_cons. f_equal.
  - rewrite Z.pow_0_r. lia.
  - rewrite <- seq_shift, map_map. apply map_ext. intros i.
    rewrite Nat2Z.inj_succ, Z.pow_succ_r by lia. lia.
Qed.

(** A length of [sleepable] passes the two tests of [sleep]. *)
Lemma sleepable_in_range (seconds : Z) :
  sleepable seconds ->
  ((seconds <? - max_sleep) || (max_sleep <? seconds))%bool = false.
Proof.
  unfold sleepable, longest_sleep, max_sleep. intros H.
  apply orb_false_iff. split; apply Z.ltb_ge; lia.
Qed.

Lemma sleepable_not_negative (seconds : Z) :
  sleepable seconds -> ((seconds <? 0) = false).
Proof.
  unfold sleepable. intros H. apply Z.ltb_ge. lia.
Qed.

Lemma sleepable_geometric (w factor : Z) (n : nat) :
  Forall sleepable (geometric w factor (S n)) ->
  sleepable w /\ Forall sleepable (geometric (w * factor) factor n).
Proof.
  rewrite geometric_succ. intros H. inversion H; subst. split; assumption.
Qed.

Section RetryFacts.

Context {W : Type}.
Variable function : W -> Exc result * W.
Variable handle_captcha : result -> W -> bool * W.
Variables max_retries backoff_factor : Z.
Variable error_types : exn -> bool.
Variable retry_on_captcha : bool.


(** One turn of the loop when the invocation raises a retryable error. *)
Lemma iteration_raises (s : rstate W) (e : exn) (w' : W) :
  function (world s) = (Raise e, w') ->
  error_types e = true ->
  ((max_retries <? retries s + 1) = false -> sleepable (wait_time s)) ->
  iteration function handle_captcha max_retries backoff_factor error_types
            retry_on_captcha s =
    if max_retries <? retries s + 1
    then (Raise e, mkRState (retries s + 1) (wait_time s) w'
                            (log s ++ [EvCall (Some e)]))
    else (Ok Continue, mkRState (retries s + 1) (wait_time s * backoff_factor) w'
                                ((log s ++ [EvCall (Some e)]) ++ [EvSleep (wait_time s)])).
Proof.
  intros Hf He Hw.
  unfold iteration, catch, try_body, bind, call_function.
  rewrite Hf. simpl. rewrite He.
  unfold handler, bind, get_retries, set_retries, get_wait_time, set_wait_time,
    sleep, throw, emit, ret. simpl.
  destruct (max_retries <? retries s + 1); [reflexivity|]. cbn.
  rewrite (sleepable_in_range _ (Hw eq_refl)), (sleepable_not_negative _ (Hw eq_refl)).
  reflexivity.
Qed.

Lemma failing_run (n : nat) :
  always_raises function error_types ->
  forall s : rstate W,
    retries s = max_retries - Z.of_nat n ->
    Forall sleepable (geometric (wait_time s) backoff_factor n) ->
    exists e s',
      (forall fuel, (S n <= fuel)%nat -> while_loop function handle_captcha max_retries backoff_factor error_types
                    retry_on_captcha fuel s = Some (Raise e, s'))
      /\ calls (log s') = (calls (log s) + S n)%nat
      /\ delays (log s') = (delays (log s) ++ geometric (wait_time s) backoff_factor n)%list
      /\ last_call (log s') = Some (Some e)
      /\ error_types e = true.
Proof.
  intros Hfail. induction n as [|n IH]; intros s Hr Hw.
  - destruct (Hfail (world s)) as (e & w' & Hf & He).
    assert (Hlast : (max_retries <? retries s + 1) = true) by (apply Z.ltb_lt; lia).
    exists e. eexists. split; [|split; [|split; [|split]]].
    + intros fuel Hfuel. destruct fuel as [|fuel]; [lia|]. simpl.
      replace (retries s <=? max_retries) with true by (symmetry; apply Z.leb_le; lia).
      rewrite (iteration_raises s e w' Hf He)
        by (rewrite Hlast; discriminate).
      rewrite Hlast. reflexivity.
    + simpl. rewrite calls_app. simpl. lia.
    + simpl. rewrite delays_app. simpl. reflexivity.
    + simpl. apply last_call_snoc_call.
    + exact He.
  - destruct (Hfail (world s)) as (e & w' & Hf & He).
    apply sleepable_geometric in Hw as [Hw Hrest].
    set (s1 := mkRState (retries s + 1) (wait_time s * backoff_factor) w'
                        ((log s ++ [EvCall (Some e)]) ++ [EvSleep (wait_time s)])).
    destruct (IH s1) as (e' & s' & Hrun & Hcalls & Hdelays & Hlast & He').
    { simpl. rewrite Hr. lia. }
    { exact Hrest. }
    exists e', s'. split; [|split; [|split; [|split]]].
    + intros fuel Hfuel. destruct fuel as [|fuel]; [lia|]. simpl.
      replace (retries s <=? max_retries) with true by (symmetry; apply Z.leb_le; lia).
      rewrite (iteration_raises s e w' Hf He (fun _ => Hw)).
      replace (max_retries <? retries s + 1) with false by (symmetry; apply Z.ltb_ge; lia).
      apply Hrun. lia.
    + rewrite Hcalls. simpl. rewrite !calls_app. simpl. lia.
    + rewrite Hdelays. simpl. rewrite !delays_app. simpl.
      rewrite geometric_succ, app_nil_r, <- app_assoc. reflexivity.
    + exact Hlast.
    + exact He'.
Qed.

End RetryFacts.

(** C2 (as amended).  With [max_retries = N >= 0] and delays that
    [time.sleep] takes (the [N] delays [initial_wait * backoff_factor^i], each
    from zero to [longest_sleep] seconds), an operation that raises a
    retryable error on every invocation is invoked exactly [N + 1] times,
    once and then [N] retries, and the wrapper then raises the error of the
    last invocation to its caller.  The result does not depend on the fuel
    once there is enough of it. *)
Theorem retry_invokes_max_retries_plus_one {W : Type}
    (function : W -> Exc result * W) (handle_captcha : result -> W -> bool * W)
    (max_retries backoff_factor initial_wait : Z) (error_types : exn -> bool)
    (retry_on_captcha : bool) (w : W) :
  always_raises function error_types ->
  0 <= max_retries ->
  Forall sleepable (geometric initial_wait backoff_factor (Z.to_nat max_retries)) ->
  exists e s',
    (forall fuel, (Z.to_nat max_retries + 1 <= fuel)%nat ->
       wrapper function handle_captcha max_retries backoff_factor initial_wait
               error_types retry_on_captcha fuel w = Some (Raise e, s'))
    /\ calls (log s') = (Z.to_nat max_retries + 1)%nat
    /\ last_call (log s') = Some (Some e)
    /\ error_types e = true.
Proof.
  intros Hfail Hn Hw.
  destruct (failing_run function handle_captcha max_retries backoff_factor
              error_types retry_on_captcha (Z.to_nat max_retries) Hfail
              (mkRState 0 initial_wait w []))
    as (e & s' & Hrun & Hcalls & _ & Hlast & He).
  { simpl. lia. }
  { exact Hw. }
  exists e, s'. split; [|split; [|split]].
  - intros fuel Hfuel. unfold wrapper. apply Hrun. lia.
  - rewrite Hcalls. simpl. lia.
  - exact Hlast.
  - exact He.
Qed.

Lemma retry_invokes_max_retries_plus_one_witness :
  exists e s',
    (forall fuel, (Z.to_nat 3 + 1 <= fuel)%nat ->
       wrapper always_timeout never_solved 3 2 1 any_exception true fuel 0%nat
       = Some (Raise e, s'))
    /\ calls (log s') = (Z.to_nat 3 + 1)%nat
    /\ last_call (log s') = Some (Some e)
    /\ any_exception e = true.
Proof.
  apply (retry_invokes_max_retries_plus_one always_timeout never_solved 3 2 1
           any_exception true 0%nat).
  - intros w. exists (OpFailure "TimeoutException"), (S w). split; reflexivity.
  - lia.
  - change (geometric 1 2 (Z.to_nat 3)) with [1; 2; 4].
    repeat (constructor; [unfold sleepable, longest_sleep; lia|]).
    constructor.
Defined.

(** C2, as stated, fails: with the default [max_retries = 3] an operation
    that always times out is invoked four times, not three. *)
Lemma retry_invocations_counterexample :
  always_raises always_timeout any_exception
  /\ exists s',
       wrapper always_timeout never_solved 3 2 1 any_exception true 5 0%nat
       = Some (Raise (OpFailure "TimeoutException"), s')
       /\ calls (log s') = 4%nat
       /\ calls (log s') <> Z.to_nat 3.
Proof.
  split.
  - intros w. exists (OpFailure "TimeoutException"), (S w). split; reflexivity.
  - eexists. split; [vm_compute; reflexivity|]. split; [reflexivity|].
    vm_compute. discriminate.
Qed.

(** On the path through [except], the delays follow the formula
    [initial_wait * backoff_factor^(i-1)]. *)
Lemma backoff_after_exceptions {W : Type}
    (function : W -> Exc result * W) (handle_captcha : result -> W -> bool * W)
    (max_retries backoff_factor initial_wait : Z) (error_types : exn -> bool)
    (retry_on_captcha : bool) (w : W) :
  always_raises function error_types ->
  0 <= max_retries ->
  Forall sleepable (geometric initial_wait backoff_factor (Z.to_nat max_retries)) ->
  exists e s',
    wrapper function handle_captcha max_retries backoff_factor initial_wait
            error_types retry_on_captcha (Z.to_nat max_retries + 1) w
    = Some (Raise e, s')
    /\ delays (log s') = geometric initial_wait backoff_factor (Z.to_nat max_retries).
Proof.
  intros Hfail Hn Hw.
  destruct (failing_run function handle_captcha max_retries backoff_factor
              error_types retry_on_captcha (Z.to_nat max_retries) Hfail
              (mkRState 0 initial_wait w []))
    as (e & s' & Hrun & _ & Hdelays & _).
  { simpl. lia. }
  { exact Hw. }
  exists e, s'. split.
  - unfold wrapper. apply Hrun. lia.
  - exact Hdelays.
Qed.

Lemma geometric_nth (n : nat) :
  forall (w factor : Z) (i : nat),
    (i < n)%nat -> nth i (geometric w factor n) 0 = w * factor ^ Z.of_nat i.
Proof.
  induction n as [|n IH]; intros w factor i Hi; [lia|].
  rewrite geometric_succ. destruct i as [|i]; simpl nth.
  - rewrite Z.pow_0_r. lia.
  - rewrite IH by lia. rewrite Nat2Z.inj_succ, Z.pow_succ_r by lia. lia.
Qed.

(** The delays of the formula never decrease when the factor is at least 1
    and the first delay is not negative. *)
Lemma geometric_monotone (w factor : Z) (n i : nat) :
  0 <= w -> 1 <= factor -> (S i < n)%nat ->
  nth i (geometric w factor n) 0 <= nth (S i) (geometric w factor n) 0.
Proof.
  intros Hw Hf Hi. rewrite !geometric_nth by lia.
  rewrite Nat2Z.inj_succ, Z.pow_succ_r by lia.
  assert (0 <= factor ^ Z.of_nat i) by (apply Z.pow_nonneg; lia).
  nia.
Qed.

(** [time.sleep] refuses a negative length: with a negative [initial_wait]
    the first retry is never made. *)
Lemma negative_wait_stops_retrying :
  exists s',
    wrapper always_timeout never_solved 3 2 (-1) any_exception true 5 0%nat
    = Some (Raise ValueError, s')
    /\ calls (log s') = 1%nat.
Proof.
  eexists. split; [vm_compute; reflexivity|reflexivity].
Qed.

(** [time.sleep] refuses a length beyond [max_sleep] as well: with
    [initial_wait = 10^10] the sleep of the [except] clause raises
    [OverflowError], which leaves the wrapper after one invocation.  On the
    CAPTCHA path the sleep of the [try] block raises first; the [except]
    clause catches that and its own sleep raises again, after one invocation
    too. *)
Lemma long_wait_stops_retrying :
  (exists s',
     wrapper always_timeout never_solved 3 2 10000000000 any_exception true 5 0%nat
     = Some (Raise OverflowError, s')
     /\ calls (log s') = 1%nat /\ delays (log s') = [])
  /\ (exists s',
        wrapper captcha_page never_solved 3 2 10000000000 any_exception true 5 0%nat
        = Some (Raise OverflowError, s')
        /\ calls (log s') = 1%nat /\ delays (log s') = [] /\ retries s' = 2).
Proof.
  split; eexists; (split; [vm_compute; reflexivity|]); repeat split; reflexivity.
Qed.

(** C4 at the failing input: with the defaults ([max_retries = 3],
    [backoff_factor = 2], [initial_wait = 1]) and a CAPTCHA that is never
    solved, the wait is multiplied before it is slept: the delays are
    2, 4, 8, 16 where the formula gives 1, 2, 4, 8, and the first retry
    waits [initial_wait * backoff_factor], not [initial_wait]. *)
Theorem captcha_retry_skips_initial_wait :
  exists s',
    wrapper captcha_page never_solved 3 2 1 any_exception true 5 0%nat
    = Some (Raise (RetriesExhausted 3), s')
    /\ delays (log s') = [2; 4; 8; 16]
    /\ geometric 1 2 4 = [1; 2; 4; 8]
    /\ head (delays (log s')) <> Some (1 * 2 ^ 0).
Proof.
  eexists. split; [vm_compute; reflexivity|].
  split; [reflexivity|]. split; [reflexivity|].
  vm_compute. discriminate.
Qed.

(** ** The proxy pool *)

Lemma get_next_proxy_none (st : pool) :
  fst (get_next_proxy st) = Ok None <-> proxies st = [].
Proof.
  unfold get_next_proxy. destruct (proxies st) as [|p ps] eqn:Hp.
  - simpl. split; reflexivity.
  - destruct ((p :: ps) !! current_proxy_index st); simpl;
      split; intros H; discriminate.
Qed.

Lemma get_next_proxy_step (st : pool) :
  (current_proxy_index st < length (proxies st))%nat ->
  get_next_proxy st =
    (Ok (proxies st !! current_proxy_index st),
     mkPool (proxies st)
            ((current_proxy_index st + 1) mod length (proxies st))%nat).
Proof.
  intros Hlt. unfold get_next_proxy.
  destruct (proxies st) as [|p ps] eqn:Hp; [simpl in Hlt; lia|].
  destruct (lookup_lt_is_Some_2 (p :: ps) (current_proxy_index st) Hlt) as [x Hx].
  rewrite Hx. reflexivity.
Qed.

Lemma rotation_round_robin (k : nat) :
  forall st : pool,
    (current_proxy_index st < length (proxies st))%nat ->
    rotation k st =
      (Ok (map (fun j => proxies st !! ((current_proxy_index st + j)
                                         mod length (proxies st))%nat)
               (seq 0 k)),
       mkPool (proxies st)
              ((current_proxy_index st + k) mod length (proxies st))%nat).
Proof.
  induction k as [|k IH]; intros st Hlt.
  - simpl. unfold ret. rewrite Nat.add_0_r, Nat.mod_small by exact Hlt.
    destruct st; reflexivity.
  - simpl rotation. unfold bind at 1. rewrite (get_next_proxy_step st Hlt).
    unfold bind. rewrite IH; simpl proxies; simpl current_proxy_index.
    2:{ apply Nat.mod_upper_bound. lia. }
    unfold ret. f_equal.
    + f_equal. simpl seq. rewrite map_cons. f_equal.
      * rewrite Nat.add_0_r, Nat.mod_small by exact Hlt. reflexivity.
      * rewrite <- seq_shift, map_map. apply map_ext. intros j.
        rewrite Nat.Div0.add_mod_idemp_l. do 2 f_equal. lia.
    + f_equal. rewrite Nat.Div0.add_mod_idemp_l. f_equal. lia.
Qed.

(** [get_proxy_list] replaces the pool and leaves the cursor where it was:
    after a shorter pool is loaded the cursor may point outside of it. *)
Lemma stale_cursor_raises :
  proxies shrunk_pool = ["10.0.0.9:3128"]
  /\ current_proxy_index shrunk_pool = 2%nat
  /\ fst (get_next_proxy shrunk_pool) = Raise IndexError.
Proof.
  repeat split; reflexivity.
Qed.

(** C5 (as amended).  [get_next_proxy] returns [None] exactly when the pool
    is empty; with the cursor inside a non-empty pool it returns the endpoint
    at the cursor and moves the cursor one place on, wrapping around; [k]
    calls in a row return the endpoints at the cursor, the cursor plus one,
    ... modulo the size of the pool, so that every endpoint of the pool,
    whatever its health, comes back once in each cycle. *)
Theorem get_next_proxy_round_robin (st : pool) :
  cursor_in_range st ->
  (fst (get_next_proxy st) = Ok None <-> proxies st = [])
  /\ (proxies st <> [] ->
      get_next_proxy st =
        (Ok (proxies st !! current_proxy_index st),
         mkPool (proxies st)
                ((current_proxy_index st + 1) mod length (proxies st))%nat)
      /\ is_Some (proxies st !! current_proxy_index st)
      /\ forall k,
           rotation k st =
             (Ok (map (fun j => proxies st !! ((current_proxy_index st + j)
                                                mod length (proxies st))%nat)
                      (seq 0 k)),
              mkPool (proxies st)
                     ((current_proxy_index st + k) mod length (proxies st))%nat)).
Proof.
  intros Hrange. split; [apply get_next_proxy_none|].
  intros Hne. destruct Hrange as [Hempty|Hlt]; [contradiction|].
  split; [apply get_next_proxy_step; exact Hlt|].
  split; [apply lookup_lt_is_Some_2; exact Hlt|].
  intros k. apply rotation_round_robin. exact Hlt.
Qed.

Lemma get_next_proxy_round_robin_witness :
  cursor_in_range loaded_pool
  /\ proxies loaded_pool <> []
  /\ rotation 3 loaded_pool =
       (Ok [Some "10.0.0.1:8080"; Some "10.0.0.2:8080"; Some "10.0.0.1:8080"],
        mkPool candidate_proxies 1).
Proof.
  assert (Hrange : cursor_in_range loaded_pool) by (right; vm_compute; lia).
  assert (Hne : proxies loaded_pool <> []) by (vm_compute; discriminate).
  split; [exact Hrange|]. split; [exact Hne|].
  destruct (get_next_proxy_round_robin loaded_pool Hrange) as [_ Hrot].
  destruct (Hrot Hne) as (_ & _ & Hk).
  rewrite (Hk 3%nat). reflexivity.
Defined.

(** C5, as stated, fails: the pool was loaded while both endpoints answered;
    later the first one no longer does, and the rotation hands it out all the
    same, twice in three calls. *)
Lemma proxy_rotation_counterexample :
  proxies loaded_pool = candidate_proxies
  /\ healthy probe_later "10.0.0.1:8080" = false
  /\ fst (get_next_proxy loaded_pool) = Ok (Some "10.0.0.1:8080")
  /\ fst (rotation 3 loaded_pool) =
       Ok [Some "10.0.0.1:8080"; Some "10.0.0.2:8080"; Some "10.0.0.1:8080"].
Proof.
  repeat split; reflexivity.
Qed.

(** ** Substrings *)

Lemma prefix_app (sub s : string) :
  String.prefix sub s = true <-> exists post, s = sub ++ post.
Proof.
  revert s. induction sub as [|c sub IH]; intros s.
  - split; [intros _; exists s; reflexivity|intros _; destruct s; reflexivity].
  - destruct s as [|c' s]; simpl.
    + split; [discriminate|intros [post H]; discriminate].
    + destruct (Ascii.ascii_dec c c') as [->|Hne].
      * rewrite IH. split; intros [post H]; exists post.
        -- rewrite H. reflexivity.
        -- injection H as H. exact H.
      * split; [discriminate|]. intros [post H]. injection H as Hc _.
        congruence.
Qed.

Lemma contains_cons (sub : string) (c : ascii) (s : string) :
  contains sub (String c s) =
    if String.prefix sub (String c s) then true else contains sub s.
Proof. reflexivity. Qed.

Lemma contains_app (sub s : string) :
  contains sub s = true <-> exists pre post, s = pre ++ sub ++ post.
Proof.
  induction s as [|c s IH].
  - simpl. destruct sub as [|c' sub]; simpl.
    + split; [intros _; exists "", ""; reflexivity|reflexivity].
    + split; [discriminate|]. intros (pre & post & H).
      destruct pre; discriminate.
  - rewrite contains_cons. destruct (String.prefix sub (String c s)) eqn:Hp.
    + split; [intros _|reflexivity].
      apply prefix_app in Hp as [post Hpost]. exists "", post. exact Hpost.
    + rewrite IH. split.
      * intros (pre & post & H). exists (String c pre), post.
        rewrite H. reflexivity.
      * intros (pre & post & H). destruct pre as [|c' pre].
        -- simpl in H. assert (String.prefix sub (String c s) = true) as Hp'
             by (apply prefix_app; exists post; exact H).
           congruence.
        -- injection H as _ H. exists pre, post. exact H.
Qed.

Lemma string_app_assoc (a b c : string) : (a ++ b) ++ c = a ++ (b ++ c).
Proof.
  induction a as [|x a IH]; [reflexivity|].
  change (String x ((a ++ b) ++ c) = String x (a ++ (b ++ c))).
  rewrite IH. reflexivity.
Qed.

Lemma contains_trans (a b s : string) :
  contains a b = true -> contains b s = true -> contains a s = true.
Proof.
  intros Hab Hbs.
  apply contains_app in Hab as (p1 & q1 & ->).
  apply contains_app in Hbs as (p2 & q2 & ->).
  apply contains_app. exists (p2 ++ p1), (q1 ++ q2).
  rewrite !string_app_assoc. reflexivity.
Qed.

(** ** CAPTCHA and block detection *)

Lemma captcha_detected_iff (d : driver) (custom : option string) :
  captcha_detected d custom = true <->
  exists indicator e es,
    In indicator (captcha_xpaths custom)
    /\ find_elements_xpath d indicator = Ok (e :: es).
Proof.
  unfold captcha_detected. rewrite existsb_exists. split.
  - intros (x & Hin & Hx).
    destruct (find_elements_xpath d x) as [[|e es]|] eqn:Hf; try discriminate.
    exists x, e, es. split; [exact Hin|exact Hf].
  - intros (x & e & es & Hin & Hf). exists x. split; [exact Hin|].
    rewrite Hf. reflexivity.
Qed.

Lemma looks_like_captcha_contains (src : string) :
  looks_like_captcha src = true -> contains "captcha" (lower src) = true.
Proof.
  unfold looks_like_captcha. rewrite existsb_exists.
  intros (x & Hin & Hx). simpl in Hin.
  destruct Hin as [<-|[<-|[<-|[]]]].
  - apply (contains_trans _ "recaptcha"); [reflexivity|exact Hx].
  - apply (contains_trans _ "hcaptcha"); [reflexivity|exact Hx].
  - exact Hx.
Qed.

(** C3 (as amended).  The code has two separate yes/no checks and nothing
    that ranks them.  On every page whose source holds a CAPTCHA marker
    (recaptcha, hcaptcha or captcha, in any letter case), with or without a
    further block phrase and whether or not a CAPTCHA element is found,
    [is_blocked] answers [True], "captcha" being the first of its own block
    phrases.  The detection of [handle_captcha] answers yes exactly when one
    of its indicator elements is found.  The two answers are independent:
    [is_blocked] does not look at the elements, the detection looks neither
    at the page source nor at the status, and each of the four pairs of
    answers occurs. *)
Theorem captcha_page_is_reported_blocked (d : driver)
    (captcha_iframe_selector : option string) (block_indicators : option (list string)) :
  (looks_like_captcha (page_source d) = true ->
   is_blocked d block_indicators = true)
  /\ (captcha_detected d captcha_iframe_selector = true <->
      exists indicator e es,
        In indicator (captcha_xpaths captcha_iframe_selector)
        /\ find_elements_xpath d indicator = Ok (e :: es))
  /\ (forall find_elements',
        is_blocked (mkDriver (page_source d) find_elements' (response_status d))
                   block_indicators
        = is_blocked d block_indicators)
  /\ (forall page_source' response_status',
        captcha_detected (mkDriver page_source' (find_elements_xpath d) response_status')
                         captcha_iframe_selector
        = captcha_detected d captcha_iframe_selector)
  /\ (forall detected blocked : bool,
        exists d' selector,
          captcha_detected d' selector = detected
          /\ is_blocked d' None = blocked).
Proof.
  split; [|split; [|split; [|split]]].
  - intros Hmark. unfold is_blocked. apply looks_like_captcha_contains in Hmark.
    unfold default_indicators. simpl existsb. rewrite Hmark. reflexivity.
  - apply captcha_detected_iff.
  - intros find_elements'. reflexivity.
  - intros page_source' response_status'. reflexivity.
  - intros [|] [|].
    + exists challenge_page, None. split; reflexivity.
    + exists custom_challenge_page, (Some "iframe[@id='verify']"). split; reflexivity.
    + exists article_page, None. split; reflexivity.
    + exists welcome_page, None. split; reflexivity.
Qed.

Lemma captcha_page_is_reported_blocked_witness :
  looks_like_captcha (page_source article_page) = true
  /\ captcha_detected article_page None = false
  /\ is_blocked article_page None = true
  /\ is_blocked challenge_page None = true.
Proof.
  destruct (captcha_page_is_reported_blocked article_page None None) as [Harticle _].
  destruct (captcha_page_is_reported_blocked challenge_page None None) as [Hchallenge _].
  split; [reflexivity|]. split; [reflexivity|].
  split; [apply Harticle; reflexivity|apply Hchallenge; reflexivity].
Defined.

(** C3, as stated, fails: on a page with a reCAPTCHA widget and the phrase
    "access denied" the specification's classification is CaptchaChallenged,
    never Blocked, while [is_blocked] reports the page as blocked. *)
Lemma classification_counterexample :
  captcha_detected challenge_page None = true
  /\ has_block_phrase challenge_page = true
  /\ classify_spec (captcha_detected challenge_page None)
                   (has_block_phrase challenge_page) = CaptchaChallenged
  /\ classify_spec (captcha_detected challenge_page None)
                   (has_block_phrase challenge_page) <> Blocked
  /\ is_blocked challenge_page None = true
  /\ is_blocked (mkDriver (page_source challenge_page)
                          (find_elements_xpath challenge_page)
                          (Ok None)) None = true.
Proof.
  repeat split; try reflexivity. vm_compute. discriminate.
Qed.

(** ** The selector fallback *)

Lemma resolve_none {S F : Type} (query : S -> list F) (strategies : list S) :
  (forall s, In s strategies -> query s = []) ->
  resolve query strategies = (strategies, None).
Proof.
  induction strategies as [|s rest IH]; intros Hall; [reflexivity|].
  simpl. rewrite (Hall s) by (left; reflexivity).
  rewrite IH by (intros s' Hs'; apply Hall; right; exact Hs').
  reflexivity.
Qed.

Lemma resolve_first {S F : Type} (query : S -> list F) (before : list S) (k : S)
    (after : list S) :
  (forall s, In s before -> query s = []) ->
  query k <> [] ->
  resolve query (before ++ k :: after)%list = ((before ++ [k])%list, Some (k, query k)).
Proof.
  induction before as [|s before IH]; intros Hbefore Hk.
  - simpl. destruct (query k) as [|m ms]; [contradiction|reflexivity].
  - simpl. rewrite (Hbefore s) by (left; reflexivity).
    rewrite IH; [reflexivity| |exact Hk].
    intros s' Hs'. apply Hbefore. right. exact Hs'.
Qed.

(** Every run of [resolve] is of one of the two kinds above. *)
Lemma resolve_cases {S F : Type} (query : S -> list F) (strategies : list S) :
  (forall s, In s strategies -> query s = [])
  \/ exists before k after,
       strategies = (before ++ k :: after)%list
       /\ (forall s, In s before -> query s = [])
       /\ query k <> [].
Proof.
  induction strategies as [|s rest IH]; [left; intros s []|].
  destruct (query s) as [|m ms] eqn:Hs.
  - destruct IH as [Hall|(before & k & after & -> & Hbefore & Hk)].
    + left. intros s' [<-|Hs']; [exact Hs|apply Hall; exact Hs'].
    + right. exists (s :: before), k, after. split; [reflexivity|].
      split; [|exact Hk]. intros s' [<-|Hs']; [exact Hs|apply Hbefore; exact Hs'].
  - right. exists [], s, rest. split; [reflexivity|].
    split; [intros s' []|]. rewrite Hs. discriminate.
Qed.

(** The two steps of [parse_reviews], the CSS selectors and then the
    class-based search, are one run of the fallback over seven strategies. *)
Lemma locate_reviews_resolve (soup : node) :
  locate_reviews soup = matches_of (resolve (run_strategy soup) review_strategies).
Proof.
  unfold locate_reviews, review_strategies, matches_of.
  assert (Hmap : forall (sels : list selector) (tail : list strategy),
             snd (resolve (run_strategy soup) (map Css sels ++ tail)%list) =
             match snd (resolve (select soup) sels) with
             | Some (sel, found) => Some (Css sel, found)
             | None => snd (resolve (run_strategy soup) tail)
             end).
  { intros sels tail. induction sels as [|sel sels IH]; [reflexivity|].
    simpl. destruct (select soup sel) as [|m ms] eqn:Hsel.
    - destruct (resolve (run_strategy soup) (map Css sels ++ tail)%list) as [c f].
      destruct (resolve (select soup) sels) as [c' f']. simpl in *. exact IH.
    - reflexivity. }
  rewrite Hmap.
  destruct (snd (resolve (select soup) review_selectors)) as [[sel found]|] eqn:Hr.
  - destruct found as [|m ms]; [|reflexivity].
    exfalso. clear Hmap. revert Hr. generalize review_selectors.
    intros sels. induction sels as [|s sels IH]; [discriminate|].
    simpl. destruct (select soup s) eqn:Hs.
    + destruct (resolve (select soup) sels) as [c f]. simpl in *. exact IH.
    + simpl. intros H. injection H as _ H. discriminate.
  - simpl. destruct (potential_reviews soup); reflexivity.
Qed.

(** The search for [working_selector] in [load_all_reviews] is the same
    fallback, when looking up elements neither fails nor changes the page. *)
Lemma find_working_selector_resolve {D E : Type} (b : browser D E)
    (query : string -> list E) (selectors : list string) (d : D) :
  (forall selector d', find_elements b selector d' = (Ok (query selector), d')) ->
  find_working_selector b selectors d =
    (Ok (option_map fst (snd (resolve query selectors))), d).
Proof.
  intros Hpure. induction selectors as [|sel rest IH]; [reflexivity|].
  simpl. unfold bind. rewrite Hpure.
  destruct (query sel) as [|e es]; [|reflexivity].
  rewrite IH. destruct (resolve query rest) as [c f]. reflexivity.
Qed.

(** C1.  For every non-empty priority list of strategies and every way of
    querying a document: when strategy [k] is the first whose query is not
    empty, the resolver keeps exactly the matches of [k] and has queried the
    strategies up to [k] and no later one, whatever the later ones would
    match; when no strategy matches, the result is the empty sequence.  The
    list [all_reviews] of [parse_reviews] is this resolver run over its six
    selectors followed by the class-based search, and [working_selector] of
    [load_all_reviews] is the strategy that this resolver keeps. *)
Theorem resolver_first_match_wins {S F : Type} (query : S -> list F)
    (strategies : list S) :
  strategies <> [] ->
  (forall before k after,
     strategies = (before ++ k :: after)%list ->
     (forall s, In s before -> query s = []) ->
     query k <> [] ->
     resolve query strategies = ((before ++ [k])%list, Some (k, query k))
     /\ matches_of (resolve query strategies) = query k)
  /\ ((forall s, In s strategies -> query s = []) ->
      resolve query strategies = (strategies, None)
      /\ matches_of (resolve query strategies) = [])
  /\ (forall soup : node,
        locate_reviews soup = matches_of (resolve (run_strategy soup) review_strategies))
  /\ (forall (D E : Type) (b : browser D E) (found : string -> list E)
             (selectors : list string) (d : D),
        (forall selector d', find_elements b selector d' = (Ok (found selector), d')) ->
        find_working_selector b selectors d =
          (Ok (option_map fst (snd (resolve found selectors))), d)).
Proof.
  intros _. split; [|split; [|split]].
  - intros before k after -> Hbefore Hk.
    rewrite (resolve_first query before k after Hbefore Hk).
    split; reflexivity.
  - intros Hall. rewrite (resolve_none query strategies Hall).
    split; reflexivity.
  - exact locate_reviews_resolve.
  - intros D E b found selectors d Hpure.
    apply find_working_selector_resolve. exact Hpure.
Qed.

Lemma resolver_first_match_wins_witness :
  review_strategies <> []
  /\ length (run_strategy scenario_soup
               (Css (mkSelector "article.review" [] (TagClass "article" "review")))) = 5%nat
  /\ locate_reviews scenario_soup = [user_review "1"; user_review "2"; user_review "3"]
  /\ fst (resolve (run_strategy scenario_soup) review_strategies) =
       firstn 3 review_strategies.
Proof.
  assert (Hne : review_strategies <> []) by (vm_compute; discriminate).
  split; [exact Hne|]. split; [reflexivity|].
  destruct (resolver_first_match_wins (run_strategy scenario_soup)
              review_strategies Hne) as (Hfirst & _ & Hlocate & _).
  destruct (Hfirst (firstn 2 review_strategies)
                   (Css (mkSelector "div[class*='review']" []
                           (TagClassContains "div" "review")))
                   (skipn 3 review_strategies)) as [Hres Hmatches].
  - reflexivity.
  - intros s [<-|[<-|[]]]; reflexivity.
  - vm_compute. discriminate.
  - split.
    + rewrite Hlocate, Hmatches. reflexivity.
    + rewrite Hres. reflexivity.
Defined.

(** ** The record builder *)

Lemma build_record_fields (fresh_id : string) (review : node) (r : review_record) :
  build_record fresh_id review = Some r ->
  review_id r = fresh_id
  /\ title r = extract_title review
  /\ review_text r = extract_text review (extract_title review)
  /\ date r = normalize_date (extract_date_str review)
  /\ rating r = extract_rating review
  /\ source r = "BestBuy Canada"
  /\ reviewer_name r = extract_reviewer_name review.
Proof.
  unfold build_record.
  destruct (negb _ || negb _)%bool; [|discriminate].
  intros H. injection H as <-. repeat split; reflexivity.
Qed.

Lemma numeric_rating_first (before : list string) (t : string) (after : list string)
    (number : string) :
  (forall u, In u before -> first_number u = None) ->
  first_number t = Some number ->
  numeric_rating (before ++ t :: after)%list = Some (float_of_numeral number).
Proof.
  induction before as [|u before IH]; intros Hbefore Ht; simpl.
  - rewrite Ht. reflexivity.
  - rewrite (Hbefore u) by (left; reflexivity).
    apply IH; [|exact Ht]. intros u' Hu'. apply Hbefore. right. exact Hu'.
Qed.

Lemma numeric_rating_none (texts : list string) :
  (forall t, In t texts -> first_number t = None) ->
  numeric_rating texts = None.
Proof.
  induction texts as [|t texts IH]; intros Hall; [reflexivity|].
  simpl. rewrite (Hall t) by (left; reflexivity).
  apply IH. intros t' Ht'. apply Hall. right. exact Ht'.
Qed.

Lemma star_elements_iff (review e : node) :
  In e (star_elements review) <->
  In e (descendants review)
  /\ exists tag cls children,
       e = Elem tag cls children
       /\ In tag ["span"; "i"; "div"]
       /\ class_matches (any_keyword ["star"; "rating"; "filled"]) cls = true.
Proof.
  unfold star_elements, find_all. rewrite filter_In. split.
  - intros [Hin Hf]. split; [exact Hin|].
    destruct e as [t|tag cls children]; [discriminate|].
    apply andb_prop in Hf as [Htag Hcls].
    exists tag, cls, children. split; [reflexivity|]. split; [|exact Hcls].
    apply existsb_exists in Htag as (x & Hx & Heq).
    apply String.eqb_eq in Heq. subst x. exact Hx.
  - intros [Hin (tag & cls & children & -> & Htag & Hcls)].
    split; [exact Hin|]. apply andb_true_intro. split; [|exact Hcls].
    apply existsb_exists. exists tag. split; [exact Htag|apply String.eqb_refl].
Qed.

Lemma rating_text_elements_iff (review : node) (t : string) :
  In t (rating_text_elements review) <->
  In (Text t) (descendants review)
  /\ (contains "/5" t || contains "out of 5" t || contains "stars" t)%bool = true.
Proof.
  unfold rating_text_elements, find_all_text. rewrite in_flat_map. split.
  - intros (d & Hd & Ht). destruct d as [s|tag cls ch]; [|destruct Ht].
    destruct (any_keyword _ (Some s)) eqn:Hk; [|destruct Ht].
    destruct Ht as [<-|[]]. split; [exact Hd|].
    destruct s as [|c s]; [discriminate|].
    cbn [any_keyword existsb] in Hk. rewrite orb_false_r, orb_assoc in Hk. exact Hk.
  - intros [Hd Hk]. exists (Text t). split; [exact Hd|].
    destruct t as [|c t]; [discriminate|].
    cbn [any_keyword existsb]. rewrite orb_false_r, orb_assoc, Hk. left. reflexivity.
Qed.

(** C6 (as amended).  The rating of a fragment is the number of its
    span/i/div elements whose class matches "star", "rating" or "filled" when
    there is one at least.  Otherwise the strings of the fragment that contain
    "/5", "out of 5" or "stars" are read in document order, and the first
    number (decimal or integer) of the first such string that holds a number
    is the rating, as a float; when there is none the rating stays 0. *)
Theorem rating_extraction (review : node) :
  (star_elements review <> [] ->
   extract_rating review = PyInt (Z.of_nat (length (star_elements review))))
  /\ (star_elements review = [] ->
      forall before t after number,
        rating_text_elements review = (before ++ t :: after)%list ->
        (forall u, In u before -> first_number u = None) ->
        first_number t = Some number ->
        extract_rating review = float_of_numeral number)
  /\ (star_elements review = [] ->
      (forall t, In t (rating_text_elements review) -> first_number t = None) ->
      extract_rating review = PyInt 0)
  /\ (forall e, In e (star_elements review) <->
                In e (descendants review)
                /\ exists tag cls children,
                     e = Elem tag cls children
                     /\ In tag ["span"; "i"; "div"]
                     /\ class_matches (any_keyword ["star"; "rating"; "filled"]) cls
                        = true)
  /\ (forall t, In t (rating_text_elements review) <->
                In (Text t) (descendants review)
                /\ (contains "/5" t || contains "out of 5" t
                    || contains "stars" t)%bool = true)
  /\ first_number "4.2 out of 5" = Some "4.2"
  /\ float_of_numeral "4.2" = PyFloat (21 # 5)
  /\ (21 # 5 == 4.2)%Q.
Proof.
  split; [|split; [|split; [|split; [|split; [|split; [|split]]]]]].
  - intros Hstars. unfold extract_rating.
    destruct (star_elements review) as [|e es]; [contradiction|reflexivity].
  - intros Hstars before t after number Htexts Hbefore Ht.
    unfold extract_rating. rewrite Hstars, Htexts.
    rewrite (numeric_rating_first before t after number Hbefore Ht). reflexivity.
  - intros Hstars Hall. unfold extract_rating.
    rewrite Hstars, (numeric_rating_none _ Hall). reflexivity.
  - intros e. apply star_elements_iff.
  - intros t. apply rating_text_elements_iff.
  - reflexivity.
  - reflexivity.
  - reflexivity.
Qed.

Lemma rating_extraction_witness :
  extract_rating four_star_fragment = PyInt 4
  /\ extract_rating out_of_five_fragment = PyFloat (21 # 5)
  /\ extract_rating stars_text_fragment = PyFloat 5
  /\ extract_rating plain_fragment = PyInt 0.
Proof.
  split; [|split; [|split]].
  - destruct (rating_extraction four_star_fragment) as (Hstars & _).
    rewrite Hstars; [reflexivity|vm_compute; discriminate].
  - destruct (rating_extraction out_of_five_fragment) as (_ & Htext & _).
    rewrite (Htext eq_refl [] "4.2 out of 5" [] "4.2");
      [reflexivity|reflexivity|intros u []|reflexivity].
  - destruct (rating_extraction stars_text_fragment) as (_ & Htext & _).
    rewrite (Htext eq_refl [] "5 stars" [] "5");
      [reflexivity|reflexivity|intros u []|reflexivity].
  - destruct (rating_extraction plain_fragment) as (_ & _ & Hnone & _).
    apply Hnone; [reflexivity|]. intros t [].
Defined.

(** C6, as stated, fails: a fragment whose only text is "5 stars" has no
    star element and no string with "/5" or "out of 5", so that the rule of
    the claim gives 0; the code reads the strings with "stars" too and
    gives 5.0. *)
Lemma rating_counterexample :
  star_elements stars_text_fragment = []
  /\ find_all_text (any_keyword ["/5"; "out of 5"]) stars_text_fragment = []
  /\ extract_rating_claimed stars_text_fragment = PyInt 0
  /\ extract_rating stars_text_fragment = PyFloat 5
  /\ extract_rating stars_text_fragment <> extract_rating_claimed stars_text_fragment.
Proof.
  repeat split; try reflexivity. vm_compute. discriminate.
Qed.




(** The model of [strptime] and [strftime], run on every day number of
    every month of a few years, leap years among them. *)
Lemma long_form_dates_normalise :
  forallb year_normalises [1900; 1999; 2000; 2023; 2024; 2025; 2100]%nat = true.
Proof.
  vm_compute. reflexivity.
Qed.



(** C8.  A fragment with an empty body text and the title "No Title" gives
    no record; a record is built, and appended to [self.reviews], exactly
    when the body text is not empty or the title is not the sentinel. *)
Theorem discard_rule (fresh_id : string) (review : node) :
  (extract_text review (extract_title review) = "" ->
   extract_title review = no_title ->
   build_record fresh_id review = None)
  /\ ((exists r, build_record fresh_id review = Some r) <->
      (extract_text review (extract_title review) <> ""
       \/ extract_title review <> no_title))
  /\ (forall (D : Type) (uuid4 : nat -> string) (s : scraper D),
        reviews (snd (parse_one uuid4 (fun _ => None) review s)) =
          (reviews s ++ match build_record (uuid4 (uuids_drawn s)) review with
                        | Some r => [r]
                        | None => []
                        end)%list).
Proof.
  split; [|split].
  - intros Htext Htitle. unfold build_record. rewrite Htext, Htitle. reflexivity.
  - unfold build_record.
    destruct (String.eqb_spec (extract_text review (extract_title review)) "") as [Ht|Ht];
      destruct (String.eqb_spec (extract_title review) no_title) as [Hn|Hn]; simpl.
    + split; [intros [r Hr]; discriminate|intros [H|H]; contradiction].
    + split; [intros _; right; exact Hn|intros _; eexists; reflexivity].
    + split; [intros _; left; exact Ht|intros _; eexists; reflexivity].
    + split; [intros _; left; exact Ht|intros _; eexists; reflexivity].
  - intros D uuid4 s. unfold parse_one, bind, draw_uuid. simpl.
    destruct (build_record (uuid4 (uuids_drawn s)) review) as [r|]; simpl.
    + reflexivity.
    + rewrite app_nil_r. reflexivity.
Qed.

Lemma discard_rule_witness :
  extract_title noise_fragment = no_title
  /\ extract_text noise_fragment no_title = ""
  /\ build_record "id" noise_fragment = None
  /\ exists r, build_record "id" plain_fragment = Some r.
Proof.
  assert (Htitle : extract_title noise_fragment = no_title) by reflexivity.
  assert (Htext : extract_text noise_fragment (extract_title noise_fragment) = "")
    by reflexivity.
  split; [exact Htitle|]. split; [exact Htext|]. split.
  - destruct (discard_rule "id" noise_fragment) as (Hdiscard & _).
    exact (Hdiscard Htext Htitle).
  - destruct (discard_rule "id" plain_fragment) as (_ & Hiff & _).
    apply Hiff. left. vm_compute. discriminate.
Defined.

(** ** Failures keep the records *)

Lemma extends_refl {D} (s : scraper D) : extends s s.
Proof. exists []. rewrite app_nil_r. reflexivity. Qed.

Lemma extends_trans {D} (s1 s2 s3 : scraper D) :
  extends s1 s2 -> extends s2 s3 -> extends s1 s3.
Proof.
  intros [a Ha] [a' Ha']. exists (a ++ a')%list.
  rewrite Ha', Ha, app_assoc. reflexivity.
Qed.

Lemma extends_bind {D A B} (m : M (scraper D) A) (k : A -> M (scraper D) B) :
  (forall s, extends s (snd (m s))) ->
  (forall a s, extends s (snd (k a s))) ->
  forall s, extends s (snd (bind m k s)).
Proof.
  intros Hm Hk s. unfold bind. specialize (Hm s).
  destruct (m s) as [[a|e] s1]; simpl in *; [|exact Hm].
  apply (extends_trans s s1); [exact Hm|apply Hk].
Qed.

Lemma extends_catch {D A} (m : M (scraper D) A) (h : exn -> M (scraper D) A) :
  (forall s, extends s (snd (m s))) ->
  (forall e s, extends s (snd (h e s))) ->
  forall s, extends s (snd (catch m h s)).
Proof.
  intros Hm Hh s. unfold catch. specialize (Hm s).
  destruct (m s) as [[a|e] s1]; simpl in *; [exact Hm|].
  apply (extends_trans s s1); [exact Hm|apply Hh].
Qed.

Lemma extends_on_driver {D A} (m : M D A) (s : scraper D) :
  extends s (snd (on_driver m s)).
Proof.
  unfold on_driver. destruct (m (the_driver s)) as [r d']. simpl.
  exists []. simpl. rewrite app_nil_r. reflexivity.
Qed.

(** The loop over the fragments never fails, and what it appends is known. *)
Lemma parse_loop_appends {D} (uuid4 : nat -> string) (glitch : node -> option exn)
    (fragments : list node) :
  forall s : scraper D,
    parse_loop uuid4 glitch fragments s =
      (Ok tt,
       mkScraper (the_driver s)
                 (reviews s ++ built_records uuid4 glitch (uuids_drawn s) fragments)%list
                 (uuids_drawn s + length fragments)).
Proof.
  induction fragments as [|review rest IH]; intros s.
  - simpl. unfold ret. rewrite app_nil_r, Nat.add_0_r. destruct s; reflexivity.
  - simpl parse_loop. unfold bind, catch, parse_one, bind, draw_uuid.
    simpl built_records.
    destruct (glitch review) as [e|].
    + unfold throw, ret. rewrite IH. simpl. f_equal. f_equal. lia.
    + destruct (build_record (uuid4 (uuids_drawn s)) review) as [r|].
      * unfold append_review. rewrite IH. simpl.
        rewrite <- app_assoc. f_equal. f_equal. lia.
      * unfold ret. rewrite IH. simpl. f_equal. f_equal. lia.
Qed.

Lemma built_records_app (uuid4 : nat -> string) (glitch : node -> option exn)
    (before after : list node) :
  forall drawn,
    built_records uuid4 glitch drawn (before ++ after)%list =
      (built_records uuid4 glitch drawn before
       ++ built_records uuid4 glitch (drawn + length before) after)%list.
Proof.
  induction before as [|review before IH]; intros drawn.
  - simpl. rewrite Nat.add_0_r. reflexivity.
  - simpl. rewrite IH, <- app_assoc. do 3 f_equal. lia.
Qed.

Lemma parse_reviews_extends {D E} (b : browser D E) (uuid4 : nat -> string)
    (glitch : node -> option exn) (s : scraper D) :
  extends s (snd (parse_reviews b uuid4 glitch s)).
Proof.
  revert s. unfold parse_reviews.
  apply extends_bind; [intros s; apply extends_on_driver|]. intros _.
  apply extends_bind; [intros s; apply extends_on_driver|]. intros soup s.
  rewrite parse_loop_appends. simpl. eexists. reflexivity.
Qed.

Lemma save_to_csv_extends {D E} (b : browser D E) (filename : string) (s : scraper D) :
  extends s (snd (save_to_csv b filename s)).
Proof.
  revert s. unfold save_to_csv.
  apply extends_bind; [intros s; apply extends_refl|]. intros rs.
  destruct rs as [|r rs]; [intros s; apply extends_refl|].
  apply extends_bind; [intros s; apply extends_on_driver|].
  intros _ s. apply extends_refl.
Qed.

Lemma scrape_body_extends {D E} (b : browser D E) (uuid4 : nat -> string)
    (glitch : node -> option exn) (fuel : nat) (product_url filter_option : string)
    (max_reviews : option Z) (s : scraper D) :
  extends s (snd (scrape_body b uuid4 glitch fuel product_url filter_option
                              max_reviews s)).
Proof.
  revert s. unfold scrape_body.
  apply extends_bind; [intros s; apply extends_on_driver|]. intros arrived.
  destruct arrived; simpl negb; cbv iota; [|intros s; apply extends_refl].
  apply extends_bind; [intros s; apply extends_on_driver|]. intros _.
  apply extends_bind; [intros s; apply extends_on_driver|]. intros _.
  apply extends_bind; [intros s; apply parse_reviews_extends|]. intros _.
  intros s. apply save_to_csv_extends.
Qed.

(** C9.  Whatever fails, the records already in [self.reviews] stay, in
    order and unchanged.  In the loop of [parse_reviews] a fragment that
    raises adds nothing and the records of the fragments before it are kept;
    [parse_reviews] as a whole only appends; and [scrape_product_reviews],
    which turns every exception into the result [None], leaves
    [self.reviews] as it was at the point of failure, the records of before
    the run followed by those appended during it. *)
Theorem failures_keep_reviews {D E : Type} (b : browser D E)
    (uuid4 : nat -> string) (glitch : node -> option exn) :
  (forall fragments (s : scraper D),
     parse_loop uuid4 glitch fragments s =
       (Ok tt,
        mkScraper (the_driver s)
                  (reviews s ++ built_records uuid4 glitch (uuids_drawn s) fragments)%list
                  (uuids_drawn s + length fragments)))
  /\ (forall before bad after e (s : scraper D),
        glitch bad = Some e ->
        reviews (snd (parse_loop uuid4 glitch (before ++ bad :: after)%list s)) =
          ((reviews s ++ built_records uuid4 glitch (uuids_drawn s) before)
           ++ built_records uuid4 glitch (uuids_drawn s + length before + 1) after)%list)
  /\ (forall s : scraper D, extends s (snd (parse_reviews b uuid4 glitch s)))
  /\ (forall fuel product_url filter_option max_reviews (s : scraper D),
        extends s (snd (scrape_product_reviews b uuid4 glitch fuel product_url
                                               filter_option max_reviews s))
        /\ snd (scrape_product_reviews b uuid4 glitch fuel product_url
                                       filter_option max_reviews s)
           = snd (scrape_body b uuid4 glitch fuel product_url filter_option
                              max_reviews s)
        /\ exists df, fst (scrape_product_reviews b uuid4 glitch fuel product_url
                                                  filter_option max_reviews s)
                      = Ok df).
Proof.
  split; [|split; [|split]].
  - intros fragments s. apply parse_loop_appends.
  - intros before bad after e s Hbad.
    rewrite parse_loop_appends. simpl reviews.
    rewrite built_records_app. simpl built_records. rewrite Hbad. simpl.
    rewrite app_assoc. do 2 f_equal. lia.
  - intros s. apply parse_reviews_extends.
  - intros fuel product_url filter_option max_reviews s.
    assert (Hsame : snd (scrape_product_reviews b uuid4 glitch fuel product_url
                           filter_option max_reviews s)
                    = snd (scrape_body b uuid4 glitch fuel product_url filter_option
                             max_reviews s)).
    { unfold scrape_product_reviews, catch.
      destruct (scrape_body b uuid4 glitch fuel product_url filter_option
                  max_reviews s) as [[df|e] s']; reflexivity. }
    split; [rewrite Hsame; apply scrape_body_extends|].
    split; [exact Hsame|].
    unfold scrape_product_reviews, catch.
    destruct (scrape_body b uuid4 glitch fuel product_url filter_option
                max_reviews s) as [[df|e] s']; eexists; reflexivity.
Qed.

Lemma failures_keep_reviews_witness :
  second_fails (user_review "2") = Some (OpFailure "AttributeError")
  /\ fst (scrape_body read_only_browser numbered second_fails 6 "url" "newest" None
                      (mkScraper tt [] 0)) = Raise (OpFailure "PermissionError")
  /\ fst (scrape_product_reviews read_only_browser numbered second_fails 6
            "url" "newest" None (mkScraper tt [] 0)) = Ok None
  /\ map review_text
         (reviews (snd (scrape_product_reviews read_only_browser numbered
                          second_fails 6 "url" "newest" None (mkScraper tt [] 0))))
     = ["Review 1"; "Review 3"].
Proof.
  split; [reflexivity|]. split; [reflexivity|]. split; [reflexivity|].
  destruct (failures_keep_reviews read_only_browser numbered second_fails)
    as (_ & _ & _ & Hscrape).
  destruct (Hscrape 6%nat "url" "newest" None (mkScraper tt [] 0)) as (_ & -> & _).
  reflexivity.
Defined.

(** ** The "show more" loop *)

(** One turn of the loop, by the outcome of its [try] block. *)
Lemma attempts_loop_step {D} (body : nat -> M D (ctl break_reason)) (fuel attempts : nat)
    (d : D) :
  (attempts < max_attempts)%nat ->
  attempts_loop body (S fuel) attempts d =
    match body (attempts + 1)%nat d with
    | (Ok (Return reason), d') => (Ok (mkReport (attempts + 1) (Break reason)), d')
    | (Ok Continue, d') => attempts_loop body fuel (attempts + 1)%nat d'
    | (Raise e, d') => (Ok (mkReport (attempts + 1) (Errored e)), d')
    end.
Proof.
  intros Hlt. simpl.
  replace (attempts <? max_attempts)%nat with true
    by (symmetry; apply Nat.ltb_lt; exact Hlt).
  unfold bind, catch, ret.
  destruct (body (attempts + 1)%nat d) as [[[reason|]|e] d']; reflexivity.
Qed.

(** From [attempts] on, the loop makes at most [max_attempts - attempts]
    turns, whatever its body does. *)
Lemma attempts_loop_bounded {D} (body : nat -> M D (ctl break_reason)) (k : nat) :
  forall (attempts : nat) (d : D),
    (attempts + k = max_attempts)%nat ->
    exists report d',
      (forall fuel, (k + 1 <= fuel)%nat ->
         attempts_loop body fuel attempts d = (Ok report, d'))
      /\ (attempts <= attempts_made report <= max_attempts)%nat
      /\ (0 < k -> attempts < attempts_made report)%nat
      /\ stopped_by report <> OutOfFuel.
Proof.
  induction k as [|k IH]; intros attempts d Hk.
  - exists (mkReport attempts AttemptsUsed), d. split; [|split; [|split]].
    + intros fuel Hfuel. destruct fuel as [|fuel]; [lia|]. simpl.
      replace (attempts <? max_attempts)%nat with false
        by (symmetry; apply Nat.ltb_ge; lia).
      reflexivity.
    + simpl. lia.
    + lia.
    + discriminate.
  - assert (Hlt : (attempts < max_attempts)%nat) by lia.
    destruct (body (attempts + 1)%nat d) as [[[reason|]|e] d1] eqn:Hbody.
    + exists (mkReport (attempts + 1) (Break reason)), d1.
      split; [|split; [|split]]; [|simpl; lia|simpl; lia|discriminate].
      intros fuel Hfuel. destruct fuel as [|fuel]; [lia|].
      rewrite (attempts_loop_step body fuel attempts d Hlt), Hbody. reflexivity.
    + destruct (IH (attempts + 1)%nat d1) as (report & d' & Hrun & Hmade & _ & Hstop);
        [lia|].
      exists report, d'. split; [|split; [|split]]; [|lia|lia|exact Hstop].
      intros fuel Hfuel. destruct fuel as [|fuel]; [lia|].
      rewrite (attempts_loop_step body fuel attempts d Hlt), Hbody.
      apply Hrun. lia.
    + exists (mkReport (attempts + 1) (Errored e)), d1.
      split; [|split; [|split]]; [|simpl; lia|simpl; lia|discriminate].
      intros fuel Hfuel. destruct fuel as [|fuel]; [lia|].
      rewrite (attempts_loop_step body fuel attempts d Hlt), Hbody. reflexivity.
Qed.

Lemma reached_max_iff (max_reviews : option Z) (current_reviews : nat) :
  reached_max max_reviews current_reviews = true <->
  exists m, max_reviews = Some m /\ m <> 0 /\ m <= Z.of_nat current_reviews.
Proof.
  unfold reached_max. destruct max_reviews as [m|].
  - destruct m as [|p|p].
    + split; [discriminate|]. intros (m & Hm & Hne & _). injection Hm as <-. lia.
    + rewrite Z.leb_le. split.
      * intros Hle. exists (Z.pos p). repeat split; [lia|exact Hle].
      * intros (m & Hm & _ & Hle). injection Hm as <-. exact Hle.
    + rewrite Z.leb_le. split.
      * intros Hle. exists (Z.neg p). repeat split; [lia|exact Hle].
      * intros (m & Hm & _ & Hle). injection Hm as <-. exact Hle.
  - split; [discriminate|]. intros (m & Hm & _). discriminate.
Qed.

(** As [random_sleep] takes no argument, the call [self.random_sleep(1, 2)]
    raises before the click: [clicked] is never set. *)
Lemma click_first_never_clicks {D E} (b : browser D E) (elements : list E) :
  forall d, fst (click_first b elements d) <> Ok true.
Proof.
  induction elements as [|element rest IH]; intros d; [discriminate|].
  simpl. unfold bind.
  destruct (is_displayed b element d) as [[displayed|e] d1]; [|discriminate].
  destruct displayed.
  - destruct (is_enabled b element d1) as [[enabled|e] d2]; [|discriminate].
    destruct enabled; [|apply IH].
    destruct (scroll_into_view b element d2) as [[[]|e] d3]; discriminate.
  - unfold ret. apply IH.
Qed.

Lemma try_show_more_false {D E} (b : browser D E) (selectors : list string) :
  forall d, exists d', try_show_more b selectors d = (Ok false, d').
Proof.
  induction selectors as [|selector rest IH]; intros d; [exists d; reflexivity|].
  simpl. unfold bind at 1. unfold catch, bind at 1.
  destruct (find_elements b selector d) as [[elements|e] d1].
  - pose proof (click_first_never_clicks b elements d1) as Hnever.
    destruct (click_first b elements d1) as [[[|]|e] d2]; simpl in *.
    + contradiction.
    + apply IH.
    + apply IH.
  - simpl. apply IH.
Qed.

(** Hence the [try] block always ends in a [break] or in an exception, and
    the loop is left in its first turn. *)
Lemma show_more_loop_single_turn {D E} (b : browser D E) (fuel : nat)
    (working_selector : option string) (max_reviews : option Z) (d : D) :
  exists report d',
    show_more_loop b (S fuel) working_selector max_reviews 0 d = (Ok report, d')
    /\ attempts_made report = 1%nat.
Proof.
  unfold show_more_loop.
  rewrite attempts_loop_step by (unfold max_attempts; lia).
  unfold attempt, bind.
  destruct (count_reviews b working_selector d) as [[current|e] d1];
    [|eexists _, _; split; reflexivity].
  destruct (save_screenshot b _ d1) as [[[]|e] d2];
    [|eexists _, _; split; reflexivity].
  destruct (reached_max max_reviews current);
    [eexists _, _; split; reflexivity|].
  destruct (try_show_more_false b show_more_selectors d2) as [d3 ->].
  unfold after_click. simpl. eexists _, _. split; reflexivity.
Qed.

Lemma show_more_loop_fuel {D E} (b : browser D E) (working_selector : option string)
    (max_reviews : option Z) (d : D) :
  exists report d',
    (forall fuel, (max_attempts + 1 <= fuel)%nat ->
       show_more_loop b fuel working_selector max_reviews 0 d = (Ok report, d'))
    /\ (1 <= attempts_made report <= max_attempts)%nat
    /\ stopped_by report <> OutOfFuel.
Proof.
  destruct (attempts_loop_bounded (attempt b working_selector max_reviews)
              max_attempts 0%nat d eq_refl)
    as (report & d' & Hrun & Hmade & Hpos & Hstop).
  exists report, d'. split; [|split].
  - intros fuel Hfuel. unfold show_more_loop. apply Hrun. exact Hfuel.
  - assert (0 < attempts_made report)%nat by (apply Hpos; unfold max_attempts; lia).
    lia.
  - exact Hstop.
Qed.

(** C10.  [load_all_reviews] always comes to an end: with six units of fuel
    or more the outcome is the same; the loop makes one turn at least and
    [max_attempts = 5] turns at most, whatever happens inside its [try]
    block; and it is left at once when the maximum is reached, when no
    button was clicked, when the click added no review, and when the [try]
    block raises. *)
Theorem load_all_reviews_terminates {D E : Type} (b : browser D E)
    (max_reviews : option Z) (d : D) :
  max_attempts = 5%nat
  /\ (exists outcome,
        (forall fuel, (max_attempts + 1 <= fuel)%nat ->
           load_all_reviews b fuel max_reviews d = outcome)
        /\ match fst outcome with
           | Ok report =>
               (1 <= attempts_made report <= max_attempts)%nat
               /\ stopped_by report <> OutOfFuel
           | Raise _ => True
           end)
  /\ (forall (body : nat -> M D (ctl break_reason)) (d0 : D),
        exists report d',
          (forall fuel, (max_attempts + 1 <= fuel)%nat ->
             attempts_loop body fuel 0 d0 = (Ok report, d'))
          /\ (1 <= attempts_made report <= max_attempts)%nat
          /\ stopped_by report <> OutOfFuel)
  /\ (forall (body : nat -> M D (ctl break_reason)) fuel attempts d0 reason d',
        (attempts < max_attempts)%nat ->
        body (attempts + 1)%nat d0 = (Ok (Return reason), d') ->
        attempts_loop body (S fuel) attempts d0
        = (Ok (mkReport (attempts + 1) (Break reason)), d'))
  /\ (forall (body : nat -> M D (ctl break_reason)) fuel attempts d0 e d',
        (attempts < max_attempts)%nat ->
        body (attempts + 1)%nat d0 = (Raise e, d') ->
        attempts_loop body (S fuel) attempts d0
        = (Ok (mkReport (attempts + 1) (Errored e)), d'))
  /\ (forall working_selector current_reviews d0,
        after_click b working_selector current_reviews false d0
        = (Ok (Return NoButton), d0))
  /\ (forall selector current_reviews elements d0 d',
        find_elements b selector d0 = (Ok elements, d') ->
        (length elements <= current_reviews)%nat ->
        after_click b (Some selector) current_reviews true d0
        = (Ok (Return NoNewReviews), d'))
  /\ (forall working_selector attempts current_reviews d0 d1 d2,
        count_reviews b working_selector d0 = (Ok current_reviews, d1) ->
        save_screenshot b ("reviews_attempt_" ++ decimal attempts ++ ".png") d1
        = (Ok tt, d2) ->
        reached_max max_reviews current_reviews = true ->
        attempt b working_selector max_reviews attempts d0
        = (Ok (Return ReachedMax), d2)).
Proof.
  split; [reflexivity|]. split; [|split; [|split; [|split; [|split; [|split]]]]].
  - unfold load_all_reviews, bind.
    destruct (save_screenshot b "before_loading_reviews.png" d) as [[[]|e] d1].
    2:{ exists (Raise e, d1). split; [intros; reflexivity|exact I]. }
    destruct (find_working_selector b load_selectors d1) as [[ws|e] d2].
    2:{ exists (Raise e, d2). split; [intros; reflexivity|exact I]. }
    destruct (show_more_loop_fuel b ws max_reviews d2)
      as (report & d3 & Hrun & Hmade & Hstop).
    destruct (save_screenshot b "after_loading_reviews.png" d3) as [[[]|e] d4] eqn:Hshot.
    + exists (Ok report, d4). split; [|split; [exact Hmade|exact Hstop]].
      intros fuel Hfuel. rewrite (Hrun fuel Hfuel), Hshot. reflexivity.
    + exists (Raise e, d4). split; [|exact I].
      intros fuel Hfuel. rewrite (Hrun fuel Hfuel), Hshot. reflexivity.
  - intros body d0.
    destruct (attempts_loop_bounded body max_attempts 0%nat d0 eq_refl)
      as (report & d' & Hrun & Hmade & Hpos & Hstop).
    exists report, d'. split; [exact Hrun|]. split; [|exact Hstop].
    assert (0 < attempts_made report)%nat by (apply Hpos; unfold max_attempts; lia).
    lia.
  - intros body fuel attempts d0 reason d' Hlt Hbody.
    rewrite (attempts_loop_step body fuel attempts d0 Hlt), Hbody. reflexivity.
  - intros body fuel attempts d0 e d' Hlt Hbody.
    rewrite (attempts_loop_step body fuel attempts d0 Hlt), Hbody. reflexivity.
  - intros working_selector current_reviews d0. reflexivity.
  - intros selector current_reviews elements d0 d' Hfind Hle.
    unfold after_click. cbn [negb]. unfold bind. rewrite Hfind.
    replace (length elements <=? current_reviews)%nat with true
      by (symmetry; apply Nat.leb_le; exact Hle).
    reflexivity.
  - intros working_selector attempts current_reviews d0 d1 d2 Hcount Hshot Hmax.
    unfold attempt, bind. rewrite Hcount, Hshot, Hmax. reflexivity.
Qed.

Lemma load_all_reviews_terminates_witness :
  (forall fuel, (max_attempts + 1 <= fuel)%nat ->
     load_all_reviews button_browser fuel (Some 100) tt
     = (Ok (mkReport 1 (Break NoButton)), tt))
  /\ attempt button_browser (Some ".review-item") (Some 1) 1 tt
     = (Ok (Return ReachedMax), tt).
Proof.
  destruct (load_all_reviews_terminates button_browser (Some 100) tt)
    as (_ & (outcome & Hrun & _) & _ & _ & _ & _ & _ & Hmax).
  split.
  - intros fuel Hfuel. rewrite (Hrun fuel Hfuel).
    rewrite <- (Hrun 6%nat) by (unfold max_attempts; lia). reflexivity.
  - destruct (load_all_reviews_terminates button_browser (Some 1) tt)
      as (_ & _ & _ & _ & _ & _ & _ & Hmax').
    apply (Hmax' (Some ".review-item") 1%nat 1%nat tt tt tt); reflexivity.
Defined.

(* ===================================================================== *)
(** * Part III: further properties of the code                            *)
(* ===================================================================== *)

(** ** The retry wrapper, in general *)

Lemma captcha_calls_app (l l' : list event) :
  captcha_calls (l ++ l') = (captcha_calls l + captcha_calls l')%nat.
Proof.
  induction l as [|ev l IH]; simpl; [reflexivity|].
  destruct ev; simpl; rewrite IH; reflexivity.
Qed.

Ltac run_iteration function handle_captcha error_types :=
  unfold iteration, try_body, handler, call_function, call_handle_captcha;
  unfold catch, bind, get_retries, set_retries, get_wait_time, set_wait_time,
    sleep, throw, emit, ret;
  repeat
    (cbn beta iota zeta delta [fst snd retries wait_time world log orb];
     match goal with
     | |- context [function ?w] =>
         destruct (function w) as [[?|?] ?] eqn:?
     | |- context [handle_captcha ?r ?w] =>
         destruct (handle_captcha r w) as [[|] ?] eqn:?
     | |- context [res_page_source ?r] => destruct (res_page_source r) eqn:?
     | |- context [error_types ?e] => destruct (error_types e) eqn:?
     | |- context [(?a <? ?b)] => destruct (a <? b) eqn:?
     | |- context [(?a && ?b)%bool] => destruct (a && b)%bool eqn:?
     end);
  cbn beta iota zeta delta [fst snd retries wait_time world log orb].

(** One turn of the loop invokes the operation twice at most, and when it
    asks for another turn [retries] has grown. *)
Lemma iteration_progress {W : Type}
    (function : W -> Exc result * W) (handle_captcha : result -> W -> bool * W)
    (max_retries backoff_factor : Z) (error_types : exn -> bool)
    (retry_on_captcha : bool) (s : rstate W) :
  (calls (log (snd (iteration function handle_captcha max_retries backoff_factor
                              error_types retry_on_captcha s)))
   <= calls (log s) + 2)%nat
  /\ (fst (iteration function handle_captcha max_retries backoff_factor
                     error_types retry_on_captcha s) = Ok Continue ->
      retries s + 1 <= retries (snd (iteration function handle_captcha max_retries
                                               backoff_factor error_types
                                               retry_on_captcha s))).
Proof.
  run_iteration function handle_captcha error_types;
    (split; [rewrite ?calls_app; cbn; lia|]);
    try (intros H; discriminate H); intros _; lia.
Qed.

Lemma while_loop_terminates {W : Type}
    (function : W -> Exc result * W) (handle_captcha : result -> W -> bool * W)
    (max_retries backoff_factor : Z) (error_types : exn -> bool)
    (retry_on_captcha : bool) (n : nat) :
  forall s : rstate W,
    max_retries + 1 - retries s <= Z.of_nat n ->
    exists out,
      (forall fuel, (n + 1 <= fuel)%nat ->
         while_loop function handle_captcha max_retries backoff_factor error_types
                    retry_on_captcha fuel s = Some out)
      /\ (calls (log (snd out)) <= calls (log s) + 2 * n)%nat.
Proof.
  induction n as [|n IH]; intros s Hn.
  - exists (Raise (RetriesExhausted max_retries), s). split; [|simpl; lia].
    intros fuel Hfuel. destruct fuel as [|fuel]; [lia|]. simpl.
    replace (retries s <=? max_retries) with false
      by (symmetry; apply Z.leb_gt; lia).
    reflexivity.
  - destruct (retries s <=? max_retries) eqn:Hle.
    + pose proof (iteration_progress function handle_captcha max_retries
                    backoff_factor error_types retry_on_captcha s) as [Hcalls Hgrow].
      destruct (iteration function handle_captcha max_retries backoff_factor
                  error_types retry_on_captcha s) as [[[r|]|e] s'] eqn:Hit;
        simpl in Hcalls, Hgrow.
      * exists (Ok r, s'). split; [|simpl; lia].
        intros fuel Hfuel. destruct fuel as [|fuel]; [lia|]. simpl.
        rewrite Hle, Hit. reflexivity.
      * destruct (IH s') as (out & Hrun & Hout); [specialize (Hgrow eq_refl); lia|].
        exists out. split; [|lia].
        intros fuel Hfuel. destruct fuel as [|fuel]; [lia|]. simpl.
        rewrite Hle, Hit. apply Hrun. lia.
      * exists (Raise e, s'). split; [|simpl; lia].
        intros fuel Hfuel. destruct fuel as [|fuel]; [lia|]. simpl.
        rewrite Hle, Hit. reflexivity.
    + exists (Raise (RetriesExhausted max_retries), s). split; [|simpl; lia].
      intros fuel Hfuel. destruct fuel as [|fuel]; [lia|]. simpl.
      rewrite Hle. reflexivity.
Qed.

(** X1.  The wrapped function always comes to an end, whatever the operation
    and [handle_captcha] do: with [max_retries + 2] units of fuel or more the
    outcome is the same, and the operation has been invoked
    [2 * (max_retries + 1)] times at most, hence never when [max_retries] is
    negative. *)
Theorem wrapper_terminates {W : Type}
    (function : W -> Exc result * W) (handle_captcha : result -> W -> bool * W)
    (max_retries backoff_factor initial_wait : Z) (error_types : exn -> bool)
    (retry_on_captcha : bool) (w : W) :
  exists out,
    (forall fuel, (Z.to_nat (max_retries + 1) + 1 <= fuel)%nat ->
       wrapper function handle_captcha max_retries backoff_factor initial_wait
               error_types retry_on_captcha fuel w = Some out)
    /\ (calls (log (snd out)) <= 2 * Z.to_nat (max_retries + 1))%nat.
Proof.
  destruct (while_loop_terminates function handle_captcha max_retries backoff_factor
              error_types retry_on_captcha (Z.to_nat (max_retries + 1))
              (mkRState 0 initial_wait w []))
    as (out & Hrun & Hcalls); [simpl; lia|].
  exists out. split; [exact Hrun|exact Hcalls].
Qed.

(** One turn of the loop when the operation returns a result that is not
    taken for a CAPTCHA page. *)
Lemma iteration_returns {W : Type}
    (function : W -> Exc result * W) (handle_captcha : result -> W -> bool * W)
    (max_retries backoff_factor : Z) (error_types : exn -> bool)
    (retry_on_captcha : bool) (s : rstate W) (r : result) (w' : W) :
  function (world s) = (Ok r, w') ->
  res_page_source r = None ->
  iteration function handle_captcha max_retries backoff_factor error_types
            retry_on_captcha s
  = (Ok (Return r),
     mkRState (retries s) (wait_time s) w' (log s ++ [EvCall None])).
Proof.
  intros Hf Hp.
  unfold iteration, catch, try_body, bind, call_function, ret.
  rewrite Hf. simpl. rewrite Hp. reflexivity.
Qed.

(** X2.  An error that is not of [error_types] is not retried: the operation
    is invoked once, nothing is slept, and the error reaches the caller. *)
Theorem non_retryable_error_propagates {W : Type}
    (function : W -> Exc result * W) (handle_captcha : result -> W -> bool * W)
    (max_retries backoff_factor initial_wait : Z) (error_types : exn -> bool)
    (retry_on_captcha : bool) (w w' : W) (e : exn) (fuel : nat) :
  function w = (Raise e, w') ->
  error_types e = false ->
  0 <= max_retries ->
  wrapper function handle_captcha max_retries backoff_factor initial_wait
          error_types retry_on_captcha (S fuel) w
  = Some (Raise e, mkRState 0 initial_wait w' [EvCall (Some e)]).
Proof.
  intros Hf He Hn. unfold wrapper. simpl.
  replace (0 <=? max_retries) with true by (symmetry; apply Z.leb_le; exact Hn).
  unfold iteration, catch, try_body, bind, call_function. simpl.
  rewrite Hf. simpl. rewrite He. reflexivity.
Qed.

Lemma non_retryable_error_propagates_witness :
  only_timeouts (OpFailure "KeyError") = false
  /\ wrapper (flaky 3 (OpFailure "KeyError") plain_result) never_solved 3 2 1
             only_timeouts true 5 0%nat
     = Some (Raise (OpFailure "KeyError"),
             mkRState 0 1 1%nat [EvCall (Some (OpFailure "KeyError"))]).
Proof.
  split; [reflexivity|].
  apply (non_retryable_error_propagates (flaky 3 (OpFailure "KeyError") plain_result)
           never_solved 3 2 1 only_timeouts true 0%nat 1%nat
           (OpFailure "KeyError") 4%nat).
  - reflexivity.
  - reflexivity.
  - lia.
Defined.

Lemma flaky_run (k : nat) (e : exn) (r : result)
    (handle_captcha : result -> nat -> bool * nat)
    (max_retries backoff_factor : Z) (error_types : exn -> bool)
    (retry_on_captcha : bool) (m : nat) :
  error_types e = true ->
  res_page_source r = None ->
  forall s : rstate nat,
    (world s + m = k)%nat ->
    retries s + Z.of_nat m <= max_retries ->
    0 <= retries s ->
    Forall sleepable (geometric (wait_time s) backoff_factor m) ->
    exists s',
      (forall fuel, (m + 1 <= fuel)%nat ->
         while_loop (flaky k e r) handle_captcha max_retries backoff_factor
                    error_types retry_on_captcha fuel s = Some (Ok r, s'))
      /\ calls (log s') = (calls (log s) + m + 1)%nat
      /\ delays (log s') = (delays (log s) ++ geometric (wait_time s) backoff_factor m)%list
      /\ retries s' = retries s + Z.of_nat m.
Proof.
  intros He Hr. induction m as [|m IH]; intros s Hworld Hret Hpos Hwait.
  - assert (Hf : flaky k e r (world s) = (Ok r, S (world s))).
    { unfold flaky. replace (world s <? k)%nat with false
        by (symmetry; apply Nat.ltb_ge; lia). reflexivity. }
    eexists. split; [|split; [|split]].
    + intros fuel Hfuel. destruct fuel as [|fuel]; [lia|]. simpl.
      replace (retries s <=? max_retries) with true by (symmetry; apply Z.leb_le; lia).
      rewrite (iteration_returns _ _ _ _ _ _ s r _ Hf Hr). reflexivity.
    + simpl. rewrite calls_app. simpl. lia.
    + simpl. rewrite delays_app. simpl. reflexivity.
    + simpl. lia.
  - assert (Hf : flaky k e r (world s) = (Raise e, S (world s))).
    { unfold flaky. replace (world s <? k)%nat with true
        by (symmetry; apply Nat.ltb_lt; lia). reflexivity. }
    apply sleepable_geometric in Hwait as [Hwait Hrest].
    destruct (IH (mkRState (retries s + 1) (wait_time s * backoff_factor) (S (world s))
                           ((log s ++ [EvCall (Some e)]) ++ [EvSleep (wait_time s)])))
      as (s' & Hrun & Hcalls & Hdelays & Hretries); simpl; try lia; try exact Hrest.
    exists s'. split; [|split; [|split]].
    + intros fuel Hfuel. destruct fuel as [|fuel]; [lia|]. simpl.
      replace (retries s <=? max_retries) with true by (symmetry; apply Z.leb_le; lia).
      rewrite (iteration_raises _ _ _ _ _ _ s e _ Hf He (fun _ => Hwait)).
      replace (max_retries <? retries s + 1) with false
        by (symmetry; apply Z.ltb_ge; lia).
      apply Hrun. lia.
    + rewrite Hcalls. simpl. rewrite !calls_app. simpl. lia.
    + rewrite Hdelays. simpl. rewrite !delays_app. simpl.
      rewrite geometric_succ, app_nil_r, <- app_assoc. reflexivity.
    + rewrite Hretries. simpl. lia.
Qed.

(** X3.  An operation that raises a retryable error [k] times, with [k] at
    most [max_retries], and then returns, under delays that [time.sleep]
    takes (the [k] delays [initial_wait * backoff_factor^i], each from zero to
    [longest_sleep] seconds): the wrapper returns that result after [k + 1]
    invocations, having slept [initial_wait], [initial_wait * backoff_factor],
    ... [k] delays in all; a first success ([k = 0]) costs one invocation and
    no delay, whatever the waits are. *)
Theorem retry_succeeds_after_failures (k : nat) (e : exn) (r : result)
    (handle_captcha : result -> nat -> bool * nat)
    (max_retries backoff_factor initial_wait : Z) (error_types : exn -> bool)
    (retry_on_captcha : bool) :
  error_types e = true ->
  res_page_source r = None ->
  Z.of_nat k <= max_retries ->
  Forall sleepable (geometric initial_wait backoff_factor k) ->
  exists s',
    (forall fuel, (k + 1 <= fuel)%nat ->
       wrapper (flaky k e r) handle_captcha max_retries backoff_factor initial_wait
               error_types retry_on_captcha fuel 0%nat = Some (Ok r, s'))
    /\ calls (log s') = (k + 1)%nat
    /\ delays (log s') = geometric initial_wait backoff_factor k
    /\ retries s' = Z.of_nat k.
Proof.
  intros He Hr Hk Hw.
  destruct (flaky_run k e r handle_captcha max_retries backoff_factor error_types
              retry_on_captcha k He Hr (mkRState 0 initial_wait 0%nat []))
    as (s' & Hrun & Hcalls & Hdelays & Hretries); simpl; try lia; try exact Hw.
  exists s'. split; [|split; [|split]].
  - intros fuel Hfuel. unfold wrapper. apply Hrun. exact Hfuel.
  - rewrite Hcalls. simpl. lia.
  - exact Hdelays.
  - rewrite Hretries. simpl. lia.
Qed.

Lemma retry_succeeds_after_failures_witness :
  exists s',
    wrapper (flaky 2 (OpFailure "TimeoutException") plain_result) never_solved
            3 2 1 any_exception true 3 0%nat = Some (Ok plain_result, s')
    /\ calls (log s') = 3%nat
    /\ delays (log s') = [1; 2].
Proof.
  destruct (retry_succeeds_after_failures 2 (OpFailure "TimeoutException")
              plain_result never_solved 3 2 1 any_exception true)
    as (s' & Hrun & Hcalls & Hdelays & _); try reflexivity; try lia.
  { change (geometric 1 2 2) with [1; 2].
    repeat (constructor; [unfold sleepable, longest_sleep; lia|]).
    constructor. }
  exists s'. split; [apply Hrun; lia|]. split; [exact Hcalls|exact Hdelays].
Defined.

Lemma iteration_without_captcha_check {W : Type}
    (function : W -> Exc result * W) (handle_captcha : result -> W -> bool * W)
    (max_retries backoff_factor : Z) (error_types : exn -> bool) (s : rstate W) :
  captcha_calls (log (snd (iteration function handle_captcha max_retries
                                     backoff_factor error_types false s)))
  = captcha_calls (log s).
Proof.
  run_iteration function handle_captcha error_types;
    rewrite ?captcha_calls_app; cbn; lia.
Qed.

(** X4.  With [retry_on_captcha=False] the wrapper never calls
    [handle_captcha], whatever the operation returns or raises. *)
Theorem captcha_handling_can_be_disabled {W : Type}
    (function : W -> Exc result * W) (handle_captcha : result -> W -> bool * W)
    (max_retries backoff_factor initial_wait : Z) (error_types : exn -> bool)
    (fuel : nat) (w : W) (out : Exc result * rstate W) :
  wrapper function handle_captcha max_retries backoff_factor initial_wait
          error_types false fuel w = Some out ->
  captcha_calls (log (snd out)) = 0%nat.
Proof.
  unfold wrapper.
  assert (Hloop : forall fuel (s : rstate W) out,
             while_loop function handle_captcha max_retries backoff_factor
                        error_types false fuel s = Some out ->
             captcha_calls (log (snd out)) = captcha_calls (log s)).
  { clear fuel w out. induction fuel as [|fuel IH]; intros s out; [discriminate|].
    simpl. destruct (retries s <=? max_retries).
    - pose proof (iteration_without_captcha_check function handle_captcha
                    max_retries backoff_factor error_types s) as Hit.
      destruct (iteration function handle_captcha max_retries backoff_factor
                  error_types false s) as [[[r|]|e] s']; simpl in Hit.
      + intros H. injection H as <-. exact Hit.
      + intros H. rewrite (IH s' out H). exact Hit.
      + intros H. injection H as <-. exact Hit.
    - intros H. injection H as <-. reflexivity. }
  intros H. rewrite (Hloop fuel _ out H). reflexivity.
Qed.

Lemma captcha_handling_can_be_disabled_witness :
  exists out,
    wrapper captcha_page never_solved 3 2 1 any_exception false 5 0%nat = Some out
    /\ fst out = Ok (mkResult "driver" (Some (page_source challenge_page)))
    /\ captcha_calls (log (snd out)) = 0%nat.
Proof.
  eexists. split; [reflexivity|]. split; [reflexivity|].
  apply (captcha_handling_can_be_disabled captcha_page never_solved 3 2 1
           any_exception 5 0%nat).
  reflexivity.
Defined.



(** One turn of the loop when the CAPTCHA is not solved. *)
Lemma iteration_challenged {W : Type}
    (function : W -> Exc result * W) (handle_captcha : result -> W -> bool * W)
    (max_retries backoff_factor : Z) (error_types : exn -> bool)
    (s : rstate W) (r : result) (src : string) (w1 w2 : W) :
  function (world s) = (Ok r, w1) ->
  res_page_source r = Some src ->
  looks_like_captcha src = true ->
  handle_captcha r w1 = (false, w2) ->
  sleepable (wait_time s * backoff_factor) ->
  iteration function handle_captcha max_retries backoff_factor error_types true s
  = (Ok Continue,
     mkRState (retries s + 1) (wait_time s * backoff_factor) w2
              (((log s ++ [EvCall None]) ++ [EvCaptcha false])
               ++ [EvSleep (wait_time s * backoff_factor)])).
Proof.
  intros Hf Hsrc Hlooks Hh Hw.
  unfold iteration, catch, try_body, bind, call_function, call_handle_captcha,
    get_retries, set_retries, get_wait_time, set_wait_time, sleep, emit, ret.
  simpl. rewrite Hf. simpl. rewrite Hsrc, Hlooks. simpl. rewrite Hh. simpl.
  rewrite (sleepable_in_range _ Hw), (sleepable_not_negative _ Hw).
  reflexivity.
Qed.

Lemma challenged_run {W : Type}
    (function : W -> Exc result * W) (handle_captcha : result -> W -> bool * W)
    (max_retries backoff_factor : Z) (error_types : exn -> bool) (n : nat) :
  always_challenged function ->
  never_handles handle_captcha ->
  forall s : rstate W,
    retries s = max_retries + 1 - Z.of_nat n ->
    Forall sleepable (geometric (wait_time s * backoff_factor) backoff_factor n) ->
    exists s',
      (forall fuel, (n + 1 <= fuel)%nat ->
         while_loop function handle_captcha max_retries backoff_factor error_types
                    true fuel s = Some (Raise (RetriesExhausted max_retries), s'))
      /\ calls (log s') = (calls (log s) + n)%nat
      /\ captcha_calls (log s') = (captcha_calls (log s) + n)%nat
      /\ delays (log s')
         = (delays (log s)
            ++ geometric (wait_time s * backoff_factor) backoff_factor n)%list.
Proof.
  intros Hch Hnever. induction n as [|n IH]; intros s Hr Hw.
  - exists s. split; [|split; [|split]].
    + intros fuel Hfuel. destruct fuel as [|fuel]; [lia|]. simpl.
      replace (retries s <=? max_retries) with false
        by (symmetry; apply Z.leb_gt; lia).
      reflexivity.
    + lia.
    + lia.
    + simpl. rewrite app_nil_r. reflexivity.
  - destruct (Hch (world s)) as (r & src & w1 & Hf & Hsrc & Hlooks).
    destruct (Hnever r w1) as (w2 & Hh).
    apply sleepable_geometric in Hw as [Hw' Hrest].
    destruct (IH (mkRState (retries s + 1) (wait_time s * backoff_factor) w2
                           (((log s ++ [EvCall None]) ++ [EvCaptcha false])
                            ++ [EvSleep (wait_time s * backoff_factor)])))
      as (s' & Hrun & Hcalls & Hcaptcha & Hdelays); simpl; try lia; try exact Hrest.
    exists s'. split; [|split; [|split]].
    + intros fuel Hfuel. destruct fuel as [|fuel]; [lia|]. simpl.
      replace (retries s <=? max_retries) with true by (symmetry; apply Z.leb_le; lia).
      rewrite (iteration_challenged function handle_captcha max_retries
                 backoff_factor error_types s r src w1 w2 Hf Hsrc Hlooks Hh Hw').
      apply Hrun. lia.
    + rewrite Hcalls. simpl. rewrite !calls_app. simpl. lia.
    + rewrite Hcaptcha. simpl. rewrite !captcha_calls_app. simpl. lia.
    + rewrite Hdelays. simpl. rewrite !delays_app. simpl.
      rewrite geometric_succ, !app_nil_r, <- app_assoc. reflexivity.
Qed.

(** X6.  The law of the CAPTCHA path, for [max_retries >= 0] and delays
    that [time.sleep] takes (each from zero to [longest_sleep] seconds).
    When every invocation returns a page that looks like a CAPTCHA page and
    [handle_captcha] never succeeds, the operation is invoked
    [max_retries + 1] times, [handle_captcha] as often, and after each
    failure, the last one included, the wrapper sleeps: the delays are
    [initial_wait * backoff_factor^i] for [i] from 1 to [max_retries + 1].
    The run ends with the generic exception "Failed after ... retries". *)
Theorem unsolved_captcha_run {W : Type}
    (function : W -> Exc result * W) (handle_captcha : result -> W -> bool * W)
    (max_retries backoff_factor initial_wait : Z) (error_types : exn -> bool)
    (w : W) :
  always_challenged function ->
  never_handles handle_captcha ->
  0 <= max_retries ->
  Forall sleepable (geometric (initial_wait * backoff_factor) backoff_factor
                              (Z.to_nat max_retries + 1)) ->
  exists s',
    (forall fuel, (Z.to_nat max_retries + 2 <= fuel)%nat ->
       wrapper function handle_captcha max_retries backoff_factor initial_wait
               error_types true fuel w
       = Some (Raise (RetriesExhausted max_retries), s'))
    /\ calls (log s') = (Z.to_nat max_retries + 1)%nat
    /\ captcha_calls (log s') = (Z.to_nat max_retries + 1)%nat
    /\ delays (log s')
       = geometric (initial_wait * backoff_factor) backoff_factor
                   (Z.to_nat max_retries + 1).
Proof.
  intros Hch Hnever Hn Hw.
  destruct (challenged_run function handle_captcha max_retries backoff_factor
              error_types (Z.to_nat max_retries + 1) Hch Hnever
              (mkRState 0 initial_wait w []))
    as (s' & Hrun & Hcalls & Hcaptcha & Hdelays); simpl; try lia; try exact Hw.
  exists s'. split; [|split; [|split]].
  - intros fuel Hfuel. unfold wrapper. apply Hrun. lia.
  - rewrite Hcalls. simpl. lia.
  - rewrite Hcaptcha. simpl. lia.
  - exact Hdelays.
Qed.

Lemma unsolved_captcha_run_witness :
  exists s',
    wrapper captcha_page never_solved 3 2 1 any_exception true 5 0%nat
    = Some (Raise (RetriesExhausted 3), s')
    /\ calls (log s') = 4%nat
    /\ delays (log s') = [2; 4; 8; 16].
Proof.
  destruct (unsolved_captcha_run captcha_page never_solved 3 2 1 any_exception 0%nat)
    as (s' & Hrun & Hcalls & _ & Hdelays); try lia.
  - intros w. eexists _, _, _. repeat split; reflexivity.
  - intros r w. exists w. reflexivity.
  - change (geometric (1 * 2) 2 (Z.to_nat 3 + 1)) with [2; 4; 8; 16].
    repeat (constructor; [unfold sleepable, longest_sleep; lia|]).
    constructor.
  - exists s'. split; [apply Hrun; simpl; lia|].
    split; [exact Hcalls|exact Hdelays].
Defined.

(** ** Loading and handing out proxies *)

Lemma filter_sublist {A : Type} (f : A -> bool) (l : list A) :
  sublist (List.filter f l) l.
Proof.
  induction l as [|x l IH]; simpl; [constructor|].
  destruct (f x); [apply sublist_skip|apply sublist_cons]; exact IH.
Qed.

Lemma test_proxies_in (probe : string -> option Z) (proxy_list : list string)
    (max_test : nat) (proxy : string) :
  In proxy (test_proxies probe proxy_list max_test) <->
  In proxy (take max_test proxy_list) /\ probe proxy = Some 200.
Proof.
  unfold test_proxies. rewrite filter_In.
  replace (take (Nat.min (length proxy_list) max_test) proxy_list)
    with (take max_test proxy_list).
  2:{ destruct (Nat.le_ge_cases (length proxy_list) max_test) as [Hle|Hge].
      - rewrite Nat.min_l by exact Hle. rewrite !take_ge by lia. reflexivity.
      - rewrite Nat.min_r by exact Hge. reflexivity. }
  split; intros [Hin Hp]; (split; [exact Hin|]).
  - destruct (probe proxy) as [code|]; [|discriminate].
    apply Z.eqb_eq in Hp. rewrite Hp. reflexivity.
  - rewrite Hp. reflexivity.
Qed.

Lemma test_proxies_length (probe : string -> option Z) (proxy_list : list string)
    (max_test : nat) :
  (length (test_proxies probe proxy_list max_test)
   <= Nat.min (length proxy_list) max_test)%nat.
Proof.
  unfold test_proxies.
  pose proof (sublist_length _ _
                (filter_sublist
                   (fun proxy => match probe proxy with
                                 | Some code => code =? 200
                                 | None => false
                                 end)
                   (take (Nat.min (length proxy_list) max_test) proxy_list))) as H.
  rewrite length_take in H. lia.
Qed.

(** X7.  [test_proxies] keeps, in their order, exactly the proxies among the
    first [max_test] candidates whose test request answered 200; a request
    that raises or answers another status drops the proxy, and the candidates
    after the first [max_test] are never tested. *)
Theorem test_proxies_keeps_working_ones (probe : string -> option Z)
    (proxy_list : list string) (max_test : nat) :
  sublist (test_proxies probe proxy_list max_test) (take max_test proxy_list)
  /\ (forall proxy,
        In proxy (test_proxies probe proxy_list max_test) <->
        In proxy (take max_test proxy_list) /\ probe proxy = Some 200)
  /\ (length (test_proxies probe proxy_list max_test)
      <= Nat.min (length proxy_list) max_test)%nat
  /\ (forall other_probe,
        (forall proxy, In proxy (take max_test proxy_list) ->
                       other_probe proxy = probe proxy) ->
        test_proxies other_probe proxy_list max_test
        = test_proxies probe proxy_list max_test).
Proof.
  split; [|split; [|split]].
  - unfold test_proxies.
    replace (take max_test proxy_list)
      with (take (Nat.min (length proxy_list) max_test) proxy_list).
    + apply filter_sublist.
    + destruct (Nat.le_ge_cases (length proxy_list) max_test) as [Hle|Hge].
      * rewrite Nat.min_l by exact Hle. rewrite !take_ge by lia. reflexivity.
      * rewrite Nat.min_r by exact Hge. reflexivity.
  - intros proxy. apply test_proxies_in.
  - apply test_proxies_length.
  - intros other_probe Hsame. unfold test_proxies.
    assert (Htake : take (Nat.min (length proxy_list) max_test) proxy_list
                    = take max_test proxy_list).
    { destruct (Nat.le_ge_cases (length proxy_list) max_test) as [Hle|Hge].
      - rewrite Nat.min_l by exact Hle. rewrite !take_ge by lia. reflexivity.
      - rewrite Nat.min_r by exact Hge. reflexivity. }
    rewrite Htake. revert Hsame. generalize (take max_test proxy_list).
    intros l Hsame. induction l as [|x l IH]; [reflexivity|].
    simpl. rewrite (Hsame x) by (left; reflexivity).
    rewrite IH by (intros p Hp; apply Hsame; right; exact Hp). reflexivity.
Qed.

Lemma rotation_empty (k : nat) (st : pool) :
  proxies st = [] -> rotation k st = (Ok (repeat None k), st).
Proof.
  intros Hempty. induction k as [|k IH]; [reflexivity|].
  simpl rotation. unfold bind at 1. unfold get_next_proxy at 1. rewrite Hempty.
  unfold bind. rewrite IH. reflexivity.
Qed.

(** X8.  From a new [ScrapingUtilities] object, after the pool has been
    loaded once, with any list, [get_next_proxy] can be called any number of
    times: it never raises, it never changes the pool, and each answer is
    [None] for an empty pool and an endpoint of the pool otherwise. *)
Theorem first_pool_never_raises (working_proxies : list string) (k : nat) :
  exists answers st',
    rotation k (load_proxies working_proxies init_pool) = (Ok answers, st')
    /\ length answers = k
    /\ proxies st' = working_proxies
    /\ (forall answer, In answer answers ->
          match answer with
          | None => working_proxies = []
          | Some proxy => In proxy working_proxies
          end).
Proof.
  destruct working_proxies as [|p ps].
  - rewrite rotation_empty by reflexivity.
    exists (repeat None k), (load_proxies [] init_pool).
    split; [reflexivity|]. split; [apply repeat_length|]. split; [reflexivity|].
    intros answer Hin. apply repeat_spec in Hin. subst answer. reflexivity.
  - rewrite rotation_round_robin by (simpl; lia).
    eexists _, _. split; [reflexivity|]. split; [|split; [reflexivity|]].
    + rewrite length_map, length_seq. reflexivity.
    + intros answer Hin. apply in_map_iff in Hin as (j & <- & _).
      simpl proxies. simpl current_proxy_index.
      destruct ((p :: ps) !! ((0 + j) mod length (p :: ps))%nat) as [x|] eqn:Hx.
      * apply list_elem_of_In. apply list_elem_of_lookup_2 in Hx. exact Hx.
      * apply lookup_ge_None in Hx.
        pose proof (Nat.mod_upper_bound (0 + j) (length (p :: ps))) as Hlt.
        simpl in Hlt, Hx. lia.
Qed.

Lemma load_proxies_cursor (l : list string) (st : pool) :
  current_proxy_index (load_proxies l st) = current_proxy_index st.
Proof. reflexivity. Qed.

(** X9.  [get_proxy_list] never moves the rotation cursor.  Either a source
    answered and the list returned is the new pool, or nothing could be
    loaded: then the call returns the empty list and the object is left as it
    was, old pool included.  The proxies of the paid service are stored as
    they are listed, without any test. *)
Theorem get_proxy_list_frame (src : proxy_sources) (api_key : option string)
    (free_proxies : bool) (st : pool) :
  current_proxy_index (snd (get_proxy_list src api_key free_proxies st))
  = current_proxy_index st
  /\ (proxies (snd (get_proxy_list src api_key free_proxies st))
      = fst (get_proxy_list src api_key free_proxies st)
      \/ (fst (get_proxy_list src api_key free_proxies st) = []
          /\ snd (get_proxy_list src api_key free_proxies st) = st))
  /\ (forall key entries,
        api_key = Some key -> key <> "" ->
        paid_service src key = Ok (200, Ok entries) ->
        fst (get_proxy_list src api_key free_proxies st)
        = map (fun p => endpoint (fst p) (snd p)) entries).
Proof.
  unfold get_proxy_list. split; [|split].
  - destruct (paid_proxies src api_key); [reflexivity|].
    destruct free_proxies; [|reflexivity].
    destruct (free_listing src); reflexivity.
  - destruct (paid_proxies src api_key); [left; reflexivity|].
    destruct free_proxies; [|right; split; reflexivity].
    destruct (free_listing src); [left; reflexivity|right; split; reflexivity].
  - intros key entries -> Hkey Hpaid. unfold paid_proxies.
    destruct key as [|c key]; [contradiction|]. rewrite Hpaid. reflexivity.
Qed.

Lemma get_proxy_list_examples :
  get_proxy_list sample_sources (Some "key") true (mkPool ["10.9.9.9:80"] 0)
  = (["10.0.0.2:3128"], mkPool ["10.0.0.2:3128"] 0)
  /\ get_proxy_list sample_sources (Some "key") false (mkPool ["10.9.9.9:80"] 0)
     = ([], mkPool ["10.9.9.9:80"] 0).
Proof.
  split; reflexivity.
Qed.

(** X10.  Without a usable answer of the paid service, the proxies that
    [get_proxy_list] returns all passed the test request with status 200,
    they come from the first twenty rows of the listing that have two cells
    at least, and there are twenty of them at most. *)
Theorem free_proxies_are_tested (src : proxy_sources) (api_key : option string)
    (free_proxies : bool) (st : pool) :
  paid_proxies src api_key = None ->
  (length (fst (get_proxy_list src api_key free_proxies st)) <= 20)%nat
  /\ forall proxy,
       In proxy (fst (get_proxy_list src api_key free_proxies st)) ->
       probe src proxy = Some 200
       /\ exists rows,
            free_listing src = Ok rows
            /\ In proxy (take 20 (listed_proxies rows)).
Proof.
  intros Hpaid. unfold get_proxy_list. rewrite Hpaid.
  destruct free_proxies; [|split; [simpl; lia|intros proxy []]].
  destruct (free_listing src) as [rows|e]; [|split; [simpl; lia|intros proxy []]].
  simpl fst. split.
  - pose proof (test_proxies_length (probe src) (listed_proxies rows) 20). lia.
  - intros proxy Hin. apply test_proxies_in in Hin as [Hin Hp].
    split; [exact Hp|]. exists rows. split; [reflexivity|exact Hin].
Qed.

Lemma free_proxies_are_tested_witness :
  paid_proxies sample_sources None = None
  /\ fst (get_proxy_list sample_sources None true init_pool) = ["10.0.0.2:3128"]
  /\ probe sample_sources "10.0.0.2:3128" = Some 200.
Proof.
  assert (Hnone : paid_proxies sample_sources None = None) by reflexivity.
  split; [exact Hnone|]. split; [reflexivity|].
  destruct (free_proxies_are_tested sample_sources None true init_pool Hnone)
    as [_ Hall].
  destruct (Hall "10.0.0.2:3128") as [Hp _]; [left; reflexivity|exact Hp].
Defined.

(** X11.  [add_proxy_to_driver] adds one argument at most, at the end, and
    only for a non-empty address that was passed in or that is in the pool;
    a proxy passed in leaves the rotation where it was. *)
Theorem add_proxy_to_driver_adds_known_proxy (chrome_options : list string)
    (proxy : option string) (st st' : pool) (options' : list string) :
  add_proxy_to_driver chrome_options proxy st = (Ok options', st') ->
  (options' = chrome_options
   \/ exists address,
        options' = (chrome_options ++ [String.append "--proxy-server=" address])%list
        /\ address <> ""
        /\ (proxy = Some address \/ (proxy = None /\ In address (proxies st))))
  /\ (proxy <> None -> st' = st)
  /\ proxies st' = proxies st.
Proof.
  unfold add_proxy_to_driver, bind. destruct proxy as [address|].
  - unfold ret. destruct address as [|c address]; intros H; injection H as <- <-.
    + split; [left; reflexivity|]. split; reflexivity.
    + split; [|split; reflexivity]. right. exists (String c address).
      split; [reflexivity|]. split; [discriminate|left; reflexivity].
  - unfold get_next_proxy. destruct (proxies st) as [|p ps] eqn:Hp.
    + unfold ret. intros H. injection H as <- <-.
      split; [left; reflexivity|]. split; [intros Hn; contradiction|].
      cbn; congruence.
    + destruct ((p :: ps) !! current_proxy_index st) as [x|] eqn:Hx; [|discriminate].
      destruct x as [|c x]; unfold ret; intros H; injection H as <- <-.
      * split; [left; reflexivity|]. split; [intros Hn; contradiction|].
        cbn; congruence.
      * split; [|split; [intros Hn; contradiction|cbn; congruence]].
        right. exists (String c x). split; [reflexivity|].
        split; [discriminate|]. right. split; [reflexivity|].
        apply list_elem_of_In. apply list_elem_of_lookup_2 in Hx. exact Hx.
Qed.

Lemma add_proxy_to_driver_adds_known_proxy_witness :
  add_proxy_to_driver ["--headless"] None loaded_pool
  = (Ok ["--headless"; "--proxy-server=10.0.0.1:8080"], mkPool candidate_proxies 1)
  /\ proxies (mkPool candidate_proxies 1) = proxies loaded_pool.
Proof.
  assert (Hrun : add_proxy_to_driver ["--headless"] None loaded_pool
                 = (Ok ["--headless"; "--proxy-server=10.0.0.1:8080"],
                    mkPool candidate_proxies 1)) by reflexivity.
  split; [exact Hrun|].
  destruct (add_proxy_to_driver_adds_known_proxy _ _ _ _ _ Hrun) as (_ & _ & H).
  exact H.
Defined.

(** ** CAPTCHA and block detection, in general *)

Lemma captcha_detected_false (d : driver) (captcha_iframe_selector : option string) :
  (forall indicator e es, find_elements_xpath d indicator <> Ok (e :: es)) ->
  captcha_detected d captcha_iframe_selector = false.
Proof.
  intros Hnone. destruct (captcha_detected d captcha_iframe_selector) eqn:Hd;
    [|reflexivity].
  apply captcha_detected_iff in Hd as (x & e & es & _ & Hf).
  exfalso. exact (Hnone x e es Hf).
Qed.

(** X12.  A page that only mentions CAPTCHAs.  When the result of the
    operation has "captcha" in its source while no CAPTCHA element is found
    on the page, be it that the lookups return nothing or that they raise,
    [handle_captcha] answers [True] at once, and the wrapper invokes the
    operation a second time and returns that second result: one invocation
    more, and no delay. *)
Theorem mention_of_captcha_costs_one_invocation {W : Type}
    (function : W -> Exc result * W) (driver_of : result -> driver)
    (polls : list driver)
    (max_retries backoff_factor initial_wait : Z) (error_types : exn -> bool)
    (w w1 w2 : W) (r1 r2 : result) (src : string) (fuel : nat) :
  function w = (Ok r1, w1) ->
  res_page_source r1 = Some src ->
  looks_like_captcha src = true ->
  (forall indicator e es,
     find_elements_xpath (driver_of r1) indicator <> Ok (e :: es)) ->
  function w1 = (Ok r2, w2) ->
  0 <= max_retries ->
  handle_captcha (driver_of r1) None true polls = true
  /\ wrapper function (default_handler driver_of polls) max_retries backoff_factor
             initial_wait error_types true (S fuel) w
     = Some (Ok r2, mkRState 0 initial_wait w2
                             [EvCall None; EvCaptcha true; EvCall None]).
Proof.
  intros Hf1 Hsrc Hlooks Hnone Hf2 Hn.
  assert (Hh : handle_captcha (driver_of r1) None true polls = true).
  { unfold handle_captcha. rewrite (captcha_detected_false _ None Hnone). reflexivity. }
  split; [exact Hh|].
  unfold wrapper. simpl.
  replace (0 <=? max_retries) with true by (symmetry; apply Z.leb_le; exact Hn).
  unfold iteration, catch, try_body, bind, call_function, call_handle_captcha,
    default_handler, ret.
  simpl. rewrite Hf1. simpl. rewrite Hsrc, Hlooks. simpl.
  rewrite Hh. simpl. rewrite Hf2. reflexivity.
Qed.

Lemma mention_of_captcha_costs_one_invocation_witness :
  looks_like_captcha (page_source article_page) = true
  /\ wrapper (fun w : nat => (Ok (mkResult "driver" (Some (page_source article_page))), S w))
             (default_handler (fun _ => article_page) []) 3 2 1 any_exception true 1 0%nat
     = Some (Ok (mkResult "driver" (Some (page_source article_page))),
             mkRState 0 1 2%nat [EvCall None; EvCaptcha true; EvCall None]).
Proof.
  split; [reflexivity|].
  apply (mention_of_captcha_costs_one_invocation
           (fun w : nat => (Ok (mkResult "driver" (Some (page_source article_page))), S w))
           (fun _ => article_page) [] 3 2 1 any_exception 0%nat 1%nat 2%nat
           (mkResult "driver" (Some (page_source article_page)))
           (mkResult "driver" (Some (page_source article_page)))
           (page_source article_page) 0%nat); try reflexivity.
  - intros indicator e es. unfold article_page. simpl.
    destruct (String.eqb indicator "//input[@id='captcha']"); discriminate.
  - lia.
Defined.

Lemma lower_ascii_not_upper (c : ascii) : is_upper (lower_ascii c) = false.
Proof.
  destruct c as [[] [] [] [] [] [] [] []]; reflexivity.
Qed.

Lemma has_upper_lower (s : string) : has_upper (lower s) = false.
Proof.
  induction s as [|c s IH]; [reflexivity|].
  simpl. rewrite lower_ascii_not_upper, IH. reflexivity.
Qed.

Lemma has_upper_app (a b : string) :
  has_upper (a ++ b) = (has_upper a || has_upper b)%bool.
Proof.
  induction a as [|c a IH]; [reflexivity|].
  change (has_upper (String c (a ++ b))
          = (is_upper c || has_upper a || has_upper b)%bool).
  simpl. rewrite IH, orb_assoc. reflexivity.
Qed.

Lemma upper_never_in_lower (indicator s : string) :
  has_upper indicator = true -> contains indicator (lower s) = false.
Proof.
  intros Hup. destruct (contains indicator (lower s)) eqn:Hc; [|reflexivity].
  apply contains_app in Hc as (pre & post & Heq).
  pose proof (has_upper_lower s) as Hlow.
  rewrite Heq, !has_upper_app, Hup in Hlow.
  rewrite orb_true_r in Hlow. discriminate.
Qed.

(** X13.  [is_blocked] lower-cases the page and not the indicators: a custom
    indicator with a capital letter in it, such as "Forbidden", can never be
    found, and the answer is the same as without it. *)
Theorem capitalised_indicators_never_match (d : driver) (custom : list string) :
  (forall indicator, In indicator custom -> has_upper indicator = true) ->
  is_blocked d (Some custom) = is_blocked d None.
Proof.
  intros Hup. unfold is_blocked. rewrite app_nil_r, existsb_app.
  assert (Hnone : existsb (fun indicator => contains indicator (lower (page_source d)))
                          custom = false).
  { induction custom as [|x custom IH]; [reflexivity|].
    simpl. rewrite (upper_never_in_lower x _ (Hup x (or_introl eq_refl))).
    apply IH. intros y Hy. apply Hup. right. exact Hy. }
  rewrite Hnone, orb_false_r. reflexivity.
Qed.

Lemma capitalised_indicators_never_match_witness :
  contains "forbidden" (lower "<h1>403 Forbidden</h1>") = true
  /\ is_blocked (mkDriver "<h1>403 Forbidden</h1>" (fun _ => Ok []) (Ok None))
                (Some ["Forbidden"])
     = false.
Proof.
  split; [reflexivity|].
  rewrite (capitalised_indicators_never_match
             (mkDriver "<h1>403 Forbidden</h1>" (fun _ => Ok []) (Ok None))
             ["Forbidden"]).
  - reflexivity.
  - intros indicator [<-|[]]. reflexivity.
Defined.

(** ** [navigate_to_product] and [select_filter] *)

Ltac run_pilot p :=
  unfold BestBuyReviewScraper.navigate_to_product, catch_only, catch, bind,
    random_sleep, throw, ret;
  repeat
    (cbn [negb];
     match goal with
     | |- context [driver_get p ?u ?d] =>
         destruct (driver_get p u d) as [[[]|?] ?] eqn:?
     | |- context [wait_for p ?a ?b ?d] =>
         destruct (wait_for p a b d) as [[?|?] ?] eqn:?
     | |- context [execute_script p ?a ?b ?d] =>
         destruct (execute_script p a b d) as [[[]|?] ?] eqn:?
     | |- context [take_screenshot p ?a ?d] =>
         destruct (take_screenshot p a d) as [[[]|?] ?] eqn:?
     | |- context [is_wait_failure ?e] => destruct (is_wait_failure e) eqn:?
     end);
  cbn [negb].

(** X14.  [navigate_to_product] returns [False] in one case only: the page
    was requested and the wait for its body ended in a [TimeoutException] or
    [NoSuchElementException]; nothing is done on the driver after that.  Once
    the body is there the method returns [True] or raises: in particular it
    returns [True] when neither the reviews section nor the ratings section
    shows up and the last scroll and screenshot go through. *)
Theorem navigate_to_product_result {D E : Type} (p : pilot D E)
    (product_url : string) (d : D) :
  (forall d',
     BestBuyReviewScraper.navigate_to_product p product_url d = (Ok false, d') <->
     exists d0 e,
       driver_get p product_url d = (Ok tt, d0)
       /\ wait_for p "tag name" "body" d0 = (Raise e, d')
       /\ is_wait_failure e = true)
  /\ (forall d0 body d1 d2 e1 d3 e2 d4 d5 d6,
        driver_get p product_url d = (Ok tt, d0) ->
        wait_for p "tag name" "body" d0 = (Ok body, d1) ->
        execute_script p "window.scrollBy(0, 700);" None d1 = (Ok tt, d2) ->
        wait_for p "xpath"
          "//div[contains(@class, 'customer-reviews') or contains(text(), 'Customer Reviews')]"
          d2 = (Raise e1, d3) ->
        is_wait_failure e1 = true ->
        wait_for p "xpath"
          "//section[contains(@class, 'rating') or contains(@class, 'review') or contains(@id, 'review')]"
          d3 = (Raise e2, d4) ->
        is_wait_failure e2 = true ->
        execute_script p "window.scrollTo(0, document.body.scrollHeight * 0.7);"
                       None d4 = (Ok tt, d5) ->
        take_screenshot p "page_scroll.png" d5 = (Ok tt, d6) ->
        BestBuyReviewScraper.navigate_to_product p product_url d = (Ok true, d6)).
Proof.
  split.
  - intros d'. run_pilot p;
      (split;
       [ intros H; first [discriminate H | injection H as <-; eauto 10]
       | intros (d0' & e' & Hg & Hw & He); congruence ]).
  - intros d0 body d1 d2 e1 d3 e2 d4 d5 d6 Hget Hbody Hscroll Hw1 He1 Hw2 He2 Hto Hshot.
    unfold BestBuyReviewScraper.navigate_to_product, catch_only, catch, bind,
      random_sleep, throw, ret.
    rewrite Hget. cbn [negb]. rewrite Hbody. cbn [negb].
    rewrite Hscroll. cbn [negb]. rewrite Hw1. cbn [negb].
    rewrite He1, Hw2. cbn [negb]. rewrite He2, Hto. cbn [negb].
    rewrite Hshot. reflexivity.
Qed.

Lemma navigate_to_product_result_witness :
  BestBuyReviewScraper.navigate_to_product bare_page "https://www.bestbuy.ca/p/1" tt
  = (Ok true, tt)
  /\ BestBuyReviewScraper.navigate_to_product blank_page "https://www.bestbuy.ca/p/1" tt
     = (Ok false, tt).
Proof.
  destruct (navigate_to_product_result bare_page "https://www.bestbuy.ca/p/1" tt)
    as [_ Htrue].
  destruct (navigate_to_product_result blank_page "https://www.bestbuy.ca/p/1" tt)
    as [Hfalse _].
  split.
  - apply (Htrue tt "body" tt tt (OpFailure "TimeoutException") tt
                 (OpFailure "TimeoutException") tt tt tt); reflexivity.
  - apply Hfalse. exists tt, (OpFailure "TimeoutException").
    repeat split; reflexivity.
Defined.

Section SelectFilterFacts.

Context {D E : Type}.
Variable p : pilot D E.

Lemma click_any_returns (logs_text : bool) (elements : list E) :
  forall d, exists found d',
    BestBuyReviewScraper.click_any p logs_text elements d = (Ok found, d').
Proof.
  induction elements as [|element rest IH]; intros d; [eexists _, _; reflexivity|].
  simpl. unfold bind at 1. unfold catch.
  destruct (bind (click_element p element) _ d) as [[[|]|e] d1]; simpl.
  - eexists _, _; reflexivity.
  - apply IH.
  - apply IH.
Qed.

Lemma click_under_returns (logs_text : bool) (selectors : list string) :
  forall d, exists found d',
    BestBuyReviewScraper.click_under p logs_text selectors d = (Ok found, d').
Proof.
  induction selectors as [|selector rest IH]; intros d; [eexists _, _; reflexivity|].
  simpl. unfold bind at 1. unfold catch.
  destruct (bind (find_by_xpath p selector) _ d) as [[[|]|e] d1]; simpl.
  - eexists _, _; reflexivity.
  - apply IH.
  - apply IH.
Qed.

Lemma click_any_none (elements : list E) :
  click_never_counts p ->
  forall d, exists d', BestBuyReviewScraper.click_any p true elements d = (Ok false, d').
Proof.
  intros Hnever.
  induction elements as [|element rest IH]; intros d; [eexists; reflexivity|].
  simpl. unfold bind at 1. unfold catch, bind at 1.
  specialize (Hnever element d).
  destruct (click_element p element d) as [[[]|e] d1]; simpl.
  - destruct Hnever as (e & d2 & Htext).
    unfold bind at 1. unfold BestBuyReviewScraper.read_text, bind at 1.
    rewrite Htext. simpl. apply IH.
  - apply IH.
Qed.

Lemma click_under_none (selectors : list string) :
  click_never_counts p ->
  forall d, exists d',
    BestBuyReviewScraper.click_under p true selectors d = (Ok false, d').
Proof.
  intros Hnever.
  induction selectors as [|selector rest IH]; intros d; [eexists; reflexivity|].
  simpl. unfold bind at 1. unfold catch, bind at 1.
  destruct (find_by_xpath p selector d) as [[elements|e] d1]; simpl.
  - destruct (click_any_none elements Hnever d1) as (d2 & ->). simpl. apply IH.
  - apply IH.
Qed.

End SelectFilterFacts.

(** X15.  [select_filter] never raises: every run ends with [True] or
    [False].  It answers [False], whatever the option asked for, when no
    click counts: when each [element.click()] raises, or goes through and
    the read of [element.text] for the log message raises. *)
Theorem select_filter_result {D E : Type} (p : pilot D E) :
  (forall filter_option d, exists found d',
     BestBuyReviewScraper.select_filter p filter_option d = (Ok found, d'))
  /\ (click_never_counts p ->
      forall filter_option d, exists d',
        BestBuyReviewScraper.select_filter p filter_option d = (Ok false, d')).
Proof.
  split.
  - intros filter_option d. unfold BestBuyReviewScraper.select_filter, catch.
    destruct (bind _ _ d) as [[found|e] d']; eexists _, _; reflexivity.
  - intros Hnever filter_option d.
    unfold BestBuyReviewScraper.select_filter, catch, bind.
    destruct (click_under_none p filter_selectors Hnever d) as (d' & ->).
    exists d'. reflexivity.
Qed.

Lemma select_filter_result_witness :
  click_never_counts frozen_page
  /\ BestBuyReviewScraper.select_filter frozen_page "newest" tt = (Ok false, tt).
Proof.
  assert (Hnever : click_never_counts frozen_page) by (intros element []; exact I).
  split; [exact Hnever|].
  destruct (select_filter_result frozen_page) as [_ Hfalse].
  destruct (Hfalse Hnever "newest" tt) as ([] & Hrun). exact Hrun.
Defined.

(** ** [main] *)

Lemma filters_lookup (filter_choice : string) :
  filters !! filter_choice = Some (filter_option_of filter_choice)
  \/ (filters !! filter_choice = None /\ filter_option_of filter_choice = "most-helpful").
Proof.
  unfold filter_option_of.
  destruct (filters !! filter_choice) as [option|]; [left|right; split]; reflexivity.
Qed.

Lemma filters_values (filter_choice option : string) :
  filters !! filter_choice = Some option ->
  In option ["most-helpful"; "newest"; "highest-rating"; "lowest-rating"; "most-relevant"].
Proof.
  unfold filters. cbn [list_to_map foldr uncurry fst snd].
  repeat (rewrite lookup_insert_Some; intros [[_ <-]|[_ H]]; [simpl; tauto|revert H]).
  rewrite lookup_empty. discriminate.
Qed.

(** X16.  The option that [main] passes to [scrape_product_reviews] is
    always a key of [filter_mapping]: the fall-back "Most Relevant" of
    [select_filter] is never used from [main], and an answer that is none of
    "1" to "5" sorts by "Most Helpful". *)
Theorem filter_choice_is_known (filter_choice : string) :
  is_Some (filter_mapping !! filter_option_of filter_choice)
  /\ filter_mapping !! filter_option_of filter_choice
     = Some (filter_text (filter_option_of filter_choice))
  /\ (filters !! filter_choice = None ->
      filter_text (filter_option_of filter_choice) = "Most Helpful").
Proof.
  assert (Hin : In (filter_option_of filter_choice)
                   ["most-helpful"; "newest"; "highest-rating"; "lowest-rating";
                    "most-relevant"]).
  { destruct (filters_lookup filter_choice) as [H|[_ ->]].
    - exact (filters_values _ _ H).
    - simpl; tauto. }
  split; [|split].
  - simpl in Hin.
    destruct Hin as [<-|[<-|[<-|[<-|[<-|[]]]]]]; eexists; vm_compute; reflexivity.
  - simpl in Hin.
    destruct Hin as [<-|[<-|[<-|[<-|[<-|[]]]]]]; vm_compute; reflexivity.
  - intros Hnone. unfold filter_option_of. rewrite Hnone. vm_compute. reflexivity.
Qed.

Lemma filter_choice_is_known_examples :
  filter_text (filter_option_of "2") = "Newest"
  /\ filter_text (filter_option_of "newest") = "Most Helpful"
  /\ filter_text "by date" = "Most Relevant".
Proof. repeat split; vm_compute; reflexivity. Qed.

Lemma occurs_app (c : ascii) (s t : string) :
  occurs c (s ++ t) = (occurs c s || occurs c t)%bool.
Proof.
  induction s as [|c' s IH]; simpl; [reflexivity|].
  rewrite IH. apply orb_assoc.
Qed.

Lemma split_on_cons (sep : ascii) (s : string) :
  exists piece rest, split_on sep s = piece :: rest.
Proof.
  destruct s as [|c s]; simpl; [eexists _, _; reflexivity|].
  destruct (Ascii.eqb c sep); [eexists _, _; reflexivity|].
  destruct (split_on sep s); eexists _, _; reflexivity.
Qed.

Lemma join_split_on (sep : ascii) (s : string) :
  join (String sep "") (split_on sep s) = s.
Proof.
  induction s as [|c s IH]; [reflexivity|].
  simpl split_on.
  destruct (split_on_cons sep s) as (piece & rest & Hs).
  rewrite Hs in *.
  destruct (Ascii.eqb_spec c sep) as [->|Hc].
  - rewrite <- IH. reflexivity.
  - destruct rest as [|piece' rest]; rewrite <- IH; reflexivity.
Qed.

Lemma split_on_pieces (sep : ascii) (s : string) :
  Forall (fun piece => occurs sep piece = false) (split_on sep s).
Proof.
  induction s as [|c s IH]; [repeat constructor|].
  simpl split_on.
  destruct (Ascii.eqb_spec c sep) as [->|Hc].
  - constructor; [reflexivity|exact IH].
  - destruct (split_on sep s) as [|piece rest]; [repeat constructor; simpl|].
    + rewrite (proj2 (Ascii.eqb_neq c sep) Hc). reflexivity.
    + inversion IH as [|? ? Hpiece Hrest]; subst. constructor; [|exact Hrest].
      simpl. rewrite (proj2 (Ascii.eqb_neq c sep) Hc). exact Hpiece.
Qed.

Lemma split_on_plain (sep : ascii) (s : string) :
  occurs sep s = false -> split_on sep s = [s].
Proof.
  induction s as [|c s IH]; [reflexivity|].
  simpl. destruct (Ascii.eqb c sep); [discriminate|].
  simpl. intros H. rewrite (IH H). reflexivity.
Qed.

Lemma split_on_app (sep : ascii) (s t : string) :
  occurs sep s = false ->
  split_on sep (s ++ String sep t) = s :: split_on sep t.
Proof.
  induction s as [|c s IH]; intros Hs.
  - simpl. rewrite Ascii.eqb_refl. reflexivity.
  - simpl in *. destruct (Ascii.eqb c sep); [discriminate|].
    simpl in Hs. rewrite (IH Hs). reflexivity.
Qed.

Lemma last_split_on (sep : ascii) (s : string) :
  exists before, split_on sep s = (before ++ [List.last (split_on sep s) ""])%list.
Proof.
  destruct (split_on_cons sep s) as (piece & rest & Hs).
  exists (removelast (split_on sep s)).
  apply app_removelast_last. rewrite Hs. discriminate.
Qed.

Lemma last_split_on_sep (sep : ascii) (s : string) :
  List.last (split_on sep (s ++ String sep "")) "" = "".
Proof.
  induction s as [|c s IH].
  - simpl. rewrite Ascii.eqb_refl. reflexivity.
  - change ((String c s) ++ String sep "") with (String c (s ++ String sep "")).
    simpl split_on.
    destruct (split_on_cons sep (s ++ String sep "")) as (piece & rest & Hs).
    assert (Hrest : rest <> []).
    { intros ->. pose proof (split_on_pieces sep (s ++ String sep "")) as Hall.
      pose proof (join_split_on sep (s ++ String sep "")) as Hj.
      rewrite Hs in Hall, Hj. simpl in Hj. inversion Hall as [|? ? Hpiece ?]; subst.
      rewrite occurs_app in Hpiece. simpl in Hpiece.
      rewrite Ascii.eqb_refl, orb_true_r in Hpiece. discriminate. }
    rewrite Hs in *.
    destruct rest as [|piece' rest]; [contradiction|].
    destruct (Ascii.eqb c sep); exact IH.
Qed.

(** X17.  [product_id] is the part of the URL after its last "/": it holds
    no "/", the URL is its pieces joined by "/" with [product_id] as the last
    of them, and it is empty for a URL that ends in "/".  So the raw CSV file
    always lies in the directory [bestbuy_results] itself, whatever the URL. *)
Theorem product_id_is_last_piece (product_url : string) :
  occurs "/" (product_id product_url) = false
  /\ (exists before,
        split_on "/" product_url = (before ++ [product_id product_url])%list
        /\ join "/" (before ++ [product_id product_url]) = product_url)
  /\ product_id (product_url ++ "/") = ""
  /\ split_on "/" (raw_csv_path product_url)
     = ["bestbuy_results"; "bestbuy_" ++ product_id product_url ++ "_reviews_raw.csv"].
Proof.
  destruct (last_split_on "/" product_url) as (before & Hsplit).
  fold (product_id product_url) in Hsplit.
  assert (Hid : occurs "/" (product_id product_url) = false).
  { pose proof (split_on_pieces "/" product_url) as Hall.
    rewrite Hsplit in Hall. apply Forall_app in Hall as [_ Hall].
    inversion Hall; subst; assumption. }
  split; [exact Hid|]. split; [|split].
  - exists before. split; [exact Hsplit|].
    rewrite <- Hsplit. apply (join_split_on "/").
  - apply last_split_on_sep.
  - unfold raw_csv_path, path_join.
    change (split_on "/" ("bestbuy_results"
                          ++ String "/" ("bestbuy_" ++ product_id product_url
                                         ++ "_reviews_raw.csv"))
            = ["bestbuy_results";
               "bestbuy_" ++ product_id product_url ++ "_reviews_raw.csv"]).
    rewrite (split_on_app "/" "bestbuy_results") by reflexivity.
    rewrite split_on_plain; [reflexivity|].
    rewrite !occurs_app, Hid. reflexivity.
Qed.

Lemma product_id_is_last_piece_examples :
  product_id "https://www.bestbuy.ca/en-ca/product/sony-tv/15166386" = "15166386"
  /\ product_id "https://www.bestbuy.ca/en-ca/product/sony-tv/15166386/" = ""
  /\ raw_csv_path "https://www.bestbuy.ca/en-ca/product/sony-tv/15166386/"
     = "bestbuy_results/bestbuy__reviews_raw.csv".
Proof. repeat split; vm_compute; reflexivity. Qed.

(** ** The records of [parse_reviews] *)

Lemma built_records_ids (uuid4 : nat -> string) (glitch : node -> option exn)
    (fragments : list node) :
  forall drawn,
    sublist (map review_id (built_records uuid4 glitch drawn fragments))
            (map uuid4 (seq drawn (length fragments))).
Proof.
  induction fragments as [|review rest IH]; intros drawn; simpl; [constructor|].
  destruct (glitch review) as [e|]; simpl; [apply sublist_cons, IH|].
  destruct (build_record (uuid4 drawn) review) as [r|] eqn:Hr; simpl.
  - rewrite (proj1 (build_record_fields _ _ _ Hr)). apply sublist_skip, IH.
  - apply sublist_cons, IH.
Qed.

(** X18.  The loop of [parse_reviews] keeps the identifiers of
    [self.reviews] pairwise distinct, as long as the identifiers that
    [uuid.uuid4()] hands out during the run differ from each other and from
    those in use; it appends one record per fragment at most. *)
Theorem record_ids_stay_distinct {D : Type} (uuid4 : nat -> string)
    (glitch : node -> option exn) (fragments : list node) (s : scraper D) :
  NoDup (map review_id (reviews s)
         ++ map uuid4 (seq (uuids_drawn s) (length fragments)))%list ->
  NoDup (map review_id (reviews (snd (parse_loop uuid4 glitch fragments s))))
  /\ (length (reviews (snd (parse_loop uuid4 glitch fragments s)))
      <= length (reviews s) + length fragments)%nat.
Proof.
  intros Hfresh. rewrite parse_loop_appends. cbn [snd reviews].
  pose proof (built_records_ids uuid4 glitch fragments (uuids_drawn s)) as Hsub.
  split.
  - rewrite map_app.
    eapply sublist_NoDup; first [exact Hfresh | apply sublist_app; [reflexivity|exact Hsub]].
  - apply sublist_length in Hsub.
    rewrite !length_map, length_seq in Hsub. rewrite length_app. lia.
Qed.

Lemma record_ids_stay_distinct_witness :
  NoDup (map review_id
           (reviews (snd (parse_loop numbered second_fails
                            (locate_reviews scenario_soup)
                            (mkScraper tt [] 0%nat))))).
Proof.
  apply (record_ids_stay_distinct numbered second_fails
           (locate_reviews scenario_soup) (mkScraper tt [] 0%nat)).
  apply (bool_decide_unpack _). vm_compute. exact I.
Defined.

Lemma digits_value_not_negative (s : string) :
  forall acc, 0 <= acc -> 0 <= digits_value acc s.
Proof.
  induction s as [|c s IH]; intros acc Hacc; simpl; [exact Hacc|].
  apply IH. lia.
Qed.

Lemma float_of_numeral_not_negative (s : string) : not_negative (float_of_numeral s).
Proof.
  unfold float_of_numeral.
  destruct (span_digits s) as [ds rest].
  assert (Hds : 0 <= digits_value 0 ds) by (apply digits_value_not_negative; lia).
  assert (Hwhole : not_negative (PyFloat (digits_value 0 ds # 1))).
  { simpl. unfold Qle. simpl. lia. }
  destruct rest as [|c fs]; [exact Hwhole|].
  destruct (Ascii.eqb_spec c ".") as [->|Hc].
  - simpl. rewrite Qred_correct. unfold Qle. simpl.
    pose proof (digits_value_not_negative fs _ Hds). lia.
  - destruct c as [[] [] [] [] [] [] [] []]; try exact Hwhole.
    contradiction Hc. reflexivity.
Qed.

Lemma numeric_rating_not_negative (texts : list string) (r : pynum) :
  numeric_rating texts = Some r -> not_negative r.
Proof.
  induction texts as [|elem rest IH]; simpl; [discriminate|].
  destruct (first_number elem) as [number|]; [|exact IH].
  intros H. injection H as <-. apply float_of_numeral_not_negative.
Qed.

Lemma extract_rating_not_negative (review : node) : not_negative (extract_rating review).
Proof.
  unfold extract_rating.
  destruct (star_elements review) as [|star stars].
  - destruct (numeric_rating (rating_text_elements review)) as [r|] eqn:Hr.
    + exact (numeric_rating_not_negative _ _ Hr).
    + simpl. lia.
  - change (Z.of_nat (length (star :: stars)))
      with (Z.pos (Pos.of_succ_nat (length stars))).
    simpl. lia.
Qed.

Lemma normalize_date_not_empty (date_str : string) : normalize_date date_str <> "".
Proof.
  unfold normalize_date. destruct date_str as [|c date_str]; [discriminate|].
  unfold convert_date.
  destruct (contains "," (String c date_str)).
  - destruct (strptime_BdY (String c date_str)) as [date_obj|e]; [|discriminate].
    unfold strftime_Ymd. destruct (decimal (year date_obj)); discriminate.
  - destruct (contains "-" (String c date_str)); discriminate.
Qed.

Lemma build_record_well_formed (fresh_id : string) (review : node) (r : review_record) :
  build_record fresh_id review = Some r -> well_formed r.
Proof.
  intros Hr.
  destruct (build_record_fields _ _ _ Hr) as (_ & Htitle & Htext & Hdate & Hrating & Hsource & _).
  unfold well_formed. rewrite Htitle, Htext, Hdate, Hrating, Hsource.
  split; [reflexivity|]. split; [apply normalize_date_not_empty|].
  split; [|apply extract_rating_not_negative].
  revert Hr. unfold build_record.
  destruct (String.eqb_spec (extract_text review (extract_title review)) "") as [Ht|Ht];
    destruct (String.eqb_spec (extract_title review) no_title) as [Hn|Hn];
    simpl; try discriminate; tauto.
Qed.

Lemma built_records_well_formed (uuid4 : nat -> string) (glitch : node -> option exn)
    (fragments : list node) :
  forall drawn, Forall well_formed (built_records uuid4 glitch drawn fragments).
Proof.
  induction fragments as [|review rest IH]; intros drawn; simpl; [constructor|].
  destruct (glitch review) as [e|]; simpl; [apply IH|].
  destruct (build_record (uuid4 drawn) review) as [r|] eqn:Hr; simpl; [|apply IH].
  constructor; [exact (build_record_well_formed _ _ _ Hr)|apply IH].
Qed.

(** What a run of [parse_reviews] appends. *)
Lemma parse_reviews_appends {D E} (b : browser D E) (uuid4 : nat -> string)
    (glitch : node -> option exn) (s : scraper D) :
  reviews (snd (parse_reviews b uuid4 glitch s)) = reviews s
  \/ exists soup,
       reviews (snd (parse_reviews b uuid4 glitch s))
       = (reviews s ++ built_records uuid4 glitch (uuids_drawn s) (locate_reviews soup))%list.
Proof.
  unfold parse_reviews, bind, on_driver.
  destruct (save_screenshot b "before_parsing.png" (the_driver s)) as [[[]|e] d1];
    [|left; reflexivity].
  cbn [the_driver].
  destruct (read_soup b d1) as [[soup|e] d2]; [|left; reflexivity].
  right. exists soup. rewrite parse_loop_appends. reflexivity.
Qed.

(** What a run of the [try] block of [scrape_product_reviews] appends, and
    what it returns. *)
Lemma scrape_body_appends {D E} (b : browser D E) (uuid4 : nat -> string)
    (glitch : node -> option exn) (fuel : nat) (product_url filter_option : string)
    (max_reviews : option Z) (s : scraper D) (result : Exc (option (list review_record)))
    (s' : scraper D) :
  scrape_body b uuid4 glitch fuel product_url filter_option max_reviews s = (result, s') ->
  (reviews s' = reviews s /\ forall df, result <> Ok (Some df))
  \/ exists soup,
       reviews s'
       = (reviews s ++ built_records uuid4 glitch (uuids_drawn s) (locate_reviews soup))%list
       /\ forall df, result = Ok (Some df) -> df = reviews s' /\ df <> [].
Proof.
  unfold scrape_body, bind, on_driver.
  destruct (navigate_to_product b product_url (the_driver s)) as [[arrived|e] d1];
    [|cbn [the_driver reviews uuids_drawn]; intros H; injection H as <- <-; left; split; [reflexivity|discriminate]].
  destruct arrived; cbn [negb];
    [|cbn [the_driver reviews uuids_drawn]; intros H; injection H as <- <-; left; split; [reflexivity|discriminate]].
  cbn [the_driver].
  destruct (select_filter b filter_option d1) as [found d2].
  cbn [the_driver reviews uuids_drawn].
  destruct (load_all_reviews b fuel max_reviews d2) as [[report|e] d3];
    [|cbn [the_driver reviews uuids_drawn]; intros H; injection H as <- <-; left; split; [reflexivity|discriminate]].
  unfold parse_reviews, bind, on_driver. cbn [the_driver].
  destruct (save_screenshot b "before_parsing.png" d3) as [[[]|e] d4];
    [|cbn [the_driver reviews uuids_drawn]; intros H; injection H as <- <-; left; split; [reflexivity|discriminate]].
  cbn [the_driver reviews uuids_drawn].
  destruct (read_soup b d4) as [[soup|e] d5];
    [|cbn [the_driver reviews uuids_drawn]; intros H; injection H as <- <-; left; split; [reflexivity|discriminate]].
  rewrite parse_loop_appends. cbn [the_driver reviews uuids_drawn].
  unfold save_to_csv, bind, get_reviews, on_driver, ret. cbn [reviews the_driver uuids_drawn].
  destruct (reviews s ++ built_records uuid4 glitch (uuids_drawn s) (locate_reviews soup))%list
    as [|r rs] eqn:Hrs.
  - intros H; injection H as <- <-. right. exists soup. cbn [reviews].
    split; [symmetry; exact Hrs|]. intros df H. discriminate H.
  - cbn [reviews the_driver uuids_drawn].
    destruct (to_csv b (r :: rs) "bestbuy_reviews.csv" d5) as [[[]|e] d6];
      cbn [reviews the_driver uuids_drawn]; intros H; injection H as <- <-; right; exists soup; cbn [reviews];
      (split; [symmetry; exact Hrs|]); intros df H.
    + injection H as <-. split; [reflexivity|discriminate].
    + discriminate H.
Qed.

(** X19.  Every record of [self.reviews] is well formed after
    [parse_reviews] and after [scrape_product_reviews] when it was so
    before: its source is "BestBuy Canada", its date is never empty, its
    rating is not negative, and it has a body text or a title other than
    "No Title". *)
Theorem records_stay_well_formed {D E : Type} (b : browser D E)
    (uuid4 : nat -> string) (glitch : node -> option exn) (fuel : nat)
    (product_url filter_option : string) (max_reviews : option Z) (s : scraper D) :
  Forall well_formed (reviews s) ->
  Forall well_formed (reviews (snd (parse_reviews b uuid4 glitch s)))
  /\ Forall well_formed
       (reviews (snd (scrape_product_reviews b uuid4 glitch fuel product_url
                                             filter_option max_reviews s))).
Proof.
  intros Hs. split.
  - destruct (parse_reviews_appends b uuid4 glitch s) as [->|(soup & ->)];
      [exact Hs|].
    apply Forall_app. split; [exact Hs|apply built_records_well_formed].
  - unfold scrape_product_reviews, catch.
    destruct (scrape_body b uuid4 glitch fuel product_url filter_option max_reviews s)
      as [[df|e] s'] eqn:Hrun;
      apply scrape_body_appends in Hrun; cbn [snd fst ret];
      (destruct Hrun as [[-> _]|(soup & -> & _)]; [exact Hs|]);
      apply Forall_app; (split; [exact Hs|apply built_records_well_formed]).
Qed.

Lemma records_stay_well_formed_witness :
  Forall well_formed
    (reviews (snd (scrape_product_reviews button_browser numbered second_fails 6
                     "https://www.bestbuy.ca/p/1" "newest" None
                     (mkScraper tt [] 0%nat)))).
Proof.
  apply (records_stay_well_formed button_browser numbered second_fails 6
           "https://www.bestbuy.ca/p/1" "newest" None (mkScraper tt [] 0%nat)).
  constructor.
Defined.

(** X20.  When [scrape_product_reviews] returns a data frame, the frame is
    the whole of [self.reviews], which is not empty: the records that were
    there before the run, then those of this run.  [self.reviews] is never
    emptied, so a second run on the same scraper returns the records of the
    first run again. *)
Theorem scrape_returns_all_reviews {D E : Type} (b : browser D E)
    (uuid4 : nat -> string) (glitch : node -> option exn) (fuel : nat)
    (product_url filter_option : string) (max_reviews : option Z) (s : scraper D)
    (df : list review_record) :
  fst (scrape_product_reviews b uuid4 glitch fuel product_url filter_option
                              max_reviews s) = Ok (Some df) ->
  df = reviews (snd (scrape_product_reviews b uuid4 glitch fuel product_url
                                            filter_option max_reviews s))
  /\ df <> []
  /\ exists soup,
       df = (reviews s
             ++ built_records uuid4 glitch (uuids_drawn s) (locate_reviews soup))%list.
Proof.
  unfold scrape_product_reviews, catch.
  destruct (scrape_body b uuid4 glitch fuel product_url filter_option max_reviews s)
    as [[result|e] s'] eqn:Hrun; cbn [fst snd ret]; [|discriminate].
  apply scrape_body_appends in Hrun.
  intros H. injection H as ->.
  destruct Hrun as [[_ Hnone]|(soup & Hadded & Hsome)].
  - contradiction (Hnone df). reflexivity.
  - destruct (Hsome df eq_refl) as [-> Hne].
    split; [reflexivity|]. split; [exact Hne|]. exists soup. exact Hadded.
Qed.

Lemma scrape_returns_all_reviews_witness :
  exists soup,
    reviews (snd (scrape_product_reviews button_browser numbered second_fails 6
                    "https://www.bestbuy.ca/p/1" "newest" None
                    (mkScraper tt [] 0%nat)))
    = ([] ++ built_records numbered second_fails 0 (locate_reviews soup))%list.
Proof.
  destruct (scrape_returns_all_reviews button_browser numbered second_fails 6
              "https://www.bestbuy.ca/p/1" "newest" None (mkScraper tt [] 0%nat)
              (reviews (snd (scrape_product_reviews button_browser numbered
                               second_fails 6 "https://www.bestbuy.ca/p/1" "newest"
                               None (mkScraper tt [] 0%nat)))))
    as (_ & _ & soup & Hsoup).
  - vm_compute. reflexivity.
  - exists soup. exact Hsoup.
Defined.

(** ** [review_text] *)

Lemma longest_text (candidates : list node) :
  forall init chosen : string,
    chosen = fold_left (fun review_text elem =>
                          if is_text_candidate elem then
                            if (String.length review_text <? String.length (get_text elem))%nat
                            then get_text elem else review_text
                          else review_text)
                       candidates init ->
    (String.length init <= String.length chosen)%nat
    /\ (forall elem, In elem candidates -> is_text_candidate elem = true ->
          (String.length (get_text elem) <= String.length chosen)%nat)
    /\ (chosen = init
        \/ exists elem, In elem candidates /\ is_text_candidate elem = true
                        /\ chosen = get_text elem).
Proof.
  induction candidates as [|candidate rest IH]; intros init chosen Hchosen.
  - simpl in Hchosen. subst chosen.
    split; [lia|]. split; [intros elem []|left; reflexivity].
  - cbn [fold_left] in Hchosen.
    destruct (is_text_candidate candidate) eqn:Hcandidate.
    + destruct (Nat.ltb_spec (String.length init) (String.length (get_text candidate)))
        as [Hlt|Hge].
      * destruct (IH _ _ Hchosen) as (Hlen & Hall & Hwhich).
        split; [lia|]. split.
        -- intros elem [<-|Hin] Helem; [exact Hlen|exact (Hall elem Hin Helem)].
        -- right. destruct Hwhich as [Hwhich|(elem & Hin & Helem & Hwhich)].
           ++ exists candidate. split; [left; reflexivity|]. split; assumption.
           ++ exists elem. split; [right; exact Hin|]. split; assumption.
      * destruct (IH _ _ Hchosen) as (Hlen & Hall & Hwhich).
        split; [exact Hlen|]. split.
        -- intros elem [<-|Hin] Helem; [lia|exact (Hall elem Hin Helem)].
        -- destruct Hwhich as [Hwhich|(elem & Hin & Helem & Hwhich)]; [left; exact Hwhich|].
           right. exists elem. split; [right; exact Hin|]. split; assumption.
    + destruct (IH _ _ Hchosen) as (Hlen & Hall & Hwhich).
      split; [exact Hlen|]. split.
      * intros elem [<-|Hin] Helem; [congruence|exact (Hall elem Hin Helem)].
      * destruct Hwhich as [Hwhich|(elem & Hin & Helem & Hwhich)]; [left; exact Hwhich|].
        right. exists elem. split; [right; exact Hin|]. split; assumption.
Qed.

(** X21.  [review_text] is the longest text among the candidates of the
    fragment (its [p] elements and the elements whose class holds the token
    [content]): no candidate has a longer text, and when one of them has some
    text the result is the text of a candidate, whatever the title.  Only
    when every candidate is empty is the text of the whole fragment used,
    without the first occurrence of the title. *)
Theorem review_text_is_longest_candidate (review : node) (title : string) :
  (forall elem, In elem (text_candidates review) ->
     (String.length (get_text elem)
      <= String.length (extract_text review title))%nat)
  /\ ((exists elem, In elem (text_candidates review) /\ get_text elem <> "") ->
      exists elem, In elem (text_candidates review)
                   /\ extract_text review title = get_text elem)
  /\ ((forall elem, In elem (text_candidates review) -> get_text elem = "") ->
      extract_text review title
      = if contains title (get_text review)
        then strip (remove_first title (get_text review))
        else get_text review).
Proof.
  unfold extract_text, text_candidates. cbv zeta.
  set (chosen := fold_left _ _ "").
  destruct (longest_text (find_all ["p"; "div"; "span"] None review) "" chosen eq_refl)
    as (_ & Hall & Hwhich).
  clearbody chosen.
  assert (Hempty : chosen = "" ->
                   forall elem,
                     In elem (List.filter is_text_candidate
                                (find_all ["p"; "div"; "span"] None review)) ->
                     get_text elem = "").
  { intros Hchosen elem Hin. apply filter_In in Hin as [Hin Helem].
    specialize (Hall elem Hin Helem). rewrite Hchosen in Hall.
    destruct (get_text elem); [reflexivity|simpl in Hall; lia]. }
  split; [|split].
  - intros elem Hin.
    destruct chosen as [|c chosen'].
    + rewrite (Hempty eq_refl elem Hin). simpl. lia.
    + apply filter_In in Hin as [Hin Helem]. exact (Hall elem Hin Helem).
  - intros (elem & Hin & Htext).
    destruct chosen as [|c chosen'].
    + contradiction Htext. exact (Hempty eq_refl elem Hin).
    + destruct Hwhich as [Hwhich|(found & Hin' & Hfound & Hwhich)]; [discriminate|].
      exists found. split; [|exact Hwhich].
      apply filter_In. split; assumption.
  - intros Hnone.
    destruct chosen as [|c chosen']; [reflexivity|].
    destruct Hwhich as [Hwhich|(found & Hin' & Hfound & Hwhich)]; [discriminate|].
    rewrite (Hnone found) in Hwhich by (apply filter_In; split; assumption).
    discriminate.
Qed.

Lemma review_text_is_longest_candidate_witness :
  (exists elem, In elem (text_candidates long_fragment)
                /\ extract_text long_fragment "Solid" = get_text elem)
  /\ extract_text long_fragment "Solid" = "Another account, as long"
  /\ extract_text noise_fragment "No Title" = "".
Proof.
  destruct (review_text_is_longest_candidate long_fragment "Solid") as (_ & Hsome & _).
  destruct (review_text_is_longest_candidate noise_fragment "No Title") as (_ & _ & Hnone).
  split; [|split].
  - apply Hsome. exists (Elem "p" None [Text "Short"]).
    split; [vm_compute; tauto|discriminate].
  - vm_compute. reflexivity.
  - rewrite Hnone; [vm_compute; reflexivity|].
    intros elem Hin. vm_compute in Hin. contradiction.
Defined.

(** ** [load_all_reviews] never clicks *)

Section NeverClicks.

Context {D E : Type}.
Variable b : browser D E.
Variable click' : E -> M D unit.

Lemma click_first_with_click (elements : list E) :
  forall d, click_first (with_click b click') elements d = click_first b elements d.
Proof.
  induction elements as [|element rest IH]; intros d; [reflexivity|].
  simpl. unfold bind. cbn [with_click is_displayed is_enabled scroll_into_view].
  destruct (is_displayed b element d) as [[displayed|e] d1]; [|reflexivity].
  destruct displayed.
  - destruct (is_enabled b element d1) as [[usable|e] d2]; [|reflexivity].
    destruct usable; [|apply IH].
    destruct (scroll_into_view b element d2) as [[[]|e] d3]; reflexivity.
  - unfold ret. apply IH.
Qed.

Lemma try_show_more_with_click (selectors : list string) :
  forall d, try_show_more (with_click b click') selectors d = try_show_more b selectors d.
Proof.
  induction selectors as [|selector rest IH]; intros d; [reflexivity|].
  simpl. unfold bind at 1 3. unfold catch, bind at 1 2.
  cbn [with_click find_elements].
  destruct (find_elements b selector d) as [[elements|e] d1].
  - rewrite click_first_with_click.
    destruct (click_first b elements d1) as [[[|]|e] d2]; simpl; [reflexivity|apply IH|apply IH].
  - simpl. apply IH.
Qed.

Lemma attempt_with_click (working_selector : option string) (max_reviews : option Z)
    (attempts : nat) (d : D) :
  attempt (with_click b click') working_selector max_reviews attempts d
  = attempt b working_selector max_reviews attempts d.
Proof.
  unfold attempt, bind.
  change (count_reviews (with_click b click') working_selector)
    with (count_reviews b working_selector).
  destruct (count_reviews b working_selector d) as [[current|e] d1]; [|reflexivity].
  cbn [with_click save_screenshot].
  destruct (save_screenshot b _ d1) as [[[]|e] d2]; [|reflexivity].
  destruct (reached_max max_reviews current); [reflexivity|].
  rewrite try_show_more_with_click.
  destruct (try_show_more b show_more_selectors d2) as [[clicked|e] d3]; reflexivity.
Qed.

Lemma attempts_loop_ext (body body' : nat -> M D (ctl break_reason)) (fuel : nat) :
  (forall attempts d, body attempts d = body' attempts d) ->
  forall attempts d, attempts_loop body fuel attempts d = attempts_loop body' fuel attempts d.
Proof.
  intros Hbody. induction fuel as [|fuel IH]; intros attempts d; [reflexivity|].
  simpl. destruct (attempts <? max_attempts)%nat; [|reflexivity].
  unfold bind, catch. rewrite Hbody.
  destruct (body' (attempts + 1)%nat d) as [[[reason|]|e] d1]; simpl;
    [reflexivity|apply IH|reflexivity].
Qed.

Lemma attempt_outcome (working_selector : option string) (max_reviews : option Z)
    (attempts : nat) (d : D) :
  exists d',
    attempt b working_selector max_reviews attempts d = (Ok (Return ReachedMax), d')
    \/ attempt b working_selector max_reviews attempts d = (Ok (Return NoButton), d')
    \/ exists e, attempt b working_selector max_reviews attempts d = (Raise e, d').
Proof.
  unfold attempt, bind.
  destruct (count_reviews b working_selector d) as [[current|e] d1];
    [|exists d1; right; right; exists e; reflexivity].
  destruct (save_screenshot b _ d1) as [[[]|e] d2];
    [|exists d2; right; right; exists e; reflexivity].
  destruct (reached_max max_reviews current); [exists d2; left; reflexivity|].
  destruct (try_show_more_false b show_more_selectors d2) as (d3 & ->).
  exists d3. right. left. reflexivity.
Qed.

End NeverClicks.

(** X22.  [load_all_reviews] never clicks a "show more" button: the call
    [self.random_sleep(1, 2)] before [element.click()] raises, so the outcome
    is the same whatever [element.click()] would do.  The loop makes one turn
    and is left because the maximum is reached, because no button was
    clicked, or because of an exception; never because a click added no
    review, and never because the attempts are used up. *)
Theorem load_all_reviews_never_clicks {D E : Type} (b : browser D E)
    (click' : E -> M D unit) (fuel : nat) (max_reviews : option Z) (d : D) :
  load_all_reviews (with_click b click') fuel max_reviews d
  = load_all_reviews b fuel max_reviews d
  /\ match fst (load_all_reviews b (S fuel) max_reviews d) with
     | Ok report =>
         attempts_made report = 1%nat
         /\ (stopped_by report = Break ReachedMax
             \/ stopped_by report = Break NoButton
             \/ exists e, stopped_by report = Errored e)
     | Raise _ => True
     end.
Proof.
  split.
  - unfold load_all_reviews, bind. cbn [with_click save_screenshot].
    destruct (save_screenshot b "before_loading_reviews.png" d) as [[[]|e] d1];
      [|reflexivity].
    change (find_working_selector (with_click b click') load_selectors)
      with (find_working_selector b load_selectors).
    destruct (find_working_selector b load_selectors d1) as [[ws|e] d2]; [|reflexivity].
    unfold show_more_loop.
    rewrite (attempts_loop_ext _ (attempt b ws max_reviews) fuel
               (attempt_with_click b click' ws max_reviews)).
    reflexivity.
  - unfold load_all_reviews, bind.
    destruct (save_screenshot b "before_loading_reviews.png" d) as [[[]|e] d1];
      [|exact I].
    destruct (find_working_selector b load_selectors d1) as [[ws|e] d2]; [|exact I].
    unfold show_more_loop.
    rewrite attempts_loop_step by (unfold max_attempts; lia).
    destruct (attempt_outcome b ws max_reviews (0 + 1) d2) as (d3 & [->|[->|(e & ->)]]);
      destruct (save_screenshot b "after_loading_reviews.png" d3) as [[[]|e'] d4];
      simpl; try exact I; (split; [reflexivity|]); eauto.
Qed.

Lemma load_all_reviews_never_clicks_examples :
  load_all_reviews button_browser 6 (Some 100) tt
  = (Ok (mkReport 1 (Break NoButton)), tt)
  /\ load_all_reviews
       (with_click button_browser (fun _ => throw (OpFailure "WebDriverException")))
       6 (Some 100) tt
     = (Ok (mkReport 1 (Break NoButton)), tt).
Proof. split; vm_compute; reflexivity. Qed.

(** ** [title] *)

(** X23.  The title of a record is the text of the first element of the
    first tag, in the order [h3], [h4], [h5], [strong], [span], [div], that
    occurs in the fragment: an [h3] anywhere in the fragment wins over a
    [span] or a [div] that comes before it.  The title is "No Title" when
    none of the six tags occurs. *)
Theorem title_follows_tag_priority (review : node) :
  (forall before tag after first others,
     ["h3"; "h4"; "h5"; "strong"; "span"; "div"] = (before ++ tag :: after)%list ->
     (forall earlier, In earlier before -> find_all [earlier] None review = []) ->
     find_all [tag] None review = first :: others ->
     extract_title review = get_text first)
  /\ ((forall tag, In tag ["h3"; "h4"; "h5"; "strong"; "span"; "div"] ->
         find_all [tag] None review = []) ->
      extract_title review = no_title)
  /\ (title_elem review = None ->
      forall tag, In tag ["h3"; "h4"; "h5"; "strong"; "span"; "div"] ->
        find_all [tag] None review = []).
Proof.
  split; [|split].
  - intros before tag after first others Htags Hbefore Hfirst.
    unfold extract_title, title_elem. rewrite Htags.
    rewrite (resolve_first (fun tag => find_all [tag] None review) before tag after
               Hbefore)
      by (rewrite Hfirst; discriminate).
    cbn [snd]. rewrite Hfirst. reflexivity.
  - intros Hnone. unfold extract_title, title_elem.
    rewrite (resolve_none (fun tag => find_all [tag] None review) _ Hnone).
    reflexivity.
  - unfold title_elem.
    destruct (resolve_cases (fun tag => find_all [tag] None review)
                ["h3"; "h4"; "h5"; "strong"; "span"; "div"])
      as [Hall|(before & tag & after & Htags & Hbefore & Htag)]; [intros _; exact Hall|].
    rewrite Htags.
    rewrite (resolve_first (fun tag => find_all [tag] None review) before tag after
               Hbefore Htag).
    cbn [snd]. destruct (find_all [tag] None review); [contradiction|discriminate].
Qed.

Lemma title_follows_tag_priority_witness :
  extract_title late_heading_fragment = "Solid"
  /\ extract_title plain_fragment = no_title.
Proof.
  destruct (title_follows_tag_priority late_heading_fragment) as (Hfirst & _ & _).
  destruct (title_follows_tag_priority plain_fragment) as (_ & Hnone & _).
  split.
  - apply (Hfirst [] "h3" ["h4"; "h5"; "strong"; "span"; "div"]
                  (Elem "h3" None [Text "Solid"]) []);
      [reflexivity|intros earlier []|reflexivity].
  - apply Hnone. intros tag Hin. simpl in Hin.
    destruct Hin as [<-|[<-|[<-|[<-|[<-|[<-|[]]]]]]]; reflexivity.
Defined.
